(** * Icon preparation scripts: fix_icon_padding.py and generate_app_icons.py

    A shallow embedding of the two command-line scripts under [scripts/]
    and the properties their specification states about them.

    Definitions:
    - [Py]: the Python values and built-ins the scripts use.  A [float] is
      an IEEE 754 binary64 number; an arithmetic operation returns the
      exact rational result rounded to the nearest binary64 value, ties to
      even ([rne]).  An [int] is unbounded ([Z]).
    - [Raster]: decoded images.
    - [Os]: the file system and standard output the scripts act on, and the
      state-and-exception monad their statements run in.
    - [PIL]: the Pillow operations that are called.  What Pillow computes
      in its C core (resampling, mode conversion, colour parsing, the
      "over" operator, the largest image side) is a parameter, [Pillow],
      with the properties relied on in [PillowSpec].
    - [Padder]: scripts/fix_icon_padding.py.
    - [IconGenerator]: scripts/generate_app_icons.py.
    - [Demo]: a concrete [Pillow] and concrete inputs.
    - [Extra]: how a run may change the world, and what it prints.

    Theorems:
    - [PyFacts], [PadderFacts]: rounding error of the float operations and
      the bounds on inset and resampled size that follow.
    - [RasterFacts], [PILFacts], [IconGeneratorFacts], [PadderRun]: pixel
      indexing, blending, paths, and what whole runs do.
    - [PadderClaims], [IconGeneratorClaims]: the properties C1 to C10.
    - [PadderGeometry], [RoundingOrder], [PadderInset], [PadderMore],
      [RunFacts]: two-sided rounding bounds, monotonicity of rounding, and
      what returning and failing runs went through.
    - [PadderExtras], [IconGeneratorExtras]: the further properties X1 to
      X20. *)

From Stdlib Require Import ZArith QArith Qabs Qround Qpower Lqa Lia.
From Stdlib Require Import Ascii String DecimalString SpecFloat.
From stdpp Require Import gmap strings list fin_maps.

Local Open Scope Z_scope.

(* ===================================================================== *)
(** * Python values and built-ins                                        *)
(* ===================================================================== *)

Module Py.

(** Exceptions.  [SystemExit] is what [sys.exit] raises; it is not an
    [Exception], so [except Exception] does not catch it. *)
Inductive exc_class :=
  | ValueError | OverflowError | ZeroDivisionError | MemoryError
  | FileNotFoundError | FileExistsError | IsADirectoryError
  | UnidentifiedImageError.

Inductive exn :=
  | Exception (cls : exc_class) (msg : string)
  | SystemExit (code : Z).

Inductive result (A : Type) :=
  | Ok (a : A)
  | Raise (e : exn).
Arguments Ok {A} a.
Arguments Raise {A} e.

#[export] Instance result_ret : MRet result := fun A a => Ok a.
#[export] Instance result_bind : MBind result := fun A B f r =>
  match r with
  | Ok a => f a
  | Raise e => Raise e
  end.

(** ** float: IEEE 754 binary64

    A finite float is the rational it denotes; the sign of a zero is not
    kept, because no operation of the two scripts observes it (there is no
    division by a computed float, no [copysign], no formatting of floats). *)
Inductive pyfloat :=
  | FNan
  | FInf (neg : bool)
  | FFin (q : Q).

(** [round(x)] of a float, as an integer: nearest, ties to even. *)
Definition round_half_even (q : Q) : Z :=
  let f := Qfloor q in
  match (q - inject_Z f ?= 1 # 2)%Q with
  | Lt => f
  | Gt => f + 1
  | Eq => if Z.even f then f else f + 1
  end.

(** Binade of a positive rational: [2 ^ Qlog2 q <= q < 2 ^ (Qlog2 q + 1)]. *)
Definition Qlog2 (q : Q) : Z :=
  let e0 := Z.log2 (Qnum q) - Z.log2 (Zpos (Qden q)) in
  if Qle_bool (2 ^ e0) q then e0 else e0 - 1.

(** Exponent of the unit in the last place: 53 bits of precision, the
    subnormal exponent -1074 as floor. *)
Definition ulp_exp (q : Q) : Z := Z.max (Qlog2 q - 52) (-1074).

Definition rne_pos (q : Q) : Q :=
  (inject_Z (round_half_even (q / 2 ^ ulp_exp q)) * 2 ^ ulp_exp q)%Q.

(** Round to nearest binary64, ties to even; overflow gives an infinity. *)
Definition rne (q : Q) : pyfloat :=
  match Qnum q with
  | Z0 => FFin 0
  | Zpos _ =>
      let r := rne_pos q in
      if Qle_bool (2 ^ 1024) r then FInf false else FFin (Qred r)
  | Zneg _ =>
      let r := rne_pos (- q) in
      if Qle_bool (2 ^ 1024) r then FInf true else FFin (Qred (- r))
  end.

Definition Qlt_bool (p q : Q) : bool := negb (Qle_bool q p).

(** Bounds on the rounding error of [rne]: half a unit in the last place is
    at most [q * 2^-53] for a normal number and [2^-1075] below; [eta] is
    a coarser absolute bound, 2^-100, which is all the geometry needs. *)
Definition eps : Q := 1 # 9007199254740992.
Definition eta : Q := 1 # 1267650600228229401496703205376.

(** [a < b] on floats; every comparison with a NaN is false. *)
Definition flt (a b : pyfloat) : bool :=
  match a, b with
  | FNan, _ | _, FNan => false
  | FInf s, FInf t => s && negb t
  | FInf s, FFin _ => s
  | FFin _, FInf t => negb t
  | FFin p, FFin q => Qlt_bool p q
  end.

(** The built-ins [min(a, b)] and [max(a, b)]: the first argument is kept
    unless the second is strictly smaller (resp. larger). *)
Definition pymin (a b : pyfloat) : pyfloat := if flt b a then b else a.
Definition pymax (a b : pyfloat) : pyfloat := if flt a b then b else a.

Definition fmul (a b : pyfloat) : pyfloat :=
  match a, b with
  | FNan, _ | _, FNan => FNan
  | FInf s, FInf t => FInf (xorb s t)
  | FInf s, FFin q | FFin q, FInf s =>
      match (q ?= 0)%Q with
      | Eq => FNan
      | Lt => FInf (negb s)
      | Gt => FInf s
      end
  | FFin p, FFin q => rne (p * q)
  end.

Definition fsub (a b : pyfloat) : pyfloat :=
  match a, b with
  | FNan, _ | _, FNan => FNan
  | FInf s, FInf t => if Bool.eqb s t then FNan else FInf s
  | FInf s, FFin _ => FInf s
  | FFin _, FInf t => FInf (negb t)
  | FFin p, FFin q => rne (p - q)
  end.

(** [a / b] on floats: a zero divisor raises. *)
Definition fdiv (a b : pyfloat) : result pyfloat :=
  match a, b with
  | _, FFin q =>
      if Qeq_bool q 0 then Raise (Exception ZeroDivisionError "float division by zero")
      else match a with
           | FNan => Ok FNan
           | FInf s => Ok (FInf (xorb s (Qlt_bool q 0)))
           | FFin p => Ok (rne (p / q))
           end
  | FNan, _ | _, FNan => Ok FNan
  | FInf _, FInf _ => Ok FNan
  | FFin _, FInf _ => Ok (FFin 0)
  end.

(** [float(n)], the coercion an [int * float] product applies to the int. *)
Definition float_of_int (n : Z) : result pyfloat :=
  match rne (inject_Z n) with
  | FInf _ => Raise (Exception OverflowError "int too large to convert to float")
  | x => Ok x
  end.

(** [n * x] for an int [n] and a float [x]. *)
Definition imulf (n : Z) (x : pyfloat) : result pyfloat :=
  f ← float_of_int n; mret (fmul f x).

(** [a / b] on ints (true division): the correctly rounded quotient. *)
Definition int_truediv (a b : Z) : result pyfloat :=
  if b =? 0 then Raise (Exception ZeroDivisionError "division by zero")
  else match rne (inject_Z a / inject_Z b) with
       | FInf _ =>
           Raise (Exception OverflowError "integer division result too large for a float")
       | x => Ok x
       end.

(** [round(x)] with one argument, an int. *)
Definition py_round (x : pyfloat) : result Z :=
  match x with
  | FNan => Raise (Exception ValueError "cannot convert float NaN to integer")
  | FInf _ => Raise (Exception OverflowError "cannot convert float infinity to integer")
  | FFin q => Ok (round_half_even q)
  end.

(** [str(n)] for an int. *)
Definition str_int (n : Z) : string := NilZero.string_of_int (Z.to_int n).

(** [s.upper()] on ASCII letters. *)
Definition upper_ascii (c : ascii) : ascii :=
  let n := nat_of_ascii c in
  if ((97 <=? n) && (n <=? 122))%nat then ascii_of_nat (n - 32) else c.

Fixpoint upper (s : string) : string :=
  match s with
  | EmptyString => EmptyString
  | String c s' => String (upper_ascii c) (upper s')
  end.

End Py.

(* ===================================================================== *)
(** * Rasters                                                            *)
(* ===================================================================== *)

Module Raster.

(** A pixel is the list of its band values (4 for "RGBA", 3 for "RGB"). *)
Definition pixel := list Z.

(** A decoded image: mode, size, and the pixels row by row. *)
Record image := Image {
  mode : string;
  width : Z;
  height : Z;
  data : list pixel
}.

Definition build (w h : Z) (f : Z -> Z -> pixel) : list pixel :=
  map (fun i : nat => f (Z.of_nat i mod w) (Z.of_nat i / w))
      (seq 0 (Z.to_nat (w * h))).

Definition getpixel (im : image) (x y : Z) : pixel :=
  nth (Z.to_nat (y * width im + x)) (data im) [].

Definition same_size (a b : image) : bool :=
  (width a =? width b) && (height a =? height b).

End Raster.

(* ===================================================================== *)
(** * Operating system: files, directories, standard output              *)
(* ===================================================================== *)

Module Os.
Import Py Raster.

(** What a path holds: an image file (in any format Pillow decodes, held
    as the raster it decodes to), or something that is not an image. *)
Inductive filedata :=
  | ImageFile (im : image)
  | OtherFile.

Record world := World {
  files : gmap string filedata;
  dirs : gset string;
  stdout : list string
}.

(** Statements run in a state-and-exception monad over the world: what was
    printed and written before an exception stays. *)
Definition M (A : Type) : Type := world -> result A * world.

#[export] Instance M_ret : MRet M := fun A a w => (Ok a, w).
#[export] Instance M_bind : MBind M := fun A B f m w =>
  match m w with
  | (Ok a, w') => f a w'
  | (Raise e, w') => (Raise e, w')
  end.

Definition lift {A} (r : result A) : M A := fun w => (r, w).
Definition raise {A} (e : exn) : M A := fun w => (Raise e, w).

(** [try: body  except Exception as e: handler] *)
Definition try_except {A} (body : M A) (handler : exc_class -> string -> M A) : M A :=
  fun w =>
    match body w with
    | (Raise (Exception cls msg), w') => handler cls msg w'
    | r => r
    end.

Definition print (s : string) : M unit :=
  fun w => (Ok tt, World (files w) (dirs w) (stdout w ++ [s])).

Definition sys_exit {A} (code : Z) : M A := raise (SystemExit code).

(** Exit status of the process for the outcome of its top-level code. *)
Definition exit_status {A} (r : result A) : Z :=
  match r with
  | Ok _ => 0
  | Raise (SystemExit code) => code
  | Raise (Exception _ _) => 1
  end.

Definition os_path_exists (p : string) : M bool :=
  fun w => (Ok (bool_decide (is_Some (files w !! p) \/ p ∈ dirs w)), w).

(** posixpath.join for two components. *)
Definition startswith_sep (s : string) : bool :=
  match s with
  | String c _ => Ascii.eqb c "/"
  | EmptyString => false
  end.

Fixpoint endswith_sep (s : string) : bool :=
  match s with
  | EmptyString => false
  | String c EmptyString => Ascii.eqb c "/"
  | String _ s' => endswith_sep s'
  end.

Definition os_path_join (a b : string) : string :=
  if startswith_sep b then b
  else if String.eqb a EmptyString || endswith_sep a then a +:+ b
  else a +:+ "/" +:+ b.

(** What [os.path.join] puts before a relative component. *)
Definition base (output_dir : string) : string :=
  if String.eqb output_dir EmptyString || endswith_sep output_dir
  then output_dir else output_dir +:+ "/".

(** A component that can name a directory of the tree: relative, not
    empty, and not ending in a separator. *)
Definition plain (c : string) : bool :=
  negb (startswith_sep c) && negb (String.eqb c EmptyString) && negb (endswith_sep c).

(** [os.makedirs(p, exist_ok=True)].  Only the leaf directory is recorded;
    the intermediate components of [p] are taken to be creatable. *)
Definition os_makedirs (p : string) : M unit :=
  fun w =>
    if String.eqb p EmptyString then
      (Raise (Exception FileNotFoundError "No such file or directory"), w)
    else match files w !! p with
         | Some _ => (Raise (Exception FileExistsError "File exists"), w)
         | None => (Ok tt, World (files w) ({[p]} ∪ dirs w) (stdout w))
         end.

End Os.

(* ===================================================================== *)
(** * Pillow                                                             *)
(* ===================================================================== *)

Module PIL.
Import Py Raster Os.

(** The parts of Pillow that are computed in its C core and are not fixed
    here: the largest side an image can have, Lanczos resampling, mode
    conversion, colour-string parsing and the per-pixel "over" operator of
    alpha compositing (destination pixel first). *)
Class Pillow := {
  max_side : Z;
  lanczos : image -> Z -> Z -> image;
  converted : image -> string -> image;
  getcolor : string -> string -> result pixel;
  over : pixel -> pixel -> pixel
}.

(** An "RGBA" raster: four bands per pixel, each a byte. *)
Definition byte_range (v : Z) : Prop := 0 <= v <= 255.

Definition rgba (im : image) : Prop :=
  mode im = "RGBA"%string /\ 0 <= width im /\ 0 <= height im /\
  length (data im) = Z.to_nat (width im * height im) /\
  Forall (fun p => length p = 4%nat /\ Forall byte_range p) (data im).

(** What is relied on about those parts. *)
Class PillowSpec `{Pillow} : Prop := {
  max_side_range : 1024 <= max_side < 2 ^ 31;
  lanczos_width : forall im w h, width (lanczos im w h) = w;
  lanczos_height : forall im w h, height (lanczos im w h) = h;
  lanczos_rgba : forall im w h, rgba im -> 0 < w -> 0 < h -> rgba (lanczos im w h);
  converted_width : forall im m, width (converted im m) = width im;
  converted_height : forall im m, height (converted im m) = height im;
  converted_mode : forall im m, mode (converted im m) = m;
  converted_rgba : forall im, 0 <= width im -> 0 <= height im -> rgba (converted im "RGBA")
}.

Section Operations.
Context `{Pillow}.

(** An image Pillow can hold, with at least one pixel. *)
Definition well_sized (im : image) : Prop :=
  1 <= width im <= max_side /\ 1 <= height im <= max_side.

(** [Image.new(mode, (w, h), color)] *)
Definition Image_new (m : string) (size : Z * Z) (color : pixel) : result image :=
  let '(w, h) := size in
  if (w <? 0) || (h <? 0) then
    Raise (Exception ValueError "Width and height must be >= 0")
  else if (max_side <? w) || (max_side <? h) then
    Raise (Exception MemoryError "out of memory")
  else Ok (Image m w h (repeat color (Z.to_nat (w * h)))).

(** [Image.open(path)] *)
Definition Image_open (path : string) : M image :=
  fun w =>
    match files w !! path with
    | Some (ImageFile im) => (Ok im, w)
    | Some OtherFile =>
        (Raise (Exception UnidentifiedImageError "cannot identify image file"), w)
    | None =>
        if bool_decide (path ∈ dirs w)
        then (Raise (Exception IsADirectoryError "Is a directory"), w)
        else (Raise (Exception FileNotFoundError "No such file or directory"), w)
    end.

(** [im.convert(m)] *)
Definition Image_convert (im : image) (m : string) : image := converted im m.

(** [im.resize((w, h), LANCZOS)] *)
Definition Image_resize (im : image) (size : Z * Z) : result image :=
  let '(w, h) := size in
  if (w <? 1) || (h <? 1) then
    Raise (Exception ValueError "height and width must be > 0")
  else Ok (lanczos im w h).

(** [im.save(path, "PNG", optimize=True)]: PNG is lossless, the file
    decodes to the raster that was saved. *)
Definition Image_save (im : image) (path : string) : M unit :=
  fun w =>
    if bool_decide (path ∈ dirs w)
    then (Raise (Exception IsADirectoryError "Is a directory"), w)
    else (Ok tt, World (<[path := ImageFile im]> (files w)) (dirs w) (stdout w)).

(** Blending of one byte under an 8-bit mask, as Pillow's paste does it:
    [(in1 * (255 - mask) + in2 * mask) / 255], rounded. *)
Definition div255 (a : Z) : Z :=
  let tmp := a + 128 in
  Z.shiftr (Z.shiftr tmp 8 + tmp) 8.

Definition blend8 (mask in1 in2 : Z) : Z :=
  div255 (in1 * (255 - mask) + in2 * mask).


(** The alpha band of an "RGBA" pixel. *)
Definition alpha_of (p : pixel) : Z := nth 3 p 255.

Definition blend_px (dst src : pixel) (mask : Z) : pixel :=
  zip_with (blend8 mask) dst src.

Definition in_box (x0 y0 : Z) (im : image) (x y : Z) : bool :=
  (x0 <=? x) && (x <? x0 + width im) && (y0 <=? y) && (y <? y0 + height im).

(** [self.paste(im, box, mask)] with a two-coordinate box and a mask whose
    alpha band is used: where the mask is 0 the current value is kept,
    where it is 255 the pasted value is copied, values in between mix. *)
Definition Image_paste (self im : image) (box : Z * Z) (mask : image) : result image :=
  let '(x0, y0) := box in
  if negb (same_size im mask) then
    Raise (Exception ValueError "images do not match")
  else
    Ok (Image (mode self) (width self) (height self)
          (build (width self) (height self) (fun x y =>
             if in_box x0 y0 im x y
             then blend_px (getpixel self x y) (getpixel im (x - x0) (y - y0))
                           (alpha_of (getpixel mask (x - x0) (y - y0)))
             else getpixel self x y))).

(** [self.alpha_composite(im, dest=(x, y))]: both images are "RGBA".  A
    negative destination is refused, as older releases of Pillow do; the
    part of [im] that falls outside [self] is dropped. *)
Definition Image_alpha_composite (self im : image) (dest : Z * Z) : result image :=
  let '(x0, y0) := dest in
  if negb (String.eqb (mode self) "RGBA" && String.eqb (mode im) "RGBA") then
    Raise (Exception ValueError "image has wrong mode")
  else if (x0 <? 0) || (y0 <? 0) then
    Raise (Exception ValueError "Destination must be non-negative")
  else
    Ok (Image (mode self) (width self) (height self)
          (build (width self) (height self) (fun x y =>
             if in_box x0 y0 im x y
             then over (getpixel self x y) (getpixel im (x - x0) (y - y0))
             else getpixel self x y))).

End Operations.

End PIL.

(* ===================================================================== *)
(** * scripts/fix_icon_padding.py                                        *)
(* ===================================================================== *)

Module Padder.
Import Py Raster Os PIL.

(** The namespace [parse_args] returns: [--canvas] is an int,
    [--margin_pct] a float, the other three are strings. *)
Record Namespace := {
  input : string;
  output : string;
  canvas : Z;
  margin_pct : pyfloat;
  bg_color : string
}.

(** [parse_args]: [--input] and [--output] are required, the other flags
    have defaults. *)
Definition parse_args (input output : string) (canvas : option Z)
    (margin_pct : option pyfloat) (bg_color : option string) : Namespace :=
  {| input := input;
     output := output;
     canvas := default 1024 canvas;
     margin_pct := default (FFin (25 # 2)) margin_pct;
     bg_color := default "#0B0F1A"%string bg_color |}.

Section Script.
Context `{Pillow}.

(** [margin = max(0.0, min(45.0, args.margin_pct)) / 100.0] *)
Definition clamp (margin_pct : pyfloat) : pyfloat :=
  pymax (FFin 0) (pymin (FFin 45) margin_pct).

Definition margin_of (margin_pct : pyfloat) : result pyfloat :=
  fdiv (clamp margin_pct) (FFin 100).

(** [inset = int(round(canvas_size * (1.0 - 2.0 * margin)))] *)
Definition inset_of (canvas_size : Z) (margin : pyfloat) : result Z :=
  p ← imulf canvas_size (fsub (FFin 1) (fmul (FFin 2) margin));
  py_round p.

(** [scale = min(inset / im.width, inset / im.height)] *)
Definition scale_of (inset w h : Z) : result pyfloat :=
  s1 ← int_truediv inset w;
  s2 ← int_truediv inset h;
  mret (pymin s1 s2).

(** [max(1, int(round(side * scale)))] *)
Definition scaled (side : Z) (scale : pyfloat) : result Z :=
  p ← imulf side scale;
  r ← py_round p;
  mret (Z.max 1 r).

(** The size of the resampled image: [(new_w, new_h)]. *)
Definition fit (inset w h : Z) : result (Z * Z) :=
  scale ← scale_of inset w h;
  new_w ← scaled w scale;
  new_h ← scaled h scale;
  mret (new_w, new_h).

(** [(canvas_size - new_side) // 2] *)
Definition centre (canvas_size new_side : Z) : Z := (canvas_size - new_side) / 2.

(** [main] up to the computation of the paste position: the canvas, the
    resampled image and the destination of the compositing step. *)
Definition prepare (args : Namespace) : M (image * image * (Z * Z)) :=
  let canvas_size := canvas args in
  margin ← lift (margin_of (margin_pct args));
  inset ← lift (inset_of canvas_size margin);
  color ← lift (getcolor (bg_color args) "RGBA");
  bg ← lift (Image_new "RGBA" (canvas_size, canvas_size) color);
  opened ← Image_open (input args);
  let im := Image_convert opened "RGBA" in
  '(new_w, new_h) ← lift (fit inset (width im) (height im));
  im_resized ← lift (Image_resize im (new_w, new_h));
  let x := centre canvas_size new_w in
  let y := centre canvas_size new_h in
  mret (bg, im_resized, (x, y)).

Definition main (args : Namespace) : M unit :=
  '(bg, im_resized, dest) ← prepare args;
  composited ← lift (Image_alpha_composite bg im_resized dest);
  Image_save composited (output args).

End Script.

End Padder.

(* ===================================================================== *)
(** * scripts/generate_app_icons.py                                      *)
(* ===================================================================== *)

Module IconGenerator.
Import Py Raster Os PIL.

(** The dict of dicts, in insertion order (the order [items()] yields). *)
Definition IOS_ICON_SIZES : list (string * list (string * Z)) :=
  [ ("iphone",
      [ ("Icon-20@1x.png", 20); ("Icon-20@2x.png", 40); ("Icon-20@3x.png", 60);
        ("Icon-29@1x.png", 29); ("Icon-29@2x.png", 58); ("Icon-29@3x.png", 87);
        ("Icon-40@1x.png", 40); ("Icon-40@2x.png", 80); ("Icon-40@3x.png", 120);
        ("Icon-60@2x.png", 120); ("Icon-60@3x.png", 180) ]);
    ("ipad",
      [ ("Icon-20@1x.png", 20); ("Icon-20@2x.png", 40);
        ("Icon-29@1x.png", 29); ("Icon-29@2x.png", 58);
        ("Icon-40@1x.png", 40); ("Icon-40@2x.png", 80);
        ("Icon-76@1x.png", 76); ("Icon-76@2x.png", 152);
        ("Icon-83.5@2x.png", 167) ]);
    ("appstore",
      [ ("AppIcon-1024.png", 1024) ]) ]%string.

(** [len(IOS_ICON_SIZES[category])] *)
Definition table_len (category : string) : Z :=
  match find (fun e => String.eqb (fst e) category) IOS_ICON_SIZES with
  | Some (_, sizes) => Z.of_nat (length sizes)
  | None => 0
  end.

Definition nl : string := String (ascii_of_nat 10) EmptyString.

Fixpoint foldM {A S : Type} (f : S -> A -> M S) (l : list A) (s : S) : M S :=
  match l with
  | [] => mret s
  | a :: l' => s' ← f s a; foldM f l' s'
  end.

Section Script.
Context `{Pillow}.

(** What is saved for one table entry: the resampled image itself, or for
    the "appstore" category its flattening onto opaque white. *)
Definition finish (category : string) (size : Z) (resized : image) : result image :=
  if String.eqb category "appstore" then
    background ← Image_new "RGB" (size, size) [255; 255; 255];
    Image_paste background resized (0, 0) resized
  else mret resized.

(** The raster saved for a table entry of [category] with side [size]. *)
Definition icon (img : image) (category : string) (size : Z) : result image :=
  resized ← Image_resize img (size, size);
  finish category size resized.

(** The body of the inner loop, for one [(filename, size)]. *)
Definition write_icon (img : image) (category category_dir : string)
    (total_icons : Z) (entry : string * Z) : M Z :=
  let '(filename, size) := entry in
  let output_path := os_path_join category_dir filename in
  saved ← lift (icon img category size);
  Image_save saved output_path;;
  print ("  ✓ " +:+ filename +:+ " (" +:+ str_int size +:+ "x" +:+ str_int size +:+ ")");;
  mret (total_icons + 1).

(** The body of the outer loop, for one [(category, sizes)]. *)
Definition write_category (img : image) (output_dir : string)
    (total_icons : Z) (entry : string * list (string * Z)) : M Z :=
  let '(category, sizes) := entry in
  let category_dir := os_path_join output_dir category in
  os_makedirs category_dir;;
  print (nl +:+ "Generating " +:+ upper category +:+ " icons:");;
  foldM (write_icon img category category_dir) sizes total_icons.

Definition load (source_path : string) : M image :=
  try_except
    (img ← Image_open source_path;
     print ("✓ Loaded source image: " +:+ str_int (width img) +:+ "x" +:+ str_int (height img));;
     mret img)
    (fun _ msg => print ("Error opening image: " +:+ msg);; sys_exit 1).

(** [if img.mode != 'RGBA': img = img.convert('RGBA')] *)
Definition as_rgba (opened : image) : image :=
  if negb (String.eqb (mode opened) "RGBA")
  then Image_convert opened "RGBA" else opened.

Definition generate_icons (source_path output_dir : string) : M string :=
  present ← os_path_exists source_path;
  (if negb present then
     print ("Error: Source image '" +:+ source_path +:+ "' not found!");;
     sys_exit 1
   else mret tt);;
  opened ← load source_path;
  let img := as_rgba opened in
  os_makedirs output_dir;;
  total_icons ← foldM (write_category img output_dir) IOS_ICON_SIZES 0;
  print (nl +:+ "✅ Successfully generated " +:+ str_int total_icons
            +:+ " icon files in '" +:+ output_dir +:+ "/'");;
  print (nl +:+ "📁 Directory structure:");;
  print ("   " +:+ output_dir +:+ "/");;
  print ("   ├── iphone/     (" +:+ str_int (table_len "iphone") +:+ " files)");;
  print ("   ├── ipad/       (" +:+ str_int (table_len "ipad") +:+ " files)");;
  print ("   └── appstore/   (" +:+ str_int (table_len "appstore") +:+ " file)");;
  mret output_dir.

(** The [if __name__ == '__main__'] block, on [sys.argv]. *)
Definition script (argv : list string) : M unit :=
  if (length argv <? 2)%nat then
    print "Usage: python3 generate_app_icons.py <source_image_path>";;
    print (nl +:+ "Example:");;
    print "  python3 generate_app_icons.py rendio.ai.icon.png";;
    sys_exit 1
  else
    let source_image := nth 1 argv EmptyString in
    let output_directory :=
      if (3 <=? length argv)%nat then nth 2 argv EmptyString else "AppIcons"%string in
    generate_icons source_image output_directory;;
    mret tt.

(** ** What a run is expected to leave behind *)

(** The directories of the categories, and for every table entry the path
    it is saved at with its category and side, in the order of the run. *)
Definition category_dirs (output_dir : string) : list string :=
  map (fun e => os_path_join output_dir (fst e)) IOS_ICON_SIZES.

Definition targets_in (output_dir : string) (table : list (string * list (string * Z)))
    : list (string * (string * Z)) :=
  flat_map (fun e =>
      map (fun fs => (os_path_join (os_path_join output_dir (fst e)) (fst fs),
                      (fst e, snd fs)))
          (snd e))
    table.

Definition targets (output_dir : string) : list (string * (string * Z)) :=
  targets_in output_dir IOS_ICON_SIZES.

(** The table's paths below the output directory. *)
Definition relative_targets : list (string * (string * Z)) :=
  flat_map (fun e => map (fun fs => (fst e +:+ "/" +:+ fst fs, (fst e, snd fs))) (snd e))
           IOS_ICON_SIZES.

(** The flattening of an "RGBA" raster onto opaque white. *)
Definition flattened (size : Z) (resized : image) : image :=
  let background := Image "RGB" size size (repeat [255; 255; 255] (Z.to_nat (size * size))) in
  Image "RGB" size size
    (build size size (fun x y =>
       if in_box 0 0 resized x y
       then blend_px (getpixel background x y) (getpixel resized (x - 0) (y - 0))
                     (alpha_of (getpixel resized (x - 0) (y - 0)))
       else getpixel background x y)).

Definition icon_of (img : image) (category : string) (size : Z) : image :=
  if String.eqb category "appstore"
  then flattened size (lanczos img size size)
  else lanczos img size size.

Definition save_all (written : list (string * image)) (fs : gmap string filedata)
    : gmap string filedata :=
  foldl (fun m pi => <[fst pi := ImageFile (snd pi)]> m) fs written.

Definition outputs (img : image) (output_dir : string) : list (string * image) :=
  map (fun t => (fst t, icon_of img (fst (snd t)) (snd (snd t)))) (targets output_dir).

(** The same for one category, and for any table. *)
Definition saved_in (img : image) (category category_dir : string)
    (sizes : list (string * Z)) : list (string * image) :=
  map (fun fs => (os_path_join category_dir (fst fs), icon_of img category (snd fs))) sizes.

Definition saved_for (img : image) (output_dir : string)
    (table : list (string * list (string * Z))) : list (string * image) :=
  map (fun t => (fst t, icon_of img (fst (snd t)) (snd (snd t))))
      (targets_in output_dir table).

(** The sides of a category are sizes Pillow can resample to. *)
Definition sides_ok (sizes : list (string * Z)) : Prop :=
  Forall (fun fs : string * Z => 1 <= snd fs <= max_side) sizes.


(** The output tree can be written: the output directory has a name, no
    directory to create is an existing file, and no file to write is an
    existing directory. *)
Definition writable (w : world) (output_dir : string) : Prop :=
  output_dir <> EmptyString /\
  files w !! output_dir = None /\
  Forall (fun d : string => files w !! d = None) (category_dirs output_dir) /\
  Forall (fun t : string * (string * Z) => fst t ∉ dirs w) (targets output_dir).

End Script.

End IconGenerator.

(* ===================================================================== *)
(** * A concrete Pillow, and concrete inputs, to run the scripts on       *)
(* ===================================================================== *)

Module Demo.
Import Py Raster Os PIL.

(** The value of a binary64 number of Stdlib's [SpecFloat], to compare
    [rne] with its reference implementation of the IEEE operations. *)
Definition of_spec (x : spec_float) : pyfloat :=
  match x with
  | S754_zero _ => FFin 0
  | S754_infinity s => FInf s
  | S754_nan => FNan
  | S754_finite s m e =>
      FFin (Qred ((if s then -1 else 1) * inject_Z (Zpos m) * 2 ^ e))
  end.

Definition b64 (m e : Z) : spec_float := binary_normalize 53 1024 m e false.

Definition clamp_byte (v : Z) : Z := Z.max 0 (Z.min 255 v).

Definition to_rgba (p : pixel) : pixel :=
  match p with
  | [l] => [clamp_byte l; clamp_byte l; clamp_byte l; 255]
  | [l; a] => [clamp_byte l; clamp_byte l; clamp_byte l; clamp_byte a]
  | [r; g; b] => [clamp_byte r; clamp_byte g; clamp_byte b; 255]
  | [r; g; b; a] => [clamp_byte r; clamp_byte g; clamp_byte b; clamp_byte a]
  | _ => [0; 0; 0; 255]
  end.

(** Nearest-neighbour resampling. *)
Definition nearest (im : image) (w h : Z) : image :=
  Image (mode im) w h
    (build w h (fun x y =>
       let p := getpixel im (x * width im / w) (y * height im / h) in
       if String.eqb (mode im) "RGBA" then to_rgba p else p)).

Definition convert_bands (im : image) (m : string) : image :=
  if String.eqb m "RGBA" then
    Image m (width im) (height im)
      (build (width im) (height im) (fun x y => to_rgba (getpixel im x y)))
  else Image m (width im) (height im) (data im).

Definition hex_digit (c : ascii) : option Z :=
  let n := Z.of_nat (nat_of_ascii c) in
  if (48 <=? n) && (n <=? 57) then Some (n - 48)
  else if (97 <=? n) && (n <=? 102) then Some (n - 87)
  else if (65 <=? n) && (n <=? 70) then Some (n - 55)
  else None.

Fixpoint hex_bytes (s : string) : option (list Z) :=
  match s with
  | EmptyString => Some []
  | String a (String b rest) =>
      match hex_digit a, hex_digit b, hex_bytes rest with
      | Some x, Some y, Some l => Some (16 * x + y :: l)
      | _, _, _ => None
      end
  | String _ EmptyString => None
  end.

(** Colours written "#rrggbb" or "#rrggbbaa". *)
Definition hex_color (s m : string) : result pixel :=
  match s with
  | String "#" digits =>
      match hex_bytes digits with
      | Some [r; g; b] => Ok [r; g; b; 255]
      | Some [r; g; b; a] => Ok [r; g; b; a]
      | _ => Raise (Exception ValueError "unknown color specifier")
      end
  | _ => Raise (Exception ValueError "unknown color specifier")
  end.

(** Source over destination on straight-alpha bytes. *)
Definition src_over (dst src : pixel) : pixel :=
  let a_s := nth 3 src 255 in
  let a_d := nth 3 dst 255 in
  let a_o := a_s + a_d * (255 - a_s) / 255 in
  if a_o =? 0 then [0; 0; 0; 0]
  else map (fun i : nat =>
              (nth i src 0 * a_s + nth i dst 0 * a_d * (255 - a_s) / 255) / a_o)
           [0; 1; 2]%nat ++ [a_o].

#[export] Instance pillow : Pillow := {|
  max_side := 2147483647;
  lanczos := nearest;
  converted := convert_bands;
  getcolor := hex_color;
  over := src_over
|}.

(** A 2x1 "RGBA" logo: an opaque red pixel and a transparent one. *)
Definition logo : image := Image "RGBA" 2 1 [[200; 30; 30; 255]; [0; 0; 0; 0]].

Definition disk : world :=
  World {["logo.png"%string := ImageFile logo]} ∅ [].

(** [--input logo.png --output logo_padded.png --canvas 8] *)
Definition padder_args : Padder.Namespace :=
  Padder.parse_args "logo.png" "logo_padded.png" (Some 8) None None.

End Demo.

(* ===================================================================== *)
(** * What a run may change                                              *)
(* ===================================================================== *)

Module Extra.
Import Py Raster Os PIL.

(** The arguments with another [--margin_pct]. *)
Definition with_margin (args : Padder.Namespace) (m : pyfloat) : Padder.Namespace :=
  {| Padder.input := Padder.input args;
     Padder.output := Padder.output args;
     Padder.canvas := Padder.canvas args;
     Padder.margin_pct := m;
     Padder.bg_color := Padder.bg_color args |}.

(** [w'] comes from [w] by writing files at paths in [F] only, creating
    directories in [D] only, and printing: nothing is deleted, no other
    path changes, and what was printed stays printed. *)
Definition evolves (F D : string -> Prop) (w w' : world) : Prop :=
  (forall p, ~ F p -> files w' !! p = files w !! p) /\
  (forall p, is_Some (files w !! p) -> is_Some (files w' !! p)) /\
  (forall d, d ∈ dirs w -> d ∈ dirs w') /\
  (forall d, d ∈ dirs w' -> d ∈ dirs w \/ D d) /\
  (exists lines, stdout w' = stdout w ++ lines).

(** A computation all of whose runs, returning or raising, change the
    world that way. *)
Definition confined {A} (F D : string -> Prop) (m : M A) : Prop :=
  forall w, evolves F D w (snd (m w)).


(** What a run of [generate_icons] that returns has printed, read off the
    table: the line for the loaded source, for every category its heading
    and one line per file, and the summary for a total of [total] files. *)
Definition tick (entry : string * Z) : string :=
  "  ✓ " +:+ fst entry +:+ " (" +:+ str_int (snd entry) +:+ "x"
         +:+ str_int (snd entry) +:+ ")".

Definition heading (category : string) : string :=
  IconGenerator.nl +:+ "Generating " +:+ upper category +:+ " icons:".

Definition progress (table : list (string * list (string * Z))) : list string :=
  flat_map (fun e => heading (fst e) :: map tick (snd e)) table.

Definition summary (output_dir : string) (total : Z) : list string :=
  [ IconGenerator.nl +:+ "✅ Successfully generated " +:+ str_int total
      +:+ " icon files in '" +:+ output_dir +:+ "/'";
    IconGenerator.nl +:+ "📁 Directory structure:";
    "   " +:+ output_dir +:+ "/";
    "   ├── iphone/     (" +:+ str_int (IconGenerator.table_len "iphone") +:+ " files)";
    "   ├── ipad/       (" +:+ str_int (IconGenerator.table_len "ipad") +:+ " files)";
    "   └── appstore/   (" +:+ str_int (IconGenerator.table_len "appstore") +:+ " file)" ].

Definition transcript (opened : image) (output_dir : string) : list string :=
  ("✓ Loaded source image: " +:+ str_int (width opened) +:+ "x"
      +:+ str_int (height opened))
  :: progress IconGenerator.IOS_ICON_SIZES
  ++ summary output_dir (Z.of_nat (length (IconGenerator.targets output_dir))).

(** Two more disks to run the generator on: one with a file that is not
    an image, one where the directory of the second category is taken by
    a file. *)
Definition cluttered : world :=
  World {["logo.png"%string := ImageFile Demo.logo; "notes.txt"%string := OtherFile]} ∅ [].

Definition blocked : world :=
  World {["logo.png"%string := ImageFile Demo.logo; "AppIcons/ipad"%string := OtherFile]} ∅ [].

End Extra.

(* ===================================================================== *)
(** * Facts about the float model *)
(* ===================================================================== *)

Module PyFacts.
Import Py.

Lemma round_half_even_near q :
  (inject_Z (round_half_even q) - (1 # 2) <= q <= inject_Z (round_half_even q) + (1 # 2))%Q.
Proof.
  unfold round_half_even.
  pose proof (Qfloor_le q) as Hlo. pose proof (Qlt_floor q) as Hhi.
  rewrite inject_Z_plus in Hhi. change (inject_Z 1) with 1%Q in Hhi.
  destruct (Qcompare_spec (q - inject_Z (Qfloor q)) (1 # 2)) as [He|Hl|Hg];
    [destruct (Z.even (Qfloor q))| |];
    rewrite ?inject_Z_plus; change (inject_Z 1) with 1%Q; lra.
Qed.

(** Rounding to an integer never leaves the integers that enclose the
    argument. *)
Lemma round_half_even_le q k : (q < inject_Z k + (1 # 2))%Q -> round_half_even q <= k.
Proof.
  intros Hq. destruct (round_half_even_near q) as [Hlo _].
  assert (Hlt : (inject_Z (round_half_even q) < inject_Z (k + 1))%Q)
    by (rewrite inject_Z_plus; change (inject_Z 1) with 1%Q; lra).
  rewrite <- Zlt_Qlt in Hlt. lia.
Qed.

Lemma round_half_even_ge q k : (inject_Z k - (1 # 2) < q)%Q -> k <= round_half_even q.
Proof.
  intros Hq. destruct (round_half_even_near q) as [_ Hhi].
  assert (Hlt : (inject_Z (k - 1) < inject_Z (round_half_even q))%Q).
  { replace (k - 1) with (k + -1) by lia. rewrite inject_Z_plus.
    change (inject_Z (-1)) with (-1 # 1)%Q. lra. }
  rewrite <- Zlt_Qlt in Hlt. lia.
Qed.

Lemma pow2_pos k : (0 < 2 ^ k)%Q.
Proof. apply Qpower_0_lt. reflexivity. Qed.

Lemma pow2_add a b : (2 ^ (a + b) == 2 ^ a * 2 ^ b)%Q.
Proof. apply Qpower_plus. discriminate. Qed.

Lemma pow2_inject k : 0 <= k -> (inject_Z (2 ^ k) == 2 ^ k)%Q.
Proof. intros. apply (Zpower_Qpower 2 k). assumption. Qed.

Lemma Qlog2_le q : (0 < q)%Q -> (2 ^ Qlog2 q <= q)%Q.
Proof.
  intros Hq. unfold Qlog2. destruct q as [n d]. cbn [Qnum Qden].
  set (e0 := Z.log2 n - Z.log2 (Z.pos d)).
  destruct (Qle_bool (2 ^ e0) (n # d)) eqn:E.
  - now apply Qle_bool_iff.
  - assert (Hn : 0 < n) by (unfold Qlt in Hq; simpl in Hq; lia).
    destruct (Z.log2_spec n Hn) as [Hn1 _].
    destruct (Z.log2_spec (Z.pos d) (Pos2Z.is_pos d)) as [_ Hd2].
    assert (Hln := Z.log2_nonneg n). assert (Hld := Z.log2_nonneg (Z.pos d)).
    replace (e0 - 1) with (Z.log2 n + - (Z.succ (Z.log2 (Z.pos d)))) by (unfold e0; lia).
    rewrite pow2_add, Qpower_opp, <- !pow2_inject by lia.
    set (a := 2 ^ Z.log2 n) in *. set (b := 2 ^ Z.succ (Z.log2 (Z.pos d))) in *.
    change (inject_Z a / inject_Z b <= n # d)%Q.
    apply Qle_shift_div_r.
    + change 0%Q with (inject_Z 0). rewrite <- Zlt_Qlt. lia.
    + unfold Qle, Qmult, inject_Z; simpl. rewrite !Z.mul_1_r. nia.
Qed.

Lemma Qlog2_lt q : (0 < q)%Q -> (q < 2 ^ (Qlog2 q + 1))%Q.
Proof.
  intros Hq. unfold Qlog2. destruct q as [n d]. cbn [Qnum Qden].
  set (e0 := Z.log2 n - Z.log2 (Z.pos d)).
  destruct (Qle_bool (2 ^ e0) (n # d)) eqn:E.
  - assert (Hn : 0 < n) by (unfold Qlt in Hq; simpl in Hq; lia).
    destruct (Z.log2_spec n Hn) as [_ Hn2].
    destruct (Z.log2_spec (Z.pos d) (Pos2Z.is_pos d)) as [Hd1 _].
    assert (Hln := Z.log2_nonneg n). assert (Hld := Z.log2_nonneg (Z.pos d)).
    replace (e0 + 1) with (Z.succ (Z.log2 n) + - Z.log2 (Z.pos d)) by (unfold e0; lia).
    rewrite pow2_add, Qpower_opp, <- !pow2_inject by lia.
    set (a := 2 ^ Z.succ (Z.log2 n)) in *. set (b := 2 ^ Z.log2 (Z.pos d)) in *.
    change (n # d < inject_Z a / inject_Z b)%Q.
    apply Qlt_shift_div_l.
    + change 0%Q with (inject_Z 0). rewrite <- Zlt_Qlt. lia.
    + unfold Qlt, Qmult, inject_Z; simpl. rewrite !Z.mul_1_r. nia.
  - replace (e0 - 1 + 1) with e0 by lia.
    apply Qnot_le_lt. intros H. apply Qle_bool_iff in H. congruence.
Qed.

Lemma half_ulp_le q : (0 < q)%Q -> (2 ^ ulp_exp q * (1 # 2) <= q * eps + eta)%Q.
Proof.
  intros Hq. unfold ulp_exp.
  pose proof (Qlog2_le q Hq) as Hl.
  destruct (Z.max_spec (Qlog2 q - 52) (-1074)) as [[_ ->]|[_ ->]].
  - assert (2 ^ (-1074) * (1 # 2) <= eta)%Q by (vm_compute; discriminate).
    assert (0 <= q * eps)%Q by (apply Qmult_le_0_compat; [lra | discriminate]).
    lra.
  - replace (Qlog2 q - 52) with (Qlog2 q + -52) by lia.
    rewrite pow2_add.
    assert (E : (2 ^ (-52) * (1 # 2) == eps)%Q) by reflexivity.
    assert (0 <= eta)%Q by discriminate.
    rewrite <- Qmult_assoc, E.
    assert (2 ^ Qlog2 q * eps <= q * eps)%Q
      by (apply Qmult_le_compat_r; [assumption | discriminate]).
    lra.
Qed.

Lemma rne_pos_near q :
  (0 < q)%Q ->
  (0 <= rne_pos q /\ q - (q * eps + eta) <= rne_pos q <= q + (q * eps + eta))%Q.
Proof.
  intros Hq. unfold rne_pos.
  pose proof (half_ulp_le q Hq) as Hu.
  pose proof (pow2_pos (ulp_exp q)) as Hp.
  set (p := (2 ^ ulp_exp q)%Q) in *.
  pose proof (round_half_even_near (q / p)) as [Hlo Hhi].
  set (m := inject_Z (round_half_even (q / p))) in *.
  assert (Hy : (q / p * p == q)%Q) by (field; lra).
  assert (H1 : ((m - (1 # 2)) * p <= q / p * p)%Q) by (apply Qmult_le_compat_r; lra).
  assert (H2 : (q / p * p <= (m + (1 # 2)) * p)%Q) by (apply Qmult_le_compat_r; lra).
  rewrite Hy in H1, H2.
  split; [|split].
  - apply Qmult_le_0_compat; [|lra].
    unfold m. change 0%Q with (inject_Z 0). rewrite <- Zle_Qle.
    assert (0 <= q / p)%Q by (apply Qle_shift_div_l; lra).
    apply round_half_even_ge. change (inject_Z 0) with 0%Q. lra.
  - lra.
  - lra.
Qed.

(** The result of [rne_pos] is a binary64 number: a multiple of the unit
    in the last place, which is at least 2^-1074, by a mantissa of at most
    53 bits (2^53 itself when rounding carries into the next binade). *)
Lemma rne_pos_mantissa q :
  (0 < q)%Q ->
  -1074 <= ulp_exp q /\ 0 <= round_half_even (q / 2 ^ ulp_exp q) <= 2 ^ 53.
Proof.
  intros Hq. pose proof (Qlog2_lt q Hq) as Hlt.
  pose proof (pow2_pos (ulp_exp q)) as Hp.
  assert (Hex : Qlog2 q + 1 <= ulp_exp q + 53) by (unfold ulp_exp; lia).
  assert (Hpow : (2 ^ (Qlog2 q + 1) <= 2 ^ (ulp_exp q + 53))%Q)
    by (apply Qpower_le_compat_l; [assumption | discriminate]).
  rewrite (pow2_add (ulp_exp q) 53) in Hpow.
  assert (Hy : (q / 2 ^ ulp_exp q < 2 ^ 53)%Q).
  { apply Qlt_shift_div_r; [assumption|]. lra. }
  assert (Hy0 : (0 <= q / 2 ^ ulp_exp q)%Q) by (apply Qle_shift_div_l; lra).
  split; [unfold ulp_exp; lia|]. split.
  - apply round_half_even_ge. change (inject_Z 0) with 0%Q. lra.
  - apply round_half_even_le. rewrite pow2_inject by lia. lra.
Qed.

(** A non-negative rational well below the overflow threshold rounds to a
    finite float within the error bound. *)
Lemma rne_near q :
  (0 <= q)%Q -> (q <= 2 ^ 1000)%Q ->
  exists r, rne q = FFin r /\
    (0 <= r /\ q - (q * eps + eta) <= r <= q + (q * eps + eta))%Q.
Proof.
  intros Hq Hmax. unfold rne. destruct q as [n d]. cbn [Qnum].
  destruct n as [|n|n].
  - exists 0%Q. split; [reflexivity|]. unfold eps, eta.
    assert ((0 # d) == 0)%Q by reflexivity. lra.
  - destruct (rne_pos_near (Z.pos n # d)) as (H0 & H1 & H2); [reflexivity|].
    set (r := rne_pos (Z.pos n # d)) in *.
    assert (Hb : (2 ^ 1000 * eps + eta + 2 ^ 1000 < 2 ^ 1024)%Q) by reflexivity.
    assert ((Z.pos n # d) * eps <= 2 ^ 1000 * eps)%Q
      by (apply Qmult_le_compat_r; [assumption | discriminate]).
    destruct (Qle_bool (2 ^ 1024) r) eqn:E.
    + apply Qle_bool_iff in E. lra.
    + exists (Qred r). split; [reflexivity|]. rewrite !Qred_correct. auto.
  - exfalso. unfold Qle in Hq. simpl in Hq. lia.
Qed.

End PyFacts.

(* ===================================================================== *)
(** * The geometry of the padding script *)
(* ===================================================================== *)

Module PadderFacts.
Import Py Raster Os PIL Padder PyFacts.

(** Linear arithmetic over the rationals, with the equations between
    floats and results put aside first. *)
Ltac qlra :=
  repeat match goal with
         | H : @eq pyfloat _ _ |- _ => clear H
         | H : @eq (result _) _ _ |- _ => clear H
         end;
  unfold eps, eta in *; lra.

Lemma Qlt_bool_true p q : Qlt_bool p q = true -> (p < q)%Q.
Proof.
  unfold Qlt_bool. intros E. apply Qnot_le_lt. intros Hle.
  apply Qle_bool_iff in Hle. rewrite Hle in E. discriminate.
Qed.

Lemma Qlt_bool_false p q : Qlt_bool p q = false -> (q <= p)%Q.
Proof.
  unfold Qlt_bool. intros E. apply Qle_bool_iff.
  destruct (Qle_bool q p); [reflexivity | discriminate].
Qed.

(** Whatever float is given, NaN and the infinities included, the clamped
    percentage is a finite number between 0 and 45. *)
Lemma clamp_range margin_pct :
  exists c, clamp margin_pct = FFin c /\ (0 <= c <= 45)%Q.
Proof.
  unfold clamp, pymin, pymax. destruct margin_pct as [|[|]|q]; cbn.
  - exists 45%Q. split; [reflexivity | lra].
  - exists 0%Q. split; [reflexivity | lra].
  - exists 45%Q. split; [reflexivity | lra].
  - destruct (Qlt_bool q 45) eqn:E1; cbn.
    + destruct (Qlt_bool 0 q) eqn:E2.
      * exists q. apply Qlt_bool_true in E1, E2. split; [reflexivity | lra].
      * exists 0%Q. split; [reflexivity | lra].
    + exists 45%Q. split; [reflexivity | lra].
Qed.

Lemma margin_range margin_pct :
  exists m, margin_of margin_pct = Ok (FFin m) /\
    (0 <= m <= (45 # 100) + (1 # 1125899906842624))%Q.
Proof.
  destruct (clamp_range margin_pct) as (c & Hc & Hc0 & Hc45).
  unfold margin_of. rewrite Hc. cbn.
  destruct (rne_near (c / 100)) as (m & Hm & Hm0 & Hlo & Hhi).
  - apply Qle_shift_div_l; qlra.
  - apply Qle_shift_div_r; [qlra|].
    assert (45 <= 2 ^ 1000 * 100)%Q by (vm_compute; discriminate). qlra.
  - exists m. rewrite Hm. split; [reflexivity|]. split; [assumption|].
    assert (c / 100 <= 45 # 100)%Q by (apply Qle_shift_div_r; qlra).
    assert (0 <= c / 100)%Q by (apply Qle_shift_div_l; qlra).
    qlra.
Qed.

Lemma inject_Z_bounds n lo hi :
  lo <= n <= hi -> (inject_Z lo <= inject_Z n <= inject_Z hi)%Q.
Proof. intros [? ?]. split; rewrite <- Zle_Qle; assumption. Qed.

Lemma float_of_int_near n :
  0 <= n <= 2 ^ 31 ->
  exists f, float_of_int n = Ok (FFin f) /\
    (0 <= f /\ inject_Z n - (inject_Z n * eps + eta) <= f
            <= inject_Z n + (inject_Z n * eps + eta))%Q.
Proof.
  intros Hn. apply inject_Z_bounds in Hn. destruct Hn as [Hn0 Hn1].
  change (inject_Z 0) with 0%Q in Hn0.
  destruct (rne_near (inject_Z n)) as (f & Hf & Hb); [assumption | |].
  - assert (inject_Z (2 ^ 31) <= 2 ^ 1000)%Q by (vm_compute; discriminate). qlra.
  - exists f. unfold float_of_int. rewrite Hf. auto.
Qed.

(** The inset for a canvas of side 1 to 2^31 - 1: the clamp keeps it between
    0 and the canvas side, and within half a pixel of a tenth of the side
    from below. *)
Lemma inset_range canvas_size margin_pct :
  1 <= canvas_size < 2 ^ 31 ->
  exists m inset,
    margin_of margin_pct = Ok m /\ inset_of canvas_size m = Ok inset /\
    0 <= inset <= canvas_size /\ canvas_size - 5 <= 10 * inset.
Proof.
  intros Hc.
  destruct (margin_range margin_pct) as (m & Hm & Hm0 & Hm1).
  exists (FFin m). unfold inset_of, imulf.
  destruct (float_of_int_near canvas_size) as (cf & Hcf & Hcf0 & Hcf1 & Hcf2); [lia|].
  rewrite Hcf. cbn.
  assert (HC : (1 <= inject_Z canvas_size <= 2147483648)%Q).
  { apply (inject_Z_bounds canvas_size 1 (2 ^ 31)). lia. }
  set (C := inject_Z canvas_size) in *.
  destruct (rne_near (2 * m)) as (d & Hd & Hd0 & Hd1 & Hd2);
    [qlra | assert (2 <= 2 ^ 1000)%Q by (vm_compute; discriminate); qlra |].
  rewrite Hd.
  destruct (rne_near (1 - d)) as (t & Ht & Ht0 & Ht1 & Ht2);
    [qlra | assert (2 <= 2 ^ 1000)%Q by (vm_compute; discriminate); qlra |].
  rewrite Ht.
  assert (Htl : ((1 # 10) - (1 # 1099511627776) <= t)%Q) by qlra.
  assert (Hth : (t <= 1 + (1 # 1099511627776))%Q) by qlra.
  assert (Hp1 : (cf * ((1 # 10) - (1 # 1099511627776)) <= cf * t)%Q)
    by (rewrite !(Qmult_comm cf); apply Qmult_le_compat_r; assumption).
  assert (Hp2 : (cf * t <= cf * (1 + (1 # 1099511627776)))%Q)
    by (rewrite !(Qmult_comm cf); apply Qmult_le_compat_r; assumption).
  destruct (rne_near (cf * t)) as (p & Hp & Hp0 & Hp3 & Hp4);
    [qlra | assert (2147483648 * 2 <= 2 ^ 1000)%Q by (vm_compute; discriminate); qlra |].
  rewrite Hp. cbn.
  exists (round_half_even p). split; [assumption|]. split; [reflexivity|].
  assert (Hge0 : 0 <= round_half_even p)
    by (apply round_half_even_ge; change (inject_Z 0) with 0%Q; qlra).
  assert (Hle : round_half_even p <= canvas_size)
    by (apply round_half_even_le; fold C; qlra).
  split; [lia|].
  destruct (round_half_even_near p) as [_ Hnear].
  assert (Hq : (inject_Z (canvas_size - 6) < inject_Z (10 * round_half_even p))%Q).
  { replace (canvas_size - 6) with (canvas_size + -6) by lia.
    rewrite inject_Z_plus, inject_Z_mult. fold C.
    change (inject_Z (-6)) with (-6 # 1)%Q. change (inject_Z 10) with 10%Q. qlra. }
  rewrite <- Zlt_Qlt in Hq. lia.
Qed.

Lemma pymin_fin s1 s2 :
  exists sc, pymin (FFin s1) (FFin s2) = FFin sc /\ (sc <= s1 /\ sc <= s2)%Q /\
    (sc = s1 \/ sc = s2).
Proof.
  unfold pymin; cbn. destruct (Qlt_bool s2 s1) eqn:E.
  - apply Qlt_bool_true in E. exists s2. split; [reflexivity|]. split; [lra | auto].
  - apply Qlt_bool_false in E. exists s1. split; [reflexivity|]. split; [lra | auto].
Qed.

Lemma int_truediv_near a b :
  0 <= a < 2 ^ 31 -> 1 <= b < 2 ^ 31 ->
  exists s, int_truediv a b = Ok (FFin s) /\
    (0 <= s /\ s <= inject_Z a / inject_Z b * (1 + eps) + eta)%Q.
Proof.
  intros Ha Hb. unfold int_truediv.
  destruct (Z.eqb_spec b 0) as [->|_]; [lia|].
  assert (Ha' : 0 <= a <= 2 ^ 31) by lia. assert (Hb' : 1 <= b <= 2 ^ 31) by lia.
  clear Ha Hb. rename Ha' into Ha. rename Hb' into Hb.
  apply (inject_Z_bounds a 0 (2 ^ 31)) in Ha. apply (inject_Z_bounds b 1 (2 ^ 31)) in Hb.
  change (inject_Z 0) with 0%Q in Ha. change (inject_Z 1) with 1%Q in Hb.
  change (inject_Z (2 ^ 31)) with 2147483648%Q in Ha, Hb.
  set (A := inject_Z a) in *. set (B := inject_Z b) in *.
  assert (Hq0 : (0 <= A / B)%Q) by (apply Qle_shift_div_l; lra).
  assert (Hq1 : (A / B <= A)%Q) by (apply Qle_shift_div_r; [lra | nra]).
  destruct (rne_near (A / B)) as (s & Hs & Hs0 & _ & Hs2);
    [assumption | assert (2147483648 <= 2 ^ 1000)%Q by (vm_compute; discriminate); lra |].
  exists s. rewrite Hs. split; [reflexivity|]. split; [assumption | lra].
Qed.

(** A side scaled by at most the rounded quotient [inset / side] comes out
    at most [inset] pixels long, or 1 pixel when that rounds to nothing. *)
Lemma scaled_range side inset sc :
  1 <= side < 2 ^ 31 -> 0 <= inset < 2 ^ 31 ->
  (0 <= sc)%Q -> (sc <= inject_Z inset / inject_Z side * (1 + eps) + eta)%Q ->
  exists n, scaled side (FFin sc) = Ok n /\ 1 <= n <= Z.max 1 inset.
Proof.
  intros Hs Hi Hsc0 Hsc.
  unfold scaled, imulf.
  destruct (float_of_int_near side) as (wf & Hwf & Hwf0 & _ & Hwf2); [lia|].
  rewrite Hwf. cbn.
  assert (Hs' : 1 <= side <= 2 ^ 31) by lia. assert (Hi' : 0 <= inset <= 2 ^ 31) by lia.
  clear Hs Hi. rename Hs' into Hs. rename Hi' into Hi.
  apply (inject_Z_bounds side 1 (2 ^ 31)) in Hs. apply (inject_Z_bounds inset 0 (2 ^ 31)) in Hi.
  change (inject_Z 0) with 0%Q in Hi. change (inject_Z 1) with 1%Q in Hs.
  change (inject_Z (2 ^ 31)) with 2147483648%Q in Hi, Hs.
  set (S := inject_Z side) in *. set (I := inject_Z inset) in *.
  assert (HV0 : (0 <= I / S)%Q) by (apply Qle_shift_div_l; lra).
  assert (HV1 : (I / S <= I)%Q) by (apply Qle_shift_div_r; [lra | nra]).
  assert (HSV : (S * (I / S) == I)%Q) by (field; lra).
  set (V := (I / S)%Q) in *.
  assert (Hprod : (wf * sc <= (S + (S * eps + eta)) * (V * (1 + eps) + eta))%Q)
    by (apply Qmult_le_compat_nonneg; split; assumption).
  assert (Hab : ((S + (S * eps + eta)) * (V * (1 + eps) + eta)
                 == (S * V) * ((1 + eps) * (1 + eps)) + eta * (1 + eps) * S
                    + eta * (1 + eps) * V + eta * eta)%Q) by ring.
  rewrite Hab, HSV in Hprod. clear Hab.
  assert (Hx0 : (0 <= wf * sc)%Q) by (apply Qmult_le_0_compat; assumption).
  set (X := (wf * sc)%Q) in *.
  destruct (rne_near X) as (p & Hp & Hp0 & _ & Hp2);
    [assumption
    | assert (2147483648 * 2 <= 2 ^ 1000)%Q by (vm_compute; discriminate); qlra |].
  rewrite Hp. cbn.
  exists (Z.max 1 (round_half_even p)). split; [reflexivity|].
  assert (round_half_even p <= inset) by (apply round_half_even_le; fold I; qlra).
  lia.
Qed.

(** The resampled size for a source of at least 1x1 pixels: each side is
    between 1 and [max 1 inset]. *)
Lemma fit_range inset w h :
  0 <= inset < 2 ^ 31 -> 1 <= w < 2 ^ 31 -> 1 <= h < 2 ^ 31 ->
  exists new_w new_h, fit inset w h = Ok (new_w, new_h) /\
    1 <= new_w <= Z.max 1 inset /\ 1 <= new_h <= Z.max 1 inset.
Proof.
  intros Hi Hw Hh. unfold fit, scale_of.
  destruct (int_truediv_near inset w Hi Hw) as (s1 & Hs1 & Hs10 & Hs11).
  destruct (int_truediv_near inset h Hi Hh) as (s2 & Hs2 & Hs20 & Hs21).
  rewrite Hs1, Hs2. cbn.
  destruct (pymin_fin s1 s2) as (sc & Hsc & [Hsc1 Hsc2] & Hsc0).
  rewrite Hsc.
  assert (0 <= sc)%Q by (destruct Hsc0; subst; assumption).
  destruct (scaled_range w inset sc Hw Hi) as (nw & Hnw & Hnwr); [assumption | qlra |].
  destruct (scaled_range h inset sc Hh Hi) as (nh & Hnh & Hnhr); [assumption | qlra |].
  rewrite Hnw. cbn. rewrite Hnh. cbn.
  exists nw, nh. auto.
Qed.

End PadderFacts.

(* ===================================================================== *)
(** * Rasters, Pillow operations and runs of the icon generator *)
(* ===================================================================== *)

Module RasterFacts.
Import Py Raster.

Lemma build_length w h f : length (build w h f) = Z.to_nat (w * h).
Proof. unfold build. now rewrite length_map, length_seq. Qed.

Lemma build_Forall (P : pixel -> Prop) w h f :
  (forall x y, P (f x y)) -> Forall P (build w h f).
Proof.
  intros Hf. unfold build. apply Forall_forall. intros p Hp.
  apply list_elem_of_fmap in Hp as (i & -> & _). apply Hf.
Qed.

(** Row-major indexing: pixel [(x, y)] of a [w] by [h] raster is entry
    [y * w + x]. *)
Lemma index_split w h x y :
  0 <= x < w -> 0 <= y < h ->
  (Z.to_nat (y * w + x) < Z.to_nat (w * h))%nat /\
  Z.of_nat (Z.to_nat (y * w + x)) mod w = x /\
  Z.of_nat (Z.to_nat (y * w + x)) / w = y.
Proof.
  intros Hx Hy.
  assert (0 <= y * w + x < w * h) by nia.
  rewrite Z2Nat.id by lia. split; [lia|]. split.
  - rewrite Z.add_comm, Z_mod_plus_full. apply Z.mod_small. lia.
  - rewrite Z.add_comm, Z_div_plus_full by lia. rewrite Z.div_small by lia. lia.
Qed.

Lemma getpixel_build m w h f x y :
  0 <= x < w -> 0 <= y < h ->
  getpixel (Image m w h (build w h f)) x y = f x y.
Proof.
  intros Hx Hy. unfold getpixel, build. cbn [width data].
  destruct (index_split w h x y Hx Hy) as (Hlt & Hmod & Hdiv).
  rewrite nth_lookup, list_lookup_fmap, lookup_seq_lt by assumption.
  cbn. now rewrite Hmod, Hdiv.
Qed.

Lemma getpixel_repeat m w h c x y :
  0 <= x < w -> 0 <= y < h ->
  getpixel (Image m w h (repeat c (Z.to_nat (w * h)))) x y = c.
Proof.
  intros Hx Hy. unfold getpixel. cbn [width data].
  destruct (index_split w h x y Hx Hy) as (Hlt & _ & _).
  apply nth_repeat_lt. assumption.
Qed.

End RasterFacts.

Module PILFacts.
Import Py Raster Os PIL RasterFacts.





(** Under a mask of 255 the pasted value is copied. *)
Lemma blend8_opaque in1 in2 : 0 <= in2 <= 255 -> blend8 255 in1 in2 = in2.
Proof.
  intros H. unfold blend8, div255.
  rewrite !Z.shiftr_div_pow2 by lia. change (2 ^ 8) with 256.
  replace (in1 * (255 - 255) + in2 * 255 + 128) with (in2 * 255 + 128) by lia.
  pose proof (Z.div_mod (in2 * 255 + 128) 256 ltac:(lia)) as Hd.
  pose proof (Z.mod_pos_bound (in2 * 255 + 128) 256 ltac:(lia)) as Hm.
  symmetry. apply Z.div_unique with (r := (in2 * 255 + 128) / 256 + 128 - in2); lia.
Qed.

Section WithPillow.
Context `{PillowSpec}.

Lemma Image_new_ok m w h color :
  0 <= w <= max_side -> 0 <= h <= max_side ->
  Image_new m (w, h) color = Ok (Image m w h (repeat color (Z.to_nat (w * h)))).
Proof.
  intros Hw Hh. unfold Image_new.
  destruct (Z.ltb_spec w 0); [lia|]. destruct (Z.ltb_spec h 0); [lia|].
  destruct (Z.ltb_spec max_side w); [lia|]. destruct (Z.ltb_spec max_side h); [lia|].
  reflexivity.
Qed.

Lemma Image_resize_ok im w h :
  1 <= w -> 1 <= h -> Image_resize im (w, h) = Ok (lanczos im w h).
Proof.
  intros Hw Hh. unfold Image_resize.
  destruct (Z.ltb_spec w 1); [lia|]. destruct (Z.ltb_spec h 1); [lia|]. reflexivity.
Qed.

End WithPillow.

End PILFacts.

Module IconGeneratorFacts.
Import Py Raster Os PIL IconGenerator RasterFacts PILFacts.

(** ** Paths *)

Lemma append_cons x (a b : string) : String x a +:+ b = String x (a +:+ b).
Proof. reflexivity. Qed.

Lemma append_assoc (a b c : string) : (a +:+ b) +:+ c = a +:+ (b +:+ c).
Proof.
  induction a as [|x a IH]; [reflexivity|]. rewrite !append_cons. now f_equal.
Qed.

Lemma append_length (a b : string) :
  String.length (a +:+ b) = (String.length a + String.length b)%nat.
Proof.
  induction a as [|x a IH]; [reflexivity|]. rewrite append_cons. cbn. now f_equal.
Qed.

Lemma endswith_sep_append (a b : string) :
  b <> EmptyString -> endswith_sep (a +:+ b) = endswith_sep b.
Proof.
  intros Hb. induction a as [|x a IH]; [reflexivity|].
  rewrite append_cons. cbn [endswith_sep]. rewrite IH.
  destruct (a +:+ b) eqn:E; [|reflexivity].
  destruct a; [change (EmptyString +:+ b) with b in E; congruence
             | rewrite append_cons in E; discriminate].
Qed.

Lemma join_relative a b :
  startswith_sep b = false -> os_path_join a b = base a +:+ b.
Proof.
  intros Hb. unfold os_path_join, base. rewrite Hb.
  destruct (String.eqb a EmptyString || endswith_sep a); [reflexivity|].
  symmetry. apply append_assoc.
Qed.

Lemma join_nested output_dir c f :
  plain c = true -> startswith_sep f = false ->
  os_path_join (os_path_join output_dir c) f = base output_dir +:+ (c +:+ "/" +:+ f).
Proof.
  unfold plain. intros Hc Hf.
  apply andb_prop in Hc as [Hc Hc3]. apply andb_prop in Hc as [Hc1 Hc2].
  apply negb_true_iff in Hc1, Hc2, Hc3. apply String.eqb_neq in Hc2.
  rewrite (join_relative output_dir c Hc1).
  unfold os_path_join. rewrite Hf.
  rewrite (endswith_sep_append _ c Hc2), Hc3.
  assert (Hne : String.eqb (base output_dir +:+ c) EmptyString = false).
  { apply String.eqb_neq. intros E. apply (f_equal String.length) in E.
    rewrite append_length in E. destruct c; [congruence | cbn in E; lia]. }
  rewrite Hne. cbn [orb]. now rewrite append_assoc.
Qed.

Lemma base_append_neq output_dir s :
  output_dir <> EmptyString -> s <> EmptyString -> base output_dir +:+ s <> output_dir.
Proof.
  intros Ho Hs E. apply (f_equal String.length) in E. unfold base in E.
  destruct (String.eqb output_dir EmptyString || endswith_sep output_dir);
    rewrite ?append_length in E; destruct s; try congruence; cbn in E; lia.
Qed.

(** ** The monad *)

Lemma result_bind_ok {A B} (a : A) (f : A -> result B) : (Ok a ≫= f) = f a.
Proof. reflexivity. Qed.

Lemma bind_run {A B} (m : M A) (f : A -> M B) w :
  (m ≫= f) w =
  match m w with
  | (Ok a, w') => f a w'
  | (Raise e, w') => (Raise e, w')
  end.
Proof. reflexivity. Qed.

(** ** Saving *)

Lemma save_all_app l1 l2 fs : save_all (l1 ++ l2) fs = save_all l2 (save_all l1 fs).
Proof. unfold save_all. apply foldl_app. Qed.

Lemma save_all_cons p im l fs :
  save_all ((p, im) :: l) fs = save_all l (<[p := ImageFile im]> fs).
Proof. reflexivity. Qed.

Lemma save_all_lookup_other (l : list (string * image)) fs (p : string) :
  p ∉ l.*1 -> save_all l fs !! p = fs !! p.
Proof.
  revert fs. induction l as [|[q im] l IH]; intros fs Hp; [reflexivity|].
  rewrite fmap_cons in Hp. apply not_elem_of_cons in Hp as [Hq Hl].
  rewrite save_all_cons, IH by assumption. now rewrite lookup_insert_ne.
Qed.

Lemma save_all_lookup (l : list (string * image)) fs (p : string) (im : image) :
  NoDup l.*1 -> (p, im) ∈ l -> save_all l fs !! p = Some (ImageFile im).
Proof.
  revert fs. induction l as [|[q im'] l IH]; intros fs Hnd Hin.
  - inversion Hin.
  - rewrite fmap_cons in Hnd. apply NoDup_cons in Hnd as [Hq Hnd].
    rewrite save_all_cons. apply elem_of_cons in Hin as [E|Hin].
    + inversion E; subst. rewrite save_all_lookup_other by assumption.
      apply lookup_insert_eq.
    + now apply IH.
Qed.

Section WithPillow.
Context `{PillowSpec}.

(** ** One icon *)

Lemma icon_ok img category size :
  1 <= size <= max_side ->
  icon img category size = Ok (icon_of img category size).
Proof.
  intros Hs. unfold icon, icon_of, finish.
  rewrite Image_resize_ok, result_bind_ok by lia.
  destruct (String.eqb category "appstore"); [|reflexivity].
  rewrite Image_new_ok, result_bind_ok by lia.
  unfold Image_paste, same_size. rewrite !Z.eqb_refl. reflexivity.
Qed.

Lemma icon_of_width img category size : width (icon_of img category size) = size.
Proof.
  unfold icon_of. destruct (String.eqb category "appstore");
    [reflexivity | apply lanczos_width].
Qed.

Lemma icon_of_height img category size : height (icon_of img category size) = size.
Proof.
  unfold icon_of. destruct (String.eqb category "appstore");
    [reflexivity | apply lanczos_height].
Qed.



(** ** The loops *)

Lemma write_icon_run img category category_dir total filename size w :
  1 <= size <= max_side ->
  os_path_join category_dir filename ∉ dirs w ->
  exists line,
    write_icon img category category_dir total (filename, size) w =
    (Ok (total + 1),
     World (<[os_path_join category_dir filename :=
              ImageFile (icon_of img category size)]> (files w))
           (dirs w) (stdout w ++ [line])).
Proof.
  intros Hs Hd. eexists. unfold write_icon.
  rewrite bind_run. unfold lift. rewrite icon_ok by assumption.
  rewrite bind_run. unfold Image_save. rewrite bool_decide_eq_false_2 by assumption.
  rewrite bind_run. unfold print. cbn [files dirs stdout]. reflexivity.
Qed.

Lemma write_icons_run img category category_dir sizes :
  forall total w,
    sides_ok sizes ->
    Forall (fun fs : string * Z => os_path_join category_dir (fst fs) ∉ dirs w) sizes ->
    exists lines,
      foldM (write_icon img category category_dir) sizes total w =
      (Ok (total + Z.of_nat (length sizes)),
       World (save_all (saved_in img category category_dir sizes) (files w))
             (dirs w) (stdout w ++ lines)).
Proof.
  induction sizes as [|[filename size] sizes IH]; intros total w Hs Hd.
  - exists []. cbn. rewrite Z.add_0_r, app_nil_r. now destruct w.
  - apply Forall_cons in Hs as [Hs1 Hs]. apply Forall_cons in Hd as [Hd1 Hd].
    destruct (write_icon_run img category category_dir total filename size w Hs1 Hd1)
      as (line & Hrun).
    cbn [foldM]. rewrite bind_run, Hrun.
    edestruct IH as (lines & ->); [exact Hs | exact Hd |].
    exists (line :: lines). cbn [files dirs stdout length saved_in map fst snd].
    rewrite save_all_cons, <- app_assoc. cbn [app].
    replace (total + 1 + Z.of_nat (length sizes))
      with (total + Z.of_nat (S (length sizes))) by lia.
    reflexivity.
Qed.

Lemma saved_in_keys img category category_dir sizes :
  (saved_in img category category_dir sizes).*1 =
  map (fun fs => os_path_join category_dir (fst fs)) sizes.
Proof. unfold saved_in. rewrite <- list_fmap_compose. reflexivity. Qed.

Lemma targets_in_cons output_dir e table :
  targets_in output_dir (e :: table) =
  map (fun fs => (os_path_join (os_path_join output_dir (fst e)) (fst fs), (fst e, snd fs)))
      (snd e) ++ targets_in output_dir table.
Proof. reflexivity. Qed.

Lemma saved_for_cons img output_dir e table :
  saved_for img output_dir (e :: table) =
  saved_in img (fst e) (os_path_join output_dir (fst e)) (snd e)
  ++ saved_for img output_dir table.
Proof.
  unfold saved_for. rewrite targets_in_cons, map_app. f_equal.
  unfold saved_in. rewrite map_map. reflexivity.
Qed.

Lemma os_makedirs_run p w :
  p <> EmptyString -> files w !! p = None ->
  os_makedirs p w = (Ok tt, World (files w) ({[p]} ∪ dirs w) (stdout w)).
Proof.
  intros Hp Hf. unfold os_makedirs.
  apply String.eqb_neq in Hp. rewrite Hp, Hf. reflexivity.
Qed.

(** The outer loop over any table whose directories and files do not get
    in each other's way. *)
Lemma write_categories_run img output_dir table :
  forall total w,
    Forall (fun e : string * list (string * Z) => sides_ok (snd e)) table ->
    Forall (fun e : string * list (string * Z) =>
              os_path_join output_dir (fst e) <> EmptyString /\
              files w !! os_path_join output_dir (fst e) = None) table ->
    Forall (fun t : string * (string * Z) => fst t ∉ dirs w) (targets_in output_dir table) ->
    (forall t e, t ∈ targets_in output_dir table -> e ∈ table ->
                 fst t <> os_path_join output_dir (fst e)) ->
    exists w',
      foldM (write_category img output_dir) table total w =
      (Ok (total + Z.of_nat (length (targets_in output_dir table))), w') /\
      files w' = save_all (saved_for img output_dir table) (files w) /\
      (forall p, p ∈ dirs w' <->
                 p ∈ dirs w \/ p ∈ map (fun e => os_path_join output_dir (fst e)) table) /\
      exists lines, stdout w' = stdout w ++ lines.
Proof.
  induction table as [|[category sizes] table IH]; intros total w Hs Hd Ht Hsep.
  - exists w. cbn. rewrite Z.add_0_r. split; [reflexivity|]. split; [reflexivity|].
    split; [|exists []; now rewrite app_nil_r].
    intros p. split; [auto | intros [?|Hp]; [assumption | inversion Hp]].
  - apply Forall_cons in Hs as [Hs1 Hs]. apply Forall_cons in Hd as [[Hd1 Hd2] Hd].
    rewrite targets_in_cons in Ht, Hsep. cbn [fst snd] in *.
    apply Forall_app in Ht as [Ht1 Ht].
    set (category_dir := os_path_join output_dir category) in *.
    cbn [foldM]. rewrite bind_run. unfold write_category at 1. fold category_dir.
    rewrite bind_run, (os_makedirs_run category_dir w Hd1 Hd2).
    rewrite bind_run. unfold print at 1. cbn [files dirs stdout].
    edestruct (write_icons_run img category category_dir sizes total) as (lines & ->).
    { exact Hs1. }
    { cbn [dirs]. apply Forall_forall. intros [filename size] Hin. cbn [fst].
      rewrite Forall_forall in Ht1.
      specialize (Ht1 (os_path_join category_dir filename, (category, size))).
      cbn [fst] in Ht1. intros Hel. apply elem_of_union in Hel as [Hel|Hel].
      - apply elem_of_singleton in Hel.
        eapply (Hsep (os_path_join category_dir filename, (category, size)) (category, sizes));
          [|left|exact Hel].
        apply elem_of_app. left.
        apply (list_elem_of_fmap_2 (fun fs : string * Z =>
                 (os_path_join category_dir (fst fs), (category, snd fs))) _ _ Hin).
      - apply Ht1; [|assumption].
        apply (list_elem_of_fmap_2 (fun fs : string * Z =>
                 (os_path_join category_dir (fst fs), (category, snd fs))) _ _ Hin). }
    cbv beta iota.
    match goal with
    | |- context [foldM (write_category img output_dir) table ?t ?w1] =>
        destruct (IH t w1) as (w' & Hrun & Hf & Hdirs & lines' & Hout)
    end.
    { exact Hs. }
    { cbn [files]. apply Forall_forall. intros e He. rewrite Forall_forall in Hd.
      destruct (Hd e He) as [Hne Hnone]. split; [assumption|].
      rewrite save_all_lookup_other; [assumption|].
      rewrite saved_in_keys. intros Hel.
      apply list_elem_of_fmap in Hel as ([filename size] & Heq & Hin). cbn [fst] in Heq.
      eapply (Hsep (os_path_join category_dir filename, (category, size)) e);
        [|right; exact He|exact (eq_sym Heq)].
      apply elem_of_app. left.
      apply (list_elem_of_fmap_2 (fun fs : string * Z =>
               (os_path_join category_dir (fst fs), (category, snd fs))) _ _ Hin). }
    { cbn [dirs]. apply Forall_forall. intros t Hin Hel. rewrite Forall_forall in Ht.
      apply elem_of_union in Hel as [Hel|Hel].
      - apply elem_of_singleton in Hel.
        eapply (Hsep t (category, sizes)); [apply elem_of_app; right; exact Hin | left | exact Hel].
      - exact (Ht t Hin Hel). }
    { intros t e Hin He. apply Hsep; [apply elem_of_app; right; exact Hin | right; exact He]. }
    exists w'. rewrite Hrun. split; [|split; [|split]].
    + rewrite targets_in_cons, length_app, length_map. cbn [snd].
      f_equal. f_equal. lia.
    + rewrite Hf. cbn [files]. rewrite saved_for_cons, save_all_app. reflexivity.
    + intros p. rewrite Hdirs. cbn [dirs map fst].
      rewrite elem_of_union, elem_of_singleton, elem_of_cons. fold category_dir. tauto.
    + exists ((nl +:+ "Generating " +:+ upper category +:+ " icons:") :: lines ++ lines').
      rewrite Hout. cbn [stdout]. rewrite <- !app_assoc. reflexivity.
Qed.

(** ** The table *)

Lemma targets_relative output_dir :
  targets output_dir =
  map (fun t => (base output_dir +:+ fst t, snd t)) relative_targets.
Proof.
  unfold targets, targets_in, relative_targets, IOS_ICON_SIZES.
  cbn [flat_map map app fst snd].
  rewrite !join_nested by reflexivity. reflexivity.
Qed.

Lemma category_dirs_relative output_dir :
  category_dirs output_dir = map (fun c => base output_dir +:+ c) (map fst IOS_ICON_SIZES).
Proof.
  unfold category_dirs, IOS_ICON_SIZES. cbn [map fst].
  rewrite !join_relative by reflexivity. reflexivity.
Qed.

Lemma targets_keys output_dir :
  (targets output_dir).*1 = map (fun s => base output_dir +:+ s) relative_targets.*1.
Proof.
  rewrite targets_relative, <- !list_fmap_compose. reflexivity.
Qed.

Lemma targets_length output_dir : length (targets output_dir) = 21%nat.
Proof. reflexivity. Qed.

(** The 21 paths are pairwise different. *)
Lemma targets_NoDup output_dir : NoDup (targets output_dir).*1.
Proof.
  rewrite targets_keys. apply (NoDup_fmap_2 _).
  apply (bool_decide_unpack _). vm_compute. reflexivity.
Qed.

(** No file of the table is saved at the path of a category directory. *)
Lemma targets_apart output_dir t e :
  t ∈ targets output_dir -> e ∈ IOS_ICON_SIZES ->
  fst t <> os_path_join output_dir (fst e).
Proof.
  intros Ht He E.
  assert (Hd : os_path_join output_dir (fst e) ∈ category_dirs output_dir)
    by (apply (list_elem_of_fmap_2 (fun e => os_path_join output_dir (fst e)) _ _ He)).
  rewrite <- E, category_dirs_relative in Hd.
  apply (list_elem_of_fmap_2 fst) in Ht. rewrite targets_keys in Ht.
  apply list_elem_of_fmap in Ht as (s & Hs & Hin).
  apply list_elem_of_fmap in Hd as (c & Hc & Hic).
  rewrite Hs in Hc. apply (inj _) in Hc. subst c.
  assert (Hall : Forall (fun s : string => s ∉ map fst IOS_ICON_SIZES) relative_targets.*1)
    by (apply (bool_decide_unpack _); vm_compute; reflexivity).
  rewrite Forall_forall in Hall. exact (Hall s Hin Hic).
Qed.

Lemma targets_not_root output_dir t :
  output_dir <> EmptyString -> t ∈ targets output_dir -> fst t <> output_dir.
Proof.
  intros Ho Ht. apply (list_elem_of_fmap_2 fst) in Ht. rewrite targets_keys in Ht.
  apply list_elem_of_fmap in Ht as (s & -> & Hin).
  apply base_append_neq; [assumption|].
  assert (Hall : Forall (fun s : string => s <> EmptyString) relative_targets.*1)
    by (apply (bool_decide_unpack _); vm_compute; reflexivity).
  rewrite Forall_forall in Hall. exact (Hall s Hin).
Qed.

Lemma category_dirs_named output_dir e :
  e ∈ IOS_ICON_SIZES -> os_path_join output_dir (fst e) <> EmptyString.
Proof.
  intros He E.
  assert (Hd : os_path_join output_dir (fst e) ∈ category_dirs output_dir)
    by (apply (list_elem_of_fmap_2 (fun e => os_path_join output_dir (fst e)) _ _ He)).
  rewrite E, category_dirs_relative in Hd.
  apply list_elem_of_fmap in Hd as (c & Hc & Hic).
  apply (f_equal String.length) in Hc. rewrite append_length in Hc. cbn in Hc.
  assert (Hall : Forall (fun c : string => String.length c <> 0%nat) (map fst IOS_ICON_SIZES))
    by (apply (bool_decide_unpack _); vm_compute; reflexivity).
  rewrite Forall_forall in Hall. specialize (Hall c Hic). lia.
Qed.

Lemma table_sides_ok :
  Forall (fun e : string * list (string * Z) => sides_ok (snd e)) IOS_ICON_SIZES.
Proof.
  pose proof max_side_range. unfold sides_ok, IOS_ICON_SIZES.
  repeat (apply Forall_cons; split); try apply Forall_nil; cbn [snd]; lia.
Qed.

(** ** A whole run *)

Lemma load_run source_path src w :
  files w !! source_path = Some (ImageFile src) ->
  exists line,
    load source_path w = (Ok src, World (files w) (dirs w) (stdout w ++ [line])).
Proof.
  intros Hf. eexists. unfold load, try_except.
  rewrite bind_run. unfold Image_open. rewrite Hf.
  rewrite bind_run. unfold print. reflexivity.
Qed.

(** With the source image on disk and a writable output tree, a run
    returns the output directory, having saved the icon of every table
    entry at its path and nothing else. *)
Lemma generate_icons_run source_path output_dir src w :
  files w !! source_path = Some (ImageFile src) ->
  writable w output_dir ->
  exists w',
    generate_icons source_path output_dir w = (Ok output_dir, w') /\
    files w' = save_all (outputs (as_rgba src) output_dir) (files w) /\
    (forall p, p ∈ dirs w' <->
               p ∈ dirs w \/ p = output_dir \/ p ∈ category_dirs output_dir) /\
    exists lines, stdout w' = stdout w ++ lines.
Proof.
  intros Hsrc (Hname & Hroot & Hdirs & Htargets).
  unfold generate_icons.
  rewrite bind_run. unfold os_path_exists.
  rewrite bool_decide_eq_true_2 by (left; rewrite Hsrc; eauto).
  cbn [negb]. rewrite bind_run.
  change ((mret tt : M unit) w) with (Ok tt, w).
  destruct (load_run source_path src w Hsrc) as (line & Hload).
  rewrite bind_run, Hload.
  rewrite bind_run, os_makedirs_run by assumption.
  cbn [files dirs stdout]. rewrite bind_run.
  match goal with
  | |- context [foldM (write_category ?img output_dir) IOS_ICON_SIZES ?t ?w1] =>
      destruct (write_categories_run img output_dir IOS_ICON_SIZES t w1)
        as (w' & Hrun & Hf & Hd & lines & Hout)
  end.
  - apply table_sides_ok.
  - cbn [files]. apply Forall_forall. intros e He. split.
    + now apply category_dirs_named.
    + rewrite Forall_forall in Hdirs. apply Hdirs.
      apply (list_elem_of_fmap_2 (fun e => os_path_join output_dir (fst e)) _ _ He).
  - cbn [dirs]. apply Forall_forall. intros t Ht Hel.
    rewrite Forall_forall in Htargets.
    apply elem_of_union in Hel as [Hel|Hel].
    + apply elem_of_singleton in Hel. now apply (targets_not_root output_dir t).
    + exact (Htargets t Ht Hel).
  - intros t e. apply targets_apart.
  - rewrite Hrun. cbn [files dirs stdout] in Hf, Hd, Hout.
    repeat (rewrite bind_run; unfold print at 1; cbn [files dirs stdout]).
    eexists. split; [reflexivity|]. cbn [files dirs stdout].
    split; [exact Hf|]. split.
    + intros p. rewrite Hd, elem_of_union, elem_of_singleton. unfold category_dirs. tauto.
    + rewrite Hout, <- !app_assoc. eexists. reflexivity.
Qed.

End WithPillow.

(** A missing source: the diagnostic is printed, the process exits with
    status 1, and neither a directory nor a file has been created. *)
Lemma generate_icons_missing `{Pillow} source_path output_dir w :
  files w !! source_path = None -> source_path ∉ dirs w ->
  generate_icons source_path output_dir w =
  (Raise (SystemExit 1),
   World (files w) (dirs w)
         (stdout w ++ ["Error: Source image '" +:+ source_path +:+ "' not found!"])).
Proof.
  intros Hf Hd. unfold generate_icons.
  rewrite bind_run. unfold os_path_exists.
  rewrite bool_decide_eq_false_2.
  - reflexivity.
  - intros [[x Hx]|Hin]; [congruence | contradiction].
Qed.

End IconGeneratorFacts.

(* ===================================================================== *)
(** * Runs of the padding script *)
(* ===================================================================== *)

Module PadderRun.
Import Py Raster Os PIL Padder PyFacts RasterFacts PILFacts PadderFacts.
Import IconGeneratorFacts.

Section WithPillow.
Context `{PillowSpec}.

Lemma centre_bounds canvas_size new_side :
  1 <= new_side <= canvas_size ->
  0 <= centre canvas_size new_side /\
  centre canvas_size new_side + new_side <= canvas_size /\
  0 <= (canvas_size - new_side - centre canvas_size new_side)
       - centre canvas_size new_side <= 1.
Proof.
  intros Hn. unfold centre.
  pose proof (Z.div_mod (canvas_size - new_side) 2 ltac:(lia)).
  pose proof (Z.mod_pos_bound (canvas_size - new_side) 2 ltac:(lia)).
  lia.
Qed.

(** [main] up to the paste position, when nothing is wrong with the
    arguments: which canvas, which resampled image, which destination. *)
Lemma prepare_run args w color src :
  1 <= canvas args <= max_side ->
  getcolor (bg_color args) "RGBA" = Ok color ->
  files w !! input args = Some (ImageFile src) ->
  well_sized src ->
  exists m inset new_w new_h,
    margin_of (margin_pct args) = Ok m /\
    inset_of (canvas args) m = Ok inset /\
    fit inset (width src) (height src) = Ok (new_w, new_h) /\
    0 <= inset <= canvas args /\
    1 <= new_w <= Z.max 1 inset /\ 1 <= new_h <= Z.max 1 inset /\
    prepare args w =
    (Ok (Image "RGBA" (canvas args) (canvas args)
           (repeat color (Z.to_nat (canvas args * canvas args))),
         lanczos (converted src "RGBA") new_w new_h,
         (centre (canvas args) new_w, centre (canvas args) new_h)), w).
Proof.
  intros Hc Hcolor Hsrc [Hw Hh]. pose proof max_side_range as Hmax.
  destruct (inset_range (canvas args) (margin_pct args)) as (m & inset & Hm & Hi & Hir & _);
    [lia|].
  destruct (fit_range inset (width src) (height src)) as (new_w & new_h & Hfit & Hnw & Hnh);
    [lia | lia | lia |].
  exists m, inset, new_w, new_h. repeat (split; [assumption || lia|]).
  unfold prepare.
  rewrite bind_run. unfold lift at 1. rewrite Hm.
  rewrite bind_run. unfold lift at 1. rewrite Hi.
  rewrite bind_run. unfold lift at 1. rewrite Hcolor.
  rewrite bind_run. unfold lift at 1. rewrite Image_new_ok by lia.
  rewrite bind_run. unfold Image_open. rewrite Hsrc.
  unfold Image_convert. rewrite converted_width, converted_height.
  rewrite bind_run. unfold lift at 1. rewrite Hfit.
  rewrite bind_run. unfold lift at 1. rewrite Image_resize_ok by lia.
  reflexivity.
Qed.

Lemma resized_mode src new_w new_h :
  well_sized src -> 1 <= new_w -> 1 <= new_h ->
  mode (lanczos (converted src "RGBA") new_w new_h) = "RGBA"%string.
Proof.
  intros [Hw Hh] Hnw Hnh.
  apply (lanczos_rgba (converted src "RGBA") new_w new_h); [|lia|lia].
  apply converted_rgba; lia.
Qed.

(** A whole run of [main]: the file written is the canvas, composited. *)
Lemma main_run args w color src :
  1 <= canvas args <= max_side ->
  getcolor (bg_color args) "RGBA" = Ok color ->
  files w !! input args = Some (ImageFile src) ->
  well_sized src ->
  output args ∉ dirs w ->
  exists out,
    main args w =
    (Ok tt, World (<[output args := ImageFile out]> (files w)) (dirs w) (stdout w)) /\
    mode out = "RGBA"%string /\ width out = canvas args /\ height out = canvas args.
Proof.
  intros Hc Hcolor Hsrc Hsized Hout.
  destruct (prepare_run args w color src Hc Hcolor Hsrc Hsized)
    as (m & inset & new_w & new_h & _ & _ & _ & Hi & Hnw & Hnh & Hprep).
  destruct (centre_bounds (canvas args) new_w) as (Hx & _); [lia|].
  destruct (centre_bounds (canvas args) new_h) as (Hy & _); [lia|].
  unfold main. rewrite bind_run, Hprep.
  rewrite bind_run. unfold lift at 1, Image_alpha_composite.
  cbn [mode]. rewrite (resized_mode src new_w new_h Hsized) by lia.
  cbn [String.eqb Ascii.eqb Bool.eqb andb negb].
  destruct (Z.ltb_spec (centre (canvas args) new_w) 0); [lia|].
  destruct (Z.ltb_spec (centre (canvas args) new_h) 0); [lia|].
  cbn [orb]. unfold Image_save. rewrite bool_decide_eq_false_2 by assumption.
  eexists. split; [reflexivity|]. cbn [mode width height]. auto.
Qed.

(** What a returning [prepare] went through. *)
Lemma prepare_inv args w bg im_resized dest w' :
  prepare args w = (Ok (bg, im_resized, dest), w') ->
  exists color src,
    getcolor (bg_color args) "RGBA" = Ok color /\
    Image_new "RGBA" (canvas args, canvas args) color = Ok bg /\
    files w !! input args = Some (ImageFile src).
Proof.
  unfold prepare. intros Hp.
  rewrite bind_run in Hp. unfold lift at 1 in Hp.
  destruct (margin_of (margin_pct args)) as [m|]; [|discriminate Hp].
  rewrite bind_run in Hp. unfold lift at 1 in Hp.
  destruct (inset_of (canvas args) m) as [inset|]; [|discriminate Hp].
  rewrite bind_run in Hp. unfold lift at 1 in Hp.
  destruct (getcolor (bg_color args) "RGBA") as [color|]; [|discriminate Hp].
  rewrite bind_run in Hp. unfold lift at 1 in Hp.
  destruct (Image_new "RGBA" (canvas args, canvas args) color) as [bg0|] eqn:Hnew;
    [|discriminate Hp].
  rewrite bind_run in Hp. unfold Image_open in Hp.
  destruct (files w !! input args) as [[src|]|];
    [| discriminate Hp | destruct (bool_decide _); discriminate Hp].
  rewrite bind_run in Hp. unfold lift at 1 in Hp.
  destruct (fit inset _ _) as [[new_w new_h]|]; [|discriminate Hp].
  rewrite bind_run in Hp. unfold lift at 1 in Hp.
  destruct (Image_resize _ _) as [resized|]; [|discriminate Hp].
  injection Hp as <- _ _ _. exists color, src. auto.
Qed.

Lemma Image_new_inv m w h color im :
  Image_new m (w, h) color = Ok im ->
  0 <= w <= max_side /\ 0 <= h <= max_side.
Proof.
  unfold Image_new.
  destruct (Z.ltb_spec w 0); [discriminate|]. destruct (Z.ltb_spec h 0); [discriminate|].
  destruct (Z.ltb_spec max_side w); [discriminate|].
  destruct (Z.ltb_spec max_side h); [discriminate|]. lia.
Qed.

(** Whenever [prepare] returns, the destination rectangle of the resampled
    image lies inside the canvas. *)
Lemma prepare_inside args w bg im_resized x y w' :
  1 <= canvas args ->
  (forall src, files w !! input args = Some (ImageFile src) -> well_sized src) ->
  prepare args w = (Ok (bg, im_resized, (x, y)), w') ->
  width bg = canvas args /\ height bg = canvas args /\
  0 <= x /\ 0 <= y /\
  x + width im_resized <= canvas args /\ y + height im_resized <= canvas args /\
  0 <= (canvas args - width im_resized - x) - x <= 1 /\
  0 <= (canvas args - height im_resized - y) - y <= 1.
Proof.
  intros Hc Hsized Hp.
  destruct (prepare_inv _ _ _ _ _ _ Hp) as (color & src & Hcolor & Hnew & Hsrc).
  apply Image_new_inv in Hnew as [Hcs _].
  destruct (prepare_run args w color src) as
    (m & inset & new_w & new_h & _ & _ & _ & Hi & Hnw & Hnh & Hrun); auto; [lia|].
  rewrite Hrun in Hp. injection Hp as <- <- <- <- <-.
  cbn [width height]. rewrite lanczos_width, lanczos_height.
  destruct (centre_bounds (canvas args) new_w) as (? & ? & ?); [lia|].
  destruct (centre_bounds (canvas args) new_h) as (? & ? & ?); [lia|].
  repeat split; lia.
Qed.

End WithPillow.

End PadderRun.

(* ===================================================================== *)
(** * The concrete Pillow satisfies what is relied on *)
(* ===================================================================== *)

Module DemoFacts.
Import Py Raster Os PIL Demo RasterFacts PILFacts.

(** [rne] against the reference implementation of binary64 in Stdlib's
    [SpecFloat], on the operations of the padding script. *)
Example rne_div_45_100 :
  of_spec (SFdiv 53 1024 (b64 45 0) (b64 100 0)) = rne (45 / 100).
Proof. vm_compute. reflexivity. Qed.

Example rne_mul_2_margin :
  of_spec (SFmul 53 1024 (b64 2 0) (b64 8106479329266893 (-54)))
  = rne (2 * (8106479329266893 # 18014398509481984)).
Proof. vm_compute. reflexivity. Qed.

Example rne_sub_1_09 :
  of_spec (SFsub 53 1024 (b64 1 0) (b64 8106479329266893 (-53)))
  = rne (1 - (8106479329266893 # 9007199254740992)).
Proof. vm_compute. reflexivity. Qed.

Example rne_mul_canvas :
  of_spec (SFmul 53 1024 (b64 15 0) (b64 900719925474099 (-53)))
  = rne (15 * (900719925474099 # 9007199254740992)).
Proof. vm_compute. reflexivity. Qed.

Example rne_div_768_500 :
  of_spec (SFdiv 53 1024 (b64 768 0) (b64 500 0)) = rne (768 / 500).
Proof. vm_compute. reflexivity. Qed.

Example rne_mul_300_scale :
  of_spec (SFmul 53 1024 (b64 300 0) (b64 3458764513820541 (-51)))
  = rne (300 * (3458764513820541 # 2251799813685248)).
Proof. vm_compute. reflexivity. Qed.

Example rne_subnormal :
  of_spec (SFdiv 53 1024 (b64 1 (-1070)) (b64 3 0)) = rne (2 ^ (-1070) / 3).
Proof. vm_compute. reflexivity. Qed.

Example rne_overflow :
  of_spec (SFmul 53 1024 (b64 1 1023) (b64 2 0)) = rne (2 ^ 1023 * 2).
Proof. vm_compute. reflexivity. Qed.

Example rne_int_tie_down :
  of_spec (b64 (2 ^ 53 + 1) 0) = rne (inject_Z (2 ^ 53 + 1))
  /\ rne (inject_Z (2 ^ 53 + 1)) = FFin (inject_Z (2 ^ 53)).
Proof. vm_compute. split; reflexivity. Qed.

Example rne_int_tie_up :
  of_spec (b64 (2 ^ 53 + 3) 0) = rne (inject_Z (2 ^ 53 + 3))
  /\ rne (inject_Z (2 ^ 53 + 3)) = FFin (inject_Z (2 ^ 53 + 4)).
Proof. vm_compute. split; reflexivity. Qed.

Example rne_negative :
  of_spec (SFdiv 53 1024 (b64 (-10) 0) (b64 100 0)) = rne (-10 / 100).
Proof. vm_compute. reflexivity. Qed.

Example round_half_even_ties :
  map round_half_even [1 # 2; 3 # 2; 5 # 2; -1 # 2; -3 # 2; 4608 # 10]%Q
  = [0; 2; 2; 0; -2; 461].
Proof. reflexivity. Qed.

Lemma clamp_byte_range v : byte_range (clamp_byte v).
Proof. unfold byte_range, clamp_byte. lia. Qed.

Lemma to_rgba_ok p : length (to_rgba p) = 4%nat /\ Forall byte_range (to_rgba p).
Proof.
  assert (byte_range 0 /\ byte_range 255) as [? ?] by (unfold byte_range; lia).
  destruct p as [|l [|a [|b [|c [|]]]]]; cbn [to_rgba]; (split; [reflexivity|]);
    repeat (apply Forall_cons; split); auto using clamp_byte_range, Forall_nil.
Qed.

#[export] Instance pillow_spec : PillowSpec.
Proof.
  split.
  - cbn. lia.
  - reflexivity.
  - reflexivity.
  - intros im w h (Hm & _) Hw Hh. unfold rgba. cbn [lanczos pillow].
    unfold nearest. cbn [mode width height data]. rewrite Hm, String.eqb_refl.
    split; [reflexivity|]. split; [lia|]. split; [lia|].
    split; [apply build_length|]. apply build_Forall. intros x y. apply to_rgba_ok.
  - intros im m. cbn [converted pillow]. unfold convert_bands.
    destruct (String.eqb m "RGBA"); reflexivity.
  - intros im m. cbn [converted pillow]. unfold convert_bands.
    destruct (String.eqb m "RGBA"); reflexivity.
  - intros im m. cbn [converted pillow]. unfold convert_bands.
    destruct (String.eqb m "RGBA"); reflexivity.
  - intros im Hw Hh. cbn [converted pillow]. unfold convert_bands, rgba.
    rewrite String.eqb_refl. cbn [mode width height data]. split; [reflexivity|]. split; [lia|]. split; [lia|].
    split; [apply build_length|]. apply build_Forall. intros x y. apply to_rgba_ok.
Qed.

Lemma logo_on_disk : files disk !! "logo.png"%string = Some (ImageFile logo).
Proof. vm_compute. reflexivity. Qed.

Lemma logo_well_sized : well_sized logo.
Proof. unfold well_sized. cbn. lia. Qed.

Lemma logo_rgba : rgba logo.
Proof.
  unfold rgba, byte_range. cbn. repeat split; try lia; try reflexivity.
  repeat constructor; lia.
Qed.

Lemma disk_writable : IconGenerator.writable disk "AppIcons".
Proof.
  unfold IconGenerator.writable. split; [discriminate|].
  split; [vm_compute; reflexivity|]. split.
  - repeat constructor; vm_compute; reflexivity.
  - apply Forall_forall. intros t _. cbn [dirs disk]. apply not_elem_of_empty.
Qed.

End DemoFacts.

(* ===================================================================== *)
(** * Properties of scripts/fix_icon_padding.py *)
(* ===================================================================== *)

Module PadderClaims.
Import Py Raster Os PIL Padder PyFacts RasterFacts PILFacts PadderFacts PadderRun.

(** C1.  For a canvas side between 1 and the largest side Pillow holds, a
    background colour that parses, a source image of at least 1x1 pixels
    on disk and an output path that is not a directory, [main] returns
    for every [margin_pct] (inside [0, 45] or not), and the image it has
    written is exactly [canvas_size] by [canvas_size]. *)
Theorem output_is_canvas_square `{PillowSpec} args w color src :
  1 <= canvas args <= max_side ->
  getcolor (bg_color args) "RGBA" = Ok color ->
  files w !! input args = Some (ImageFile src) ->
  well_sized src ->
  output args ∉ dirs w ->
  exists out,
    main args w =
    (Ok tt, World (<[output args := ImageFile out]> (files w)) (dirs w) (stdout w)) /\
    width out = canvas args /\ height out = canvas args.
Proof.
  intros Hc Hcolor Hsrc Hsized Hout.
  destruct (main_run args w color src Hc Hcolor Hsrc Hsized Hout)
    as (out & Hrun & _ & Hw & Hh).
  exists out. auto.
Qed.

(** C3, as the code has it.  For a canvas side from 1 to 2^31 - 1, any
    [margin_pct] and a source of at least 1x1 pixels, the resampled size
    is at most [max(1, inset)] on either axis, hence at most [inset]
    whenever the inset is not zero, as it is for every canvas of 6 pixels
    or more; and the offsets [(canvas_size - new) // 2] leave margins
    that differ by at most one pixel. *)
Theorem fit_inside_inset_and_centred canvas_size margin_pct w h :
  1 <= canvas_size < 2 ^ 31 -> 1 <= w < 2 ^ 31 -> 1 <= h < 2 ^ 31 ->
  exists m inset new_w new_h,
    margin_of margin_pct = Ok m /\
    inset_of canvas_size m = Ok inset /\
    fit inset w h = Ok (new_w, new_h) /\
    new_w <= Z.max 1 inset /\ new_h <= Z.max 1 inset /\
    (1 <= inset -> new_w <= inset /\ new_h <= inset) /\
    (6 <= canvas_size -> 1 <= inset) /\
    let x := centre canvas_size new_w in
    let y := centre canvas_size new_h in
    0 <= (canvas_size - new_w - x) - x <= 1 /\
    0 <= (canvas_size - new_h - y) - y <= 1.
Proof.
  intros Hc Hw Hh.
  destruct (inset_range canvas_size margin_pct Hc) as (m & inset & Hm & Hi & Hir & Hlow).
  destruct (fit_range inset w h) as (new_w & new_h & Hfit & Hnw & Hnh); [lia | lia | lia |].
  exists m, inset, new_w, new_h.
  pose proof (Z.div_mod (canvas_size - new_w) 2 ltac:(lia)).
  pose proof (Z.mod_pos_bound (canvas_size - new_w) 2 ltac:(lia)).
  pose proof (Z.div_mod (canvas_size - new_h) 2 ltac:(lia)).
  pose proof (Z.mod_pos_bound (canvas_size - new_h) 2 ltac:(lia)).
  unfold centre. cbv zeta. repeat split; try assumption; lia.
Qed.

Lemma fit_inside_inset_and_centred_witness :
  exists m inset new_w new_h,
    margin_of (FFin (25 # 2)) = Ok m /\
    inset_of 1024 m = Ok inset /\
    fit inset 500 300 = Ok (new_w, new_h) /\
    new_w <= Z.max 1 inset /\ new_h <= Z.max 1 inset /\
    (1 <= inset -> new_w <= inset /\ new_h <= inset) /\
    (6 <= 1024 -> 1 <= inset) /\
    let x := centre 1024 new_w in
    let y := centre 1024 new_h in
    0 <= (1024 - new_w - x) - x <= 1 /\
    0 <= (1024 - new_h - y) - y <= 1.
Proof.
  apply (fit_inside_inset_and_centred 1024 (FFin (25 # 2)) 500 300); lia.
Defined.

(** C3 as stated fails: on a 1-pixel canvas with a 45% margin the inset is
    0, and the one-pixel floor makes the resampled image 1x1, wider than
    the inset. *)
Lemma fit_exceeds_zero_inset :
  exists m new_w new_h,
    margin_of (FFin 45) = Ok m /\ inset_of 1 m = Ok 0 /\
    fit 0 1 1 = Ok (new_w, new_h) /\ 0 < new_w /\ 0 < new_h.
Proof.
  exists (FFin (8106479329266893 # 18014398509481984)), 1, 1.
  vm_compute. repeat split; reflexivity.
Qed.

(** C4, as the code has it.  For a 500x300 source, a canvas of 1024 and a
    margin of 12.5: the margin is 0.125, the inset 768, the scale the
    float nearest to 768/500, the resampled image 768x461 (300 * 1.536 =
    460.8 is rounded, not truncated), pasted at x = 128, y = 281. *)
Theorem scenario_500x300 :
  margin_of (FFin (25 # 2)) = Ok (FFin (1 # 8)) /\
  inset_of 1024 (FFin (1 # 8)) = Ok 768 /\
  scale_of 768 500 300 = Ok (rne (768 / 500)) /\
  fit 768 500 300 = Ok (768, 461) /\
  centre 1024 768 = 128 /\ centre 1024 461 = 281.
Proof. vm_compute. repeat split; reflexivity. Qed.

(** C4 as stated fails: the resampled image is not 768x460 and is not
    pasted at y = 282. *)
Lemma scenario_500x300_is_not_460 :
  exists new_w new_h,
    fit 768 500 300 = Ok (new_w, new_h) /\
    (new_w, new_h) <> (768, 460) /\ centre 1024 new_h <> 282.
Proof.
  exists 768, 461. split; [vm_compute; reflexivity|].
  split; [intros E; discriminate E | vm_compute; discriminate].
Qed.

(** C7.  For every source image, canvas size and other arguments, a run
    with [margin_pct = 100] is the run with [margin_pct = 45], and a run
    with [margin_pct = -10] is the run with [margin_pct = 0]: same result
    and same files written. *)
Theorem margin_clamp_equivalence `{Pillow} inp out canvas_size bg w :
  main {| input := inp; output := out; canvas := canvas_size;
          margin_pct := FFin 100; bg_color := bg |} w
  = main {| input := inp; output := out; canvas := canvas_size;
            margin_pct := FFin 45; bg_color := bg |} w
  /\
  main {| input := inp; output := out; canvas := canvas_size;
          margin_pct := FFin (-10); bg_color := bg |} w
  = main {| input := inp; output := out; canvas := canvas_size;
            margin_pct := FFin 0; bg_color := bg |} w.
Proof.
  assert (E1 : margin_of (FFin 100) = margin_of (FFin 45)) by (vm_compute; reflexivity).
  assert (E2 : margin_of (FFin (-10)) = margin_of (FFin 0)) by (vm_compute; reflexivity).
  unfold main, prepare. cbn [input output canvas margin_pct bg_color].
  rewrite E1, E2. split; reflexivity.
Qed.

(** C8, as the code has it.  For a canvas side from 1 to 2^31 - 1 and any
    [margin_pct], the inset is at least a tenth of the canvas side less
    half a pixel, [10 * inset >= canvas_size - 5], and it is not zero
    when the canvas has 6 pixels or more. *)
Theorem inset_at_least_tenth_less_half canvas_size margin_pct :
  1 <= canvas_size < 2 ^ 31 ->
  exists m inset,
    margin_of margin_pct = Ok m /\ inset_of canvas_size m = Ok inset /\
    0 <= inset <= canvas_size /\
    canvas_size - 5 <= 10 * inset /\
    (6 <= canvas_size -> 1 <= inset).
Proof.
  intros Hc.
  destruct (inset_range canvas_size margin_pct Hc) as (m & inset & Hm & Hi & Hir & Hlow).
  exists m, inset. repeat split; try assumption; lia.
Qed.

Lemma inset_at_least_tenth_less_half_witness :
  exists m inset,
    margin_of (FFin 45) = Ok m /\ inset_of 1024 m = Ok inset /\
    0 <= inset <= 1024 /\ 1024 - 5 <= 10 * inset /\ (6 <= 1024 -> 1 <= inset).
Proof.
  apply (inset_at_least_tenth_less_half 1024 (FFin 45)). lia.
Defined.

(** C8 as stated fails: with a 45% margin the inset of a 1-pixel canvas is
    0, and the inset of a 1024-pixel canvas is 102, less than 102.4. *)
Lemma inset_zero_and_below_tenth :
  exists m,
    margin_of (FFin 45) = Ok m /\
    inset_of 1 m = Ok 0 /\
    inset_of 1024 m = Ok 102 /\ 10 * 102 < 1024.
Proof.
  exists (FFin (8106479329266893 # 18014398509481984)).
  vm_compute. repeat split; reflexivity.
Qed.

(** C10.  For a canvas side of at least 1, any [margin_pct] and a source
    of at least 1x1 pixels: whenever [main] gets as far as the compositing
    step, the destination rectangle lies inside the canvas, [x >= 0],
    [y >= 0], [x + new_w <= canvas_size], [y + new_h <= canvas_size]; and
    when the canvas can be allocated and the colour parses it does get
    there, and the compositing step accepts the destination. *)
Theorem paste_inside_canvas `{PillowSpec} args w :
  1 <= canvas args ->
  (forall src, files w !! input args = Some (ImageFile src) -> well_sized src) ->
  (forall bg im_resized x y w',
     prepare args w = (Ok (bg, im_resized, (x, y)), w') ->
     width bg = canvas args /\ height bg = canvas args /\
     0 <= x /\ 0 <= y /\
     x + width im_resized <= canvas args /\ y + height im_resized <= canvas args) /\
  (forall color src,
     canvas args <= max_side ->
     getcolor (bg_color args) "RGBA" = Ok color ->
     files w !! input args = Some (ImageFile src) ->
     exists bg im_resized dest composited,
       prepare args w = (Ok (bg, im_resized, dest), w) /\
       Image_alpha_composite bg im_resized dest = Ok composited).
Proof.
  intros Hc Hsized. split.
  - intros bg im_resized x y w' Hp.
    destruct (prepare_inside args w bg im_resized x y w' Hc Hsized Hp)
      as (? & ? & ? & ? & ? & ? & _). repeat split; assumption.
  - intros color src Hmax Hcolor Hsrc.
    destruct (prepare_run args w color src) as
      (m & inset & new_w & new_h & _ & _ & _ & Hi & Hnw & Hnh & Hrun); auto.
    destruct (centre_bounds (canvas args) new_w) as (Hx & _); [lia|].
    destruct (centre_bounds (canvas args) new_h) as (Hy & _); [lia|].
    do 3 eexists. rewrite Hrun. eexists. split; [reflexivity|].
    unfold Image_alpha_composite. cbn [mode].
    rewrite (resized_mode src new_w new_h (Hsized src Hsrc)) by lia.
    cbn [String.eqb Ascii.eqb Bool.eqb andb negb].
    destruct (Z.ltb_spec (centre (canvas args) new_w) 0); [lia|].
    destruct (Z.ltb_spec (centre (canvas args) new_h) 0); [lia|].
    reflexivity.
Qed.

(** Runs on the concrete Pillow of [Demo]. *)
#[local] Existing Instance Demo.pillow.
#[local] Existing Instance DemoFacts.pillow_spec.

Lemma output_is_canvas_square_witness :
  exists out,
    main Demo.padder_args Demo.disk =
    (Ok tt,
     World (<["logo_padded.png"%string := ImageFile out]> (files Demo.disk))
           (dirs Demo.disk) (stdout Demo.disk)) /\
    width out = 8 /\ height out = 8.
Proof.
  apply (output_is_canvas_square Demo.padder_args Demo.disk [11; 15; 26; 255] Demo.logo).
  - cbn. lia.
  - reflexivity.
  - vm_compute. reflexivity.
  - unfold well_sized. cbn. lia.
  - cbn. apply not_elem_of_empty.
Defined.

Lemma paste_inside_canvas_witness :
  (forall bg im_resized x y w',
     prepare Demo.padder_args Demo.disk = (Ok (bg, im_resized, (x, y)), w') ->
     width bg = 8 /\ height bg = 8 /\
     0 <= x /\ 0 <= y /\ x + width im_resized <= 8 /\ y + height im_resized <= 8) /\
  (forall color src,
     8 <= max_side ->
     getcolor "#0B0F1A" "RGBA" = Ok color ->
     files Demo.disk !! "logo.png"%string = Some (ImageFile src) ->
     exists bg im_resized dest composited,
       prepare Demo.padder_args Demo.disk = (Ok (bg, im_resized, dest), Demo.disk) /\
       Image_alpha_composite bg im_resized dest = Ok composited).
Proof.
  apply (paste_inside_canvas Demo.padder_args Demo.disk).
  - cbn. lia.
  - intros src Hsrc.
    assert (E : Some (ImageFile src) = Some (ImageFile Demo.logo))
      by (rewrite <- Hsrc; vm_compute; reflexivity).
    injection E as ->. unfold well_sized. cbn. lia.
Defined.

End PadderClaims.

(* ===================================================================== *)
(** * Properties of scripts/generate_app_icons.py *)
(* ===================================================================== *)

Module IconGeneratorClaims.
Import Py Raster Os PIL IconGenerator RasterFacts PILFacts IconGeneratorFacts.

Section WithPillow.
Context `{PillowSpec}.

Lemma targets_elem output_dir category sizes filename size :
  (category, sizes) ∈ IOS_ICON_SIZES -> (filename, size) ∈ sizes ->
  (os_path_join (os_path_join output_dir category) filename, (category, size))
  ∈ targets output_dir.
Proof.
  intros Hc Hf. unfold targets, targets_in.
  apply list_elem_of_In, in_flat_map. exists (category, sizes).
  split; [now apply list_elem_of_In|].
  apply in_map_iff. exists (filename, size). split; [reflexivity|].
  now apply list_elem_of_In.
Qed.

Lemma outputs_keys img output_dir : (outputs img output_dir).*1 = (targets output_dir).*1.
Proof. unfold outputs. rewrite <- list_fmap_compose. reflexivity. Qed.

(** The files a run leaves: at the path of every table entry the icon of
    that entry, and everywhere else what was there before. *)
Lemma run_files source_path output_dir src w :
  files w !! source_path = Some (ImageFile src) ->
  writable w output_dir ->
  exists w',
    generate_icons source_path output_dir w = (Ok output_dir, w') /\
    (forall category sizes filename size,
       (category, sizes) ∈ IOS_ICON_SIZES -> (filename, size) ∈ sizes ->
       files w' !! os_path_join (os_path_join output_dir category) filename
       = Some (ImageFile (icon_of (as_rgba src) category size))) /\
    (forall path : string,
       path ∉ (targets output_dir).*1 -> files w' !! path = files w !! path).
Proof.
  intros Hsrc Hw.
  destruct (generate_icons_run source_path output_dir src w Hsrc Hw)
    as (w' & Hrun & Hfiles & _ & _).
  exists w'. split; [assumption|]. rewrite Hfiles. split.
  - intros category sizes filename size Hc Hf.
    apply save_all_lookup.
    + rewrite outputs_keys. apply targets_NoDup.
    + unfold outputs.
      apply (list_elem_of_fmap_2
               (fun t : string * (string * Z) =>
                  (fst t, icon_of (as_rgba src) (fst (snd t)) (snd (snd t))))
               _ _ (targets_elem output_dir category sizes filename size Hc Hf)).
  - intros path Hp. apply save_all_lookup_other. now rewrite outputs_keys.
Qed.


Lemma icon_of_appstore img size :
  icon_of img "appstore" size = flattened size (lanczos img size size).
Proof. reflexivity. Qed.

Lemma icon_of_other img category size :
  category <> "appstore"%string -> icon_of img category size = lanczos img size size.
Proof.
  intros Hc. unfold icon_of. apply String.eqb_neq in Hc. now rewrite Hc.
Qed.

(** C2.  With the source image on disk and a writable output tree, a run
    returns and has written the files of the size table and no other: at
    [output_dir/category/filename], for every [filename: size] of every
    category, an image of exactly [size] by [size] pixels.  These are 21
    different paths, 11 of "iphone", 9 of "ipad" and 1 of "appstore". *)
Theorem writes_exactly_the_table source_path output_dir src w :
  files w !! source_path = Some (ImageFile src) ->
  writable w output_dir ->
  exists w',
    generate_icons source_path output_dir w = (Ok output_dir, w') /\
    length (targets output_dir) = 21%nat /\
    NoDup (targets output_dir).*1 /\
    (table_len "iphone" = 11 /\ table_len "ipad" = 9 /\ table_len "appstore" = 1) /\
    (forall category sizes filename size,
       (category, sizes) ∈ IOS_ICON_SIZES -> (filename, size) ∈ sizes ->
       exists im,
         files w' !! os_path_join (os_path_join output_dir category) filename
         = Some (ImageFile im) /\
         width im = size /\ height im = size) /\
    (forall path : string,
       path ∉ (targets output_dir).*1 -> files w' !! path = files w !! path).
Proof.
  intros Hsrc Hw.
  destruct (run_files source_path output_dir src w Hsrc Hw) as (w' & Hrun & Hin & Hout).
  exists w'. split; [assumption|]. split; [reflexivity|].
  split; [apply targets_NoDup|]. split; [repeat split; reflexivity|].
  split; [|assumption].
  intros category sizes filename size Hc Hf. eexists.
  split; [exact (Hin category sizes filename size Hc Hf)|].
  split; [apply icon_of_width | apply icon_of_height].
Qed.


(** C9, as the code has it.  After a run, the file of every table entry
    comes from one resampling of the source image as the loop holds it
    (the decoded image itself when it is "RGBA", its conversion to "RGBA"
    otherwise) to [size] by [size]: it is that resampled raster for
    "iphone" and "ipad", and its flattening onto white for "appstore".
    No icon is resampled from another icon. *)
Theorem icons_resampled_from_source source_path output_dir src w :
  files w !! source_path = Some (ImageFile src) ->
  writable w output_dir ->
  exists w',
    generate_icons source_path output_dir w = (Ok output_dir, w') /\
    (mode src = "RGBA"%string -> as_rgba src = src) /\
    (forall category sizes filename size,
       (category, sizes) ∈ IOS_ICON_SIZES -> (filename, size) ∈ sizes ->
       exists im,
         files w' !! os_path_join (os_path_join output_dir category) filename
         = Some (ImageFile im) /\
         (category <> "appstore"%string -> im = lanczos (as_rgba src) size size) /\
         (category = "appstore"%string ->
          im = flattened size (lanczos (as_rgba src) size size))).
Proof.
  intros Hsrc Hw.
  destruct (run_files source_path output_dir src w Hsrc Hw) as (w' & Hrun & Hin & _).
  exists w'. split; [assumption|]. split.
  - intros Hm. unfold as_rgba. now rewrite Hm.
  - intros category sizes filename size Hc Hf.
    exists (icon_of (as_rgba src) category size).
    split; [exact (Hin category sizes filename size Hc Hf)|]. split.
    + apply icon_of_other.
    + intros ->. apply icon_of_appstore.
Qed.

End WithPillow.

(** C6.  When the source path names neither a file nor a directory, a run
    prints the diagnostic and exits with status 1, from [generate_icons]
    and from the script alike, and the files and directories are those
    from before the run: no directory and no file has been created. *)
Theorem missing_source_fails_before_output `{Pillow} source_path output_dir w :
  files w !! source_path = None -> source_path ∉ dirs w ->
  exists w',
    generate_icons source_path output_dir w = (Raise (SystemExit 1), w') /\
    exit_status (fst (generate_icons source_path output_dir w)) = 1 /\
    files w' = files w /\ dirs w' = dirs w /\
    stdout w' = stdout w ++ ["Error: Source image '" +:+ source_path +:+ "' not found!"] /\
    forall prog rest,
      script (prog :: source_path :: rest) w = (Raise (SystemExit 1), w').
Proof.
  intros Hf Hd. eexists.
  split; [apply (generate_icons_missing source_path output_dir w Hf Hd)|].
  split; [rewrite (generate_icons_missing source_path output_dir w Hf Hd); reflexivity|].
  split; [reflexivity|]. split; [reflexivity|]. split; [reflexivity|].
  intros prog rest. unfold script. cbn [length Nat.ltb Nat.leb nth].
  rewrite bind_run, generate_icons_missing by assumption. reflexivity.
Qed.

(** Runs on the concrete Pillow of [Demo]. *)
#[local] Existing Instance Demo.pillow.
#[local] Existing Instance DemoFacts.pillow_spec.

Lemma writes_exactly_the_table_witness :
  exists w',
    generate_icons "logo.png" "AppIcons" Demo.disk = (Ok "AppIcons"%string, w') /\
    length (targets "AppIcons") = 21%nat /\
    NoDup (targets "AppIcons").*1 /\
    (table_len "iphone" = 11 /\ table_len "ipad" = 9 /\ table_len "appstore" = 1) /\
    (forall category sizes filename size,
       (category, sizes) ∈ IOS_ICON_SIZES -> (filename, size) ∈ sizes ->
       exists im,
         files w' !! os_path_join (os_path_join "AppIcons" category) filename
         = Some (ImageFile im) /\
         width im = size /\ height im = size) /\
    (forall path : string,
       path ∉ (targets "AppIcons").*1 -> files w' !! path = files Demo.disk !! path).
Proof.
  apply (writes_exactly_the_table "logo.png" "AppIcons" Demo.logo Demo.disk).
  - vm_compute. reflexivity.
  - exact DemoFacts.disk_writable.
Defined.


Lemma icons_resampled_from_source_witness :
  exists w',
    generate_icons "logo.png" "AppIcons" Demo.disk = (Ok "AppIcons"%string, w') /\
    files w' !! "AppIcons/ipad/Icon-76@2x.png"%string
    = Some (ImageFile (lanczos Demo.logo 152 152)).
Proof.
  destruct (icons_resampled_from_source "logo.png" "AppIcons" Demo.logo Demo.disk)
    as (w' & Hrun & _ & Hin).
  - vm_compute. reflexivity.
  - exact DemoFacts.disk_writable.
  - exists w'. split; [exact Hrun|].
    destruct (Hin "ipad"%string
                [ ("Icon-20@1x.png", 20); ("Icon-20@2x.png", 40);
                  ("Icon-29@1x.png", 29); ("Icon-29@2x.png", 58);
                  ("Icon-40@1x.png", 40); ("Icon-40@2x.png", 80);
                  ("Icon-76@1x.png", 76); ("Icon-76@2x.png", 152);
                  ("Icon-83.5@2x.png", 167) ]%string
                "Icon-76@2x.png"%string 152) as (im & Him & Hother & _).
    + right. left.
    + do 7 right. left.
    + rewrite (Hother ltac:(discriminate)) in Him. exact Him.
Defined.

(** C9 as stated fails for the "appstore" entry: what is written there is
    not the raster resampled from the source, but its flattening, an
    "RGB" raster. *)
Lemma appstore_icon_is_not_the_resampled_raster :
  exists w' im,
    generate_icons "logo.png" "AppIcons" Demo.disk = (Ok "AppIcons"%string, w') /\
    files w' !! "AppIcons/appstore/AppIcon-1024.png"%string = Some (ImageFile im) /\
    im <> lanczos Demo.logo 1024 1024.
Proof.
  destruct (run_files "logo.png" "AppIcons" Demo.logo Demo.disk) as (w' & Hrun & Hin & _).
  - vm_compute. reflexivity.
  - exact DemoFacts.disk_writable.
  - exists w', (icon_of Demo.logo "appstore" 1024).
    split; [exact Hrun|]. split.
    + apply (Hin "appstore"%string [("AppIcon-1024.png"%string, 1024)]
                 "AppIcon-1024.png"%string 1024); [do 2 right; left | left].
    + intros E. apply (f_equal mode) in E.
      rewrite (proj1 (lanczos_rgba Demo.logo 1024 1024 DemoFacts.logo_rgba
                        ltac:(lia) ltac:(lia))) in E.
      discriminate E.
Qed.

Lemma missing_source_fails_before_output_witness :
  exists w',
    generate_icons "nope.png" "AppIcons" Demo.disk = (Raise (SystemExit 1), w') /\
    exit_status (fst (generate_icons "nope.png" "AppIcons" Demo.disk)) = 1 /\
    files w' = files Demo.disk /\ dirs w' = dirs Demo.disk /\
    stdout w' = stdout Demo.disk ++ ["Error: Source image 'nope.png' not found!"%string] /\
    forall prog rest,
      script (prog :: "nope.png"%string :: rest) Demo.disk = (Raise (SystemExit 1), w').
Proof.
  apply (missing_source_fails_before_output "nope.png" "AppIcons" Demo.disk).
  - vm_compute. reflexivity.
  - cbn. apply not_elem_of_empty.
Defined.

End IconGeneratorClaims.

(* ===================================================================== *)
(** * More on the geometry of the padder *)
(* ===================================================================== *)

Module PadderGeometry.
Import Py Raster Os PIL Padder PyFacts PadderFacts.

(** The clamp on every float. *)
Lemma clamp_cases margin_pct :
  match margin_pct with
  | FNan => clamp margin_pct = FFin 45
  | FInf neg => clamp margin_pct = if neg then FFin 0 else FFin 45
  | FFin q =>
      ((q <= 0)%Q -> clamp margin_pct = FFin 0) /\
      ((45 <= q)%Q -> clamp margin_pct = FFin 45) /\
      ((0 < q < 45)%Q -> clamp margin_pct = FFin q)
  end.
Proof.
  destruct margin_pct as [|[|]|q]; try reflexivity.
  unfold clamp, pymin, pymax. cbn [flt].
  split; [|split].
  - intros Hq. destruct (Qlt_bool q 45) eqn:E1; cbn [flt].
    + destruct (Qlt_bool 0 q) eqn:E2; [|reflexivity].
      apply Qlt_bool_true in E2. lra.
    + apply Qlt_bool_false in E1. lra.
  - intros Hq. destruct (Qlt_bool q 45) eqn:E1; cbn [flt]; [|reflexivity].
    apply Qlt_bool_true in E1. lra.
  - intros [H0 H45]. destruct (Qlt_bool q 45) eqn:E1; cbn [flt].
    + destruct (Qlt_bool 0 q) eqn:E2; [reflexivity|].
      apply Qlt_bool_false in E2. lra.
    + apply Qlt_bool_false in E1. lra.
Qed.

Lemma int_truediv_two_sided a b :
  0 <= a < 2 ^ 31 -> 1 <= b < 2 ^ 31 ->
  exists s, int_truediv a b = Ok (FFin s) /\
    (0 <= s /\
     inject_Z a / inject_Z b * (1 - eps) - eta <= s
     <= inject_Z a / inject_Z b * (1 + eps) + eta)%Q.
Proof.
  intros Ha Hb. unfold int_truediv.
  destruct (Z.eqb_spec b 0) as [->|_]; [lia|].
  assert (Ha' : 0 <= a <= 2 ^ 31) by lia. assert (Hb' : 1 <= b <= 2 ^ 31) by lia.
  apply (inject_Z_bounds a 0 (2 ^ 31)) in Ha'. apply (inject_Z_bounds b 1 (2 ^ 31)) in Hb'.
  change (inject_Z 0) with 0%Q in Ha'. change (inject_Z 1) with 1%Q in Hb'.
  change (inject_Z (2 ^ 31)) with 2147483648%Q in Ha', Hb'.
  set (A := inject_Z a) in *. set (B := inject_Z b) in *.
  assert (Hq0 : (0 <= A / B)%Q) by (apply Qle_shift_div_l; lra).
  assert (Hq1 : (A / B <= A)%Q) by (apply Qle_shift_div_r; [lra | nra]).
  destruct (rne_near (A / B)) as (s & Hs & Hs0 & Hs1 & Hs2);
    [assumption | assert (2147483648 <= 2 ^ 1000)%Q by (vm_compute; discriminate); lra |].
  exists s. rewrite Hs. split; [reflexivity|]. split; [assumption | lra].
Qed.

(** A side scaled by the rounded quotient [inset / side], give or take its
    rounding error, comes out exactly [inset] pixels long. *)
Lemma scaled_fills side inset sc :
  1 <= side < 2 ^ 31 -> 1 <= inset < 2 ^ 31 ->
  (inject_Z inset / inject_Z side * (1 - eps) - eta <= sc
   <= inject_Z inset / inject_Z side * (1 + eps) + eta)%Q ->
  scaled side (FFin sc) = Ok inset.
Proof.
  intros Hs Hi [Hlo Hhi].
  unfold scaled, imulf.
  destruct (float_of_int_near side) as (wf & Hwf & Hwf0 & Hwf1 & Hwf2); [lia|].
  rewrite Hwf. cbn.
  assert (Hs' : 1 <= side <= 2 ^ 31) by lia. assert (Hi' : 1 <= inset <= 2 ^ 31) by lia.
  apply (inject_Z_bounds side 1 (2 ^ 31)) in Hs'.
  apply (inject_Z_bounds inset 1 (2 ^ 31)) in Hi'.
  change (inject_Z 1) with 1%Q in Hi', Hs'.
  change (inject_Z (2 ^ 31)) with 2147483648%Q in Hi', Hs'.
  set (S := inject_Z side) in *. set (I := inject_Z inset) in *.
  assert (HV0 : ((1 # 2147483648) <= I / S)%Q) by (apply Qle_shift_div_l; lra).
  assert (HV1 : (I / S <= I)%Q) by (apply Qle_shift_div_r; [lra | nra]).
  assert (HSV : (S * (I / S) == I)%Q) by (field; lra).
  set (V := (I / S)%Q) in *.
  assert (Hsc0 : (0 <= sc)%Q) by qlra.
  assert (Hup : (wf * sc <= (S + (S * eps + eta)) * (V * (1 + eps) + eta))%Q)
    by (apply Qmult_le_compat_nonneg; split; assumption).
  assert (Hdn : ((S - (S * eps + eta)) * (V * (1 - eps) - eta) <= wf * sc)%Q)
    by (apply Qmult_le_compat_nonneg; split; try assumption; qlra).
  assert (Eup : ((S + (S * eps + eta)) * (V * (1 + eps) + eta)
                 == (S * V) * ((1 + eps) * (1 + eps)) + eta * (1 + eps) * S
                    + eta * (1 + eps) * V + eta * eta)%Q) by ring.
  assert (Edn : ((S - (S * eps + eta)) * (V * (1 - eps) - eta)
                 == (S * V) * ((1 - eps) * (1 - eps)) - eta * (1 - eps) * S
                    - eta * (1 - eps) * V + eta * eta)%Q) by ring.
  rewrite Eup, HSV in Hup. rewrite Edn, HSV in Hdn. clear Eup Edn.
  assert (Hx0 : (0 <= wf * sc)%Q) by (apply Qmult_le_0_compat; assumption).
  set (X := (wf * sc)%Q) in *.
  destruct (rne_near X) as (p & Hp & Hp0 & Hp1 & Hp2);
    [assumption
    | assert (2147483648 * 2 <= 2 ^ 1000)%Q by (vm_compute; discriminate); qlra |].
  rewrite Hp. cbn.
  assert (round_half_even p <= inset) by (apply round_half_even_le; fold I; qlra).
  assert (inset <= round_half_even p) by (apply round_half_even_ge; fold I; qlra).
  f_equal. lia.
Qed.

(** A side scaled by the rounded quotient [inset / other], for another
    side that is at least as long, comes out within one pixel of the
    exact proportional length [side * inset / other]. *)
Lemma scaled_near side other inset sc :
  1 <= side -> side <= other -> other < 2 ^ 31 -> 1 <= inset < 2 ^ 31 ->
  (inject_Z inset / inject_Z other * (1 - eps) - eta <= sc
   <= inject_Z inset / inject_Z other * (1 + eps) + eta)%Q ->
  exists n, scaled side (FFin sc) = Ok n /\ 1 <= n /\
    (n - 1) * other < side * inset < (n + 1) * other.
Proof.
  intros Hs Hso Ho Hi [Hlo Hhi].
  unfold scaled, imulf.
  destruct (float_of_int_near side) as (wf & Hwf & Hwf0 & Hwf1 & Hwf2); [lia|].
  rewrite Hwf. cbn.
  assert (Hs' : 1 <= side <= 2 ^ 31) by lia. assert (Hi' : 1 <= inset <= 2 ^ 31) by lia.
  assert (Ho' : 1 <= other <= 2 ^ 31) by lia.
  assert (Hso' : (inject_Z side <= inject_Z other)%Q) by (rewrite <- Zle_Qle; lia).
  apply (inject_Z_bounds side 1 (2 ^ 31)) in Hs'.
  apply (inject_Z_bounds inset 1 (2 ^ 31)) in Hi'.
  apply (inject_Z_bounds other 1 (2 ^ 31)) in Ho'.
  change (inject_Z 1) with 1%Q in Hi', Hs', Ho'.
  change (inject_Z (2 ^ 31)) with 2147483648%Q in Hi', Hs', Ho'.
  set (S := inject_Z side) in *. set (I := inject_Z inset) in *.
  set (W := inject_Z other) in *.
  assert (HV0 : (0 <= I / W)%Q) by (apply Qle_shift_div_l; lra).
  assert (HV1 : (I / W <= I)%Q) by (apply Qle_shift_div_r; [lra | nra]).
  assert (HT0 : (0 < S * (I / W))%Q).
  { apply Qmult_lt_0_compat; [lra|]. apply Qlt_shift_div_l; lra. }
  assert (HT1 : (S * (I / W) <= I)%Q).
  { assert (E : (S * (I / W) == I * (S / W))%Q) by (field; lra).
    rewrite E.
    assert (S / W <= 1)%Q by (apply Qle_shift_div_r; lra).
    assert (0 <= S / W)%Q by (apply Qle_shift_div_l; lra).
    nra. }
  assert (HTW : (S * (I / W) * W == S * I)%Q) by (field; lra).
  set (V := (I / W)%Q) in *.
  assert (HVlow : ((1 # 2147483648) <= V)%Q) by (unfold V; apply Qle_shift_div_l; lra).
  assert (Hsc0 : (0 <= sc)%Q) by qlra.
  assert (Hup : (wf * sc <= (S + (S * eps + eta)) * (V * (1 + eps) + eta))%Q)
    by (apply Qmult_le_compat_nonneg; split; assumption).
  assert (Hdn : ((S - (S * eps + eta)) * (V * (1 - eps) - eta) <= wf * sc)%Q)
    by (apply Qmult_le_compat_nonneg; split; try assumption; qlra).
  assert (Eup : ((S + (S * eps + eta)) * (V * (1 + eps) + eta)
                 == (S * V) * ((1 + eps) * (1 + eps)) + eta * (1 + eps) * S
                    + eta * (1 + eps) * V + eta * eta)%Q) by ring.
  assert (Edn : ((S - (S * eps + eta)) * (V * (1 - eps) - eta)
                 == (S * V) * ((1 - eps) * (1 - eps)) - eta * (1 - eps) * S
                    - eta * (1 - eps) * V + eta * eta)%Q) by ring.
  rewrite Eup in Hup. rewrite Edn in Hdn. clear Eup Edn.
  assert (Hx0 : (0 <= wf * sc)%Q) by (apply Qmult_le_0_compat; assumption).
  set (T := (S * V)%Q) in *.
  set (X := (wf * sc)%Q) in *.
  destruct (rne_near X) as (p & Hp & Hp0 & Hp1 & Hp2);
    [assumption
    | assert (2147483648 * 2 <= 2 ^ 1000)%Q by (vm_compute; discriminate); qlra |].
  rewrite Hp. cbn.
  pose proof (round_half_even_near p) as [Hk1 Hk2].
  set (k := round_half_even p) in *.
  exists (Z.max 1 k). split; [reflexivity|]. split; [lia|].
  assert (Hr1 : (inject_Z (Z.max 1 k) - 1 < T)%Q).
  { destruct (Z.max_spec 1 k) as [[_ ->]|[_ ->]]; [qlra|].
    change (inject_Z 1) with 1%Q. qlra. }
  assert (Hr2 : (T < inject_Z (Z.max 1 k) + 1)%Q).
  { destruct (Z.max_spec 1 k) as [[_ ->]|[Hle ->]]; [qlra|].
    assert (Hk : (inject_Z k <= 1)%Q)
      by (change 1%Q with (inject_Z 1); rewrite <- Zle_Qle; lia).
    change (inject_Z 1) with 1%Q.
    assert (inject_Z k - (1 # 2) <= p)%Q by assumption.
    assert (T < 2)%Q; [|lra].
    qlra. }
  set (n := Z.max 1 k) in *.
  split; rewrite Zlt_Qlt, !inject_Z_mult; fold S I W.
  - replace (n - 1) with (n + -1) by lia. rewrite inject_Z_plus.
    change (inject_Z (-1)) with (-1 # 1)%Q.
    rewrite <- HTW. apply Qmult_lt_compat_r; lra.
  - rewrite inject_Z_plus. change (inject_Z 1) with 1%Q.
    rewrite <- HTW. apply Qmult_lt_compat_r; lra.
Qed.

Lemma quotient_antitone (I W Hh : Q) :
  (0 <= I)%Q -> (0 < Hh)%Q -> (Hh <= W)%Q -> (I / W <= I / Hh)%Q.
Proof.
  intros HI HH HW.
  apply Qle_shift_div_l; [assumption|].
  assert (E : (I / W * Hh == I * (Hh / W))%Q) by (field; lra).
  rewrite E.
  assert (Hh / W <= 1)%Q by (apply Qle_shift_div_r; lra).
  assert (0 <= Hh / W)%Q by (apply Qle_shift_div_l; lra).
  nra.
Qed.

(** The longer side of the source fills the inset. *)
Lemma fit_fills_width inset w h :
  1 <= inset < 2 ^ 31 -> 1 <= h -> h <= w -> w < 2 ^ 31 ->
  exists new_h, fit inset w h = Ok (inset, new_h) /\ 1 <= new_h <= inset /\
    (new_h - 1) * w < h * inset < (new_h + 1) * w.
Proof.
  intros Hi Hh Hhw Hw. unfold fit, scale_of.
  destruct (int_truediv_two_sided inset w) as (s1 & Hs1 & Hs10 & Hs1l & Hs1h); [lia|lia|].
  destruct (int_truediv_two_sided inset h) as (s2 & Hs2 & Hs20 & Hs2l & Hs2h); [lia|lia|].
  rewrite Hs1, Hs2. cbn.
  destruct (pymin_fin s1 s2) as (sc & Hsc & [Hsc1 Hsc2] & Hsc0).
  rewrite Hsc.
  assert (Hq : (inject_Z inset / inject_Z w <= inject_Z inset / inject_Z h)%Q).
  { apply quotient_antitone.
    - change 0%Q with (inject_Z 0). rewrite <- Zle_Qle. lia.
    - change 0%Q with (inject_Z 0). rewrite <- Zlt_Qlt. lia.
    - rewrite <- Zle_Qle. lia. }
  assert (Hlow : (inject_Z inset / inject_Z w * (1 - eps) - eta <= sc)%Q).
  { assert (inject_Z inset / inject_Z w * (1 - eps)
            <= inject_Z inset / inject_Z h * (1 - eps))%Q
      by (apply Qmult_le_compat_r; [assumption | unfold eps; discriminate]).
    destruct Hsc0; subst sc; qlra. }
  rewrite (scaled_fills w inset sc) by first [lia | split; [assumption | qlra]].
  cbn.
  destruct (scaled_near h w inset sc) as (nh & Hnh & Hnh1 & Hnhr);
    [lia | lia | lia | lia | split; [assumption | qlra] |].
  rewrite Hnh. cbn. exists nh. split; [reflexivity|]. split; [nia | assumption].
Qed.

Lemma fit_fills_height inset w h :
  1 <= inset < 2 ^ 31 -> 1 <= w -> w <= h -> h < 2 ^ 31 ->
  exists new_w, fit inset w h = Ok (new_w, inset) /\ 1 <= new_w <= inset /\
    (new_w - 1) * h < w * inset < (new_w + 1) * h.
Proof.
  intros Hi Hw Hwh Hh. unfold fit, scale_of.
  destruct (int_truediv_two_sided inset w) as (s1 & Hs1 & Hs10 & Hs1l & Hs1h); [lia|lia|].
  destruct (int_truediv_two_sided inset h) as (s2 & Hs2 & Hs20 & Hs2l & Hs2h); [lia|lia|].
  rewrite Hs1, Hs2. cbn.
  destruct (pymin_fin s1 s2) as (sc & Hsc & [Hsc1 Hsc2] & Hsc0).
  rewrite Hsc.
  assert (Hq : (inject_Z inset / inject_Z h <= inject_Z inset / inject_Z w)%Q).
  { apply quotient_antitone.
    - change 0%Q with (inject_Z 0). rewrite <- Zle_Qle. lia.
    - change 0%Q with (inject_Z 0). rewrite <- Zlt_Qlt. lia.
    - rewrite <- Zle_Qle. lia. }
  assert (Hlow : (inject_Z inset / inject_Z h * (1 - eps) - eta <= sc)%Q).
  { assert (inject_Z inset / inject_Z h * (1 - eps)
            <= inject_Z inset / inject_Z w * (1 - eps))%Q
      by (apply Qmult_le_compat_r; [assumption | unfold eps; discriminate]).
    destruct Hsc0; subst sc; qlra. }
  destruct (scaled_near w h inset sc) as (nw & Hnw & Hnw1 & Hnwr);
    [lia | lia | lia | lia | split; [assumption | qlra] |].
  rewrite Hnw. cbn.
  rewrite (scaled_fills h inset sc) by first [lia | split; [assumption | qlra]].
  cbn. exists nw. split; [reflexivity|]. split; [nia | assumption].
Qed.

(** The resampled size: the longer side of the source takes the whole
    inset, and the other side is within one pixel of the length that
    keeps the proportions. *)
Lemma fit_shape inset w h :
  1 <= inset < 2 ^ 31 -> 1 <= w < 2 ^ 31 -> 1 <= h < 2 ^ 31 ->
  exists new_w new_h, fit inset w h = Ok (new_w, new_h) /\
    1 <= new_w <= inset /\ 1 <= new_h <= inset /\
    (h <= w -> new_w = inset /\ (new_h - 1) * w < h * inset < (new_h + 1) * w) /\
    (w <= h -> new_h = inset /\ (new_w - 1) * h < w * inset < (new_w + 1) * h).
Proof.
  intros Hi Hw Hh.
  destruct (Z.le_gt_cases h w) as [Hle|Hgt].
  - destruct (fit_fills_width inset w h) as (new_h & Hfit & Hr & Hn); [lia..|].
    exists inset, new_h. split; [assumption|]. split; [lia|]. split; [assumption|].
    split; [auto|]. intros Hwh. assert (w = h) by lia. subst h.
    assert (new_h = inset) by nia. subst new_h. split; [reflexivity | nia].
  - destruct (fit_fills_height inset w h) as (new_w & Hfit & Hr & Hn); [lia..|].
    exists new_w, inset. split; [assumption|]. split; [assumption|]. split; [lia|].
    split; [lia | auto].
Qed.

End PadderGeometry.

Module RoundingOrder.
Import Py PyFacts.

Lemma round_half_even_comp q1 q2 : (q1 == q2)%Q -> round_half_even q1 = round_half_even q2.
Proof.
  intros E. unfold round_half_even.
  assert (Ef : Qfloor q1 = Qfloor q2) by (now apply Qfloor_comp).
  rewrite Ef.
  assert (Ec : (q1 - inject_Z (Qfloor q2) ?= 1 # 2)%Q = (q2 - inject_Z (Qfloor q2) ?= 1 # 2)%Q)
    by (apply Qcompare_comp; [rewrite E; reflexivity | reflexivity]).
  now rewrite Ec.
Qed.

(** [round] on floats is monotone. *)
Lemma round_half_even_mono q1 q2 :
  (q1 <= q2)%Q -> round_half_even q1 <= round_half_even q2.
Proof.
  intros Hq.
  destruct (round_half_even_near q1) as [Hlo1 Hhi1].
  destruct (round_half_even_near q2) as [Hlo2 Hhi2].
  assert (Hle : (inject_Z (round_half_even q1) <= inject_Z (round_half_even q2 + 1))%Q)
    by (rewrite inject_Z_plus; change (inject_Z 1) with 1%Q; lra).
  rewrite <- Zle_Qle in Hle.
  destruct (Z.eq_dec (round_half_even q1) (round_half_even q2 + 1)) as [E|E]; [|lia].
  exfalso.
  assert (Heq : (q1 == q2)%Q).
  { rewrite E, inject_Z_plus in Hlo1. change (inject_Z 1) with 1%Q in Hlo1. lra. }
  apply round_half_even_comp in Heq. lia.
Qed.

Lemma Qlog2_mono q1 q2 : (0 < q1)%Q -> (q1 <= q2)%Q -> Qlog2 q1 <= Qlog2 q2.
Proof.
  intros H0 Hq.
  pose proof (Qlog2_le q1 H0) as H1.
  pose proof (Qlog2_lt q2 ltac:(lra)) as H2.
  assert (Hp : (2 ^ Qlog2 q1 < 2 ^ (Qlog2 q2 + 1))%Q) by lra.
  apply Qpower_lt_compat_l_inv in Hp; [lia | reflexivity].
Qed.

Lemma ulp_exp_mono q1 q2 : (0 < q1)%Q -> (q1 <= q2)%Q -> ulp_exp q1 <= ulp_exp q2.
Proof. intros H0 Hq. pose proof (Qlog2_mono q1 q2 H0 Hq). unfold ulp_exp. lia. Qed.

(** Rounding to the nearest float is monotone, across binades as well. *)
Lemma rne_pos_mono q1 q2 : (0 < q1)%Q -> (q1 <= q2)%Q -> (rne_pos q1 <= rne_pos q2)%Q.
Proof.
  intros H0 Hq. assert (H0' : (0 < q2)%Q) by lra.
  pose proof (ulp_exp_mono q1 q2 H0 Hq) as Hex.
  pose proof (pow2_pos (ulp_exp q1)) as Hp1. pose proof (pow2_pos (ulp_exp q2)) as Hp2.
  destruct (Z.eq_dec (ulp_exp q1) (ulp_exp q2)) as [E|E].
  - unfold rne_pos. rewrite E in *.
    apply Qmult_le_compat_r; [|lra].
    rewrite <- Zle_Qle. apply round_half_even_mono.
    apply Qmult_le_compat_r; [assumption|].
    apply Qlt_le_weak, Qinv_lt_0_compat. assumption.
  - assert (Hnormal : ulp_exp q2 = Qlog2 q2 - 52) by (unfold ulp_exp in *; lia).
    destruct (rne_pos_mantissa q1 H0) as (_ & _ & Hm1).
    rewrite Zle_Qle, pow2_inject in Hm1 by lia.
    (* below: at most 2^(ulp_exp q1 + 53) *)
    assert (Hup : (rne_pos q1 <= 2 ^ (ulp_exp q1 + 53))%Q).
    { unfold rne_pos. rewrite pow2_add, (Qmult_comm (2 ^ ulp_exp q1)).
      apply Qmult_le_compat_r; [assumption | lra]. }
    assert (Hmid : (2 ^ (ulp_exp q1 + 53) <= 2 ^ (ulp_exp q2 + 52))%Q)
      by (apply Qpower_le_compat_l; [lia | discriminate]).
    (* above: at least 2^(ulp_exp q2 + 52) *)
    assert (Hlow : (2 ^ (ulp_exp q2 + 52) <= rne_pos q2)%Q).
    { pose proof (Qlog2_le q2 H0') as Hl.
      replace (Qlog2 q2) with (ulp_exp q2 + 52) in Hl by lia.
      rewrite pow2_add in Hl |- *. rewrite (Qmult_comm (2 ^ ulp_exp q2)).
      unfold rne_pos. apply Qmult_le_compat_r; [|lra].
      rewrite <- (pow2_inject 52) by lia. rewrite <- Zle_Qle.
      apply round_half_even_ge. rewrite pow2_inject by lia.
      assert ((2 ^ 52 <= q2 / 2 ^ ulp_exp q2)%Q); [|lra].
      apply Qle_shift_div_l; [assumption|]. rewrite Qmult_comm. exact Hl. }
    lra.
Qed.

Lemma rne_mono q1 q2 r1 r2 :
  (0 <= q1)%Q -> (q1 <= q2)%Q -> rne q1 = FFin r1 -> rne q2 = FFin r2 -> (r1 <= r2)%Q.
Proof.
  intros H0 Hq. unfold rne. destruct q1 as [n1 d1], q2 as [n2 d2]. cbn [Qnum].
  assert (Hn1 : 0 <= n1) by (unfold Qle in H0; simpl in H0; lia).
  assert (Hn2 : 0 <= n2).
  { assert (H2 : (0 <= n2 # d2)%Q) by lra. unfold Qle in H2; simpl in H2; lia. }
  destruct n1 as [|n1|n1]; [| |lia]; (destruct n2 as [|n2|n2]; [| |lia]).
  - intros E1 E2. injection E1 as <-. injection E2 as <-. lra.
  - intros E1. injection E1 as <-.
    destruct (Qle_bool _ _); [discriminate|]. intros E2. injection E2 as <-.
    rewrite Qred_correct. apply rne_pos_near. reflexivity.
  - exfalso. unfold Qle in Hq. simpl in Hq. lia.
  - destruct (Qle_bool _ _); [discriminate|]. intros E1. injection E1 as <-.
    destruct (Qle_bool _ _); [discriminate|]. intros E2. injection E2 as <-.
    rewrite !Qred_correct. apply rne_pos_mono; [reflexivity | assumption].
Qed.

End RoundingOrder.

Module PadderInset.
Import Py Raster Os PIL Padder PyFacts PadderFacts PadderGeometry RoundingOrder.

Lemma inset_of_whole canvas_size :
  1 <= canvas_size < 2 ^ 31 -> inset_of canvas_size (FFin 0) = Ok canvas_size.
Proof.
  intros Hc. unfold inset_of, imulf.
  destruct (float_of_int_near canvas_size) as (cf & Hcf & Hcf0 & Hcf1 & Hcf2); [lia|].
  rewrite Hcf.
  assert (E : fsub (FFin 1) (fmul (FFin 2) (FFin 0)) = FFin 1) by (vm_compute; reflexivity).
  rewrite E. cbn.
  assert (HC : (1 <= inject_Z canvas_size <= 2147483648)%Q).
  { apply (inject_Z_bounds canvas_size 1 (2 ^ 31)). lia. }
  set (C := inject_Z canvas_size) in *.
  destruct (rne_near (cf * 1)) as (p & Hp & Hp0 & Hp1 & Hp2);
    [qlra | assert (2147483648 * 2 <= 2 ^ 1000)%Q by (vm_compute; discriminate); qlra |].
  rewrite Hp. cbn.
  assert (round_half_even p <= canvas_size) by (apply round_half_even_le; fold C; qlra).
  assert (canvas_size <= round_half_even p) by (apply round_half_even_ge; fold C; qlra).
  f_equal. lia.
Qed.

(** The inset is the exact value [canvas_size * (1 - 2 * c / 100)], for the
    clamped percentage [c], rounded to the nearest integer: the four
    roundings of the float computation move it by less than 2e-6. *)
Lemma inset_near canvas_size margin_pct c :
  1 <= canvas_size < 2 ^ 31 -> clamp margin_pct = FFin c ->
  exists m inset,
    margin_of margin_pct = Ok m /\ inset_of canvas_size m = Ok inset /\
    (inject_Z canvas_size * (1 - 2 * (c / 100)) - ((1 # 2) + (1 # 500000))
     <= inject_Z inset
     <= inject_Z canvas_size * (1 - 2 * (c / 100)) + ((1 # 2) + (1 # 500000)))%Q.
Proof.
  intros Hc Hclamp.
  destruct (clamp_range margin_pct) as (c' & Hc' & Hc0 & Hc45).
  rewrite Hclamp in Hc'. injection Hc' as <-.
  unfold margin_of. rewrite Hclamp. cbn.
  assert (Hu0 : (0 <= c / 100)%Q) by (apply Qle_shift_div_l; qlra).
  assert (Hu1 : (c / 100 <= 45 # 100)%Q) by (apply Qle_shift_div_r; qlra).
  set (u := (c / 100)%Q) in *.
  destruct (rne_near u) as (m & Hm & Hm0 & Hm1 & Hm2);
    [assumption | assert (1 <= 2 ^ 1000)%Q by (vm_compute; discriminate); qlra |].
  rewrite Hm. exists (FFin m). unfold inset_of, imulf.
  destruct (float_of_int_near canvas_size) as (cf & Hcf & Hcf0 & Hcf1 & Hcf2); [lia|].
  rewrite Hcf. cbn.
  assert (HC : (1 <= inject_Z canvas_size <= 2147483648)%Q).
  { apply (inject_Z_bounds canvas_size 1 (2 ^ 31)). lia. }
  set (C := inject_Z canvas_size) in *.
  destruct (rne_near (2 * m)) as (d & Hd & Hd0 & Hd1 & Hd2);
    [qlra | assert (2 <= 2 ^ 1000)%Q by (vm_compute; discriminate); qlra |].
  rewrite Hd.
  destruct (rne_near (1 - d)) as (t & Ht & Ht0 & Ht1 & Ht2);
    [qlra | assert (2 <= 2 ^ 1000)%Q by (vm_compute; discriminate); qlra |].
  rewrite Ht.
  set (E0 := (1 - 2 * u)%Q) in *.
  assert (HE0 : ((1 # 10) <= E0 <= 1)%Q) by (unfold E0; qlra).
  assert (Htl : (E0 - (3 # 9007199254740992) <= t)%Q) by (unfold E0; qlra).
  assert (Hth : (t <= E0 + (3 # 9007199254740992))%Q) by (unfold E0; qlra).
  assert (Hup : (cf * t <= (C + (C * eps + eta)) * (E0 + (3 # 9007199254740992)))%Q)
    by (apply Qmult_le_compat_nonneg; split; assumption).
  assert (Hdn : ((C - (C * eps + eta)) * (E0 - (3 # 9007199254740992)) <= cf * t)%Q)
    by (apply Qmult_le_compat_nonneg; split; try assumption; qlra).
  assert (Eup : ((C + (C * eps + eta)) * (E0 + (3 # 9007199254740992))
                 == (C * E0) * (1 + eps) + C * ((1 + eps) * (3 # 9007199254740992))
                    + eta * E0 + eta * (3 # 9007199254740992))%Q) by ring.
  assert (Edn : ((C - (C * eps + eta)) * (E0 - (3 # 9007199254740992))
                 == (C * E0) * (1 - eps) - C * ((1 - eps) * (3 # 9007199254740992))
                    - eta * E0 + eta * (3 # 9007199254740992))%Q) by ring.
  rewrite Eup in Hup. rewrite Edn in Hdn. clear Eup Edn.
  assert (HT0 : (0 <= C * E0)%Q) by (apply Qmult_le_0_compat; lra).
  assert (HT1 : (C * E0 <= C)%Q) by nra.
  assert (Hx0 : (0 <= cf * t)%Q) by (apply Qmult_le_0_compat; assumption).
  set (T := (C * E0)%Q) in *. set (X := (cf * t)%Q) in *.
  destruct (rne_near X) as (p & Hp & Hp0 & Hp3 & Hp4);
    [assumption
    | assert (2147483648 * 2 <= 2 ^ 1000)%Q by (vm_compute; discriminate); qlra |].
  rewrite Hp. cbn.
  exists (round_half_even p). split; [reflexivity|]. split; [reflexivity|].
  destruct (round_half_even_near p) as [Hlo Hhi].
  split; qlra.
Qed.

Lemma margin_of_zero margin_pct :
  clamp margin_pct = FFin 0 -> margin_of margin_pct = Ok (FFin 0).
Proof. intros E. unfold margin_of. rewrite E. reflexivity. Qed.

(** The clamp is monotone on finite floats. *)
Lemma clamp_mono q1 q2 :
  (q1 <= q2)%Q ->
  exists c1 c2, clamp (FFin q1) = FFin c1 /\ clamp (FFin q2) = FFin c2 /\
    (0 <= c1 /\ c1 <= c2 /\ c2 <= 45)%Q.
Proof.
  intros Hq. unfold clamp, pymin, pymax. cbn [flt].
  destruct (Qlt_bool q1 45) eqn:A1; destruct (Qlt_bool q2 45) eqn:A2; cbn [flt];
    repeat match goal with
           | |- context [Qlt_bool 0 ?q] =>
               let B := fresh "B" in destruct (Qlt_bool 0 q) eqn:B
           end;
    repeat match goal with
           | H : Qlt_bool _ _ = true |- _ => apply Qlt_bool_true in H
           | H : Qlt_bool _ _ = false |- _ => apply Qlt_bool_false in H
           end;
    do 2 eexists; (split; [reflexivity|]); (split; [reflexivity|]); lra.
Qed.

(** Two roundings of ordered non-negative rationals are ordered. *)
Lemma rne_pair q1 q2 :
  (0 <= q1)%Q -> (q1 <= q2)%Q -> (q2 <= 2 ^ 1000)%Q ->
  exists r1 r2, rne q1 = FFin r1 /\ rne q2 = FFin r2 /\
    (0 <= r1 /\ r1 <= r2 /\ r2 <= q2 + (q2 * eps + eta))%Q.
Proof.
  intros H0 Hq Hmax.
  destruct (rne_near q1) as (r1 & Hr1 & Hr10 & _); [assumption | lra |].
  destruct (rne_near q2) as (r2 & Hr2 & _ & _ & Hr22); [lra | assumption |].
  exists r1, r2. split; [assumption|]. split; [assumption|].
  split; [assumption|]. split; [|assumption].
  exact (rne_mono q1 q2 r1 r2 H0 Hq Hr1 Hr2).
Qed.

End PadderInset.

(* ===================================================================== *)
(** * More on the runs of the padder *)
(* ===================================================================== *)

Module PadderMore.
Import Py Raster Os PIL Padder Extra.
Import PyFacts RasterFacts PILFacts PadderFacts IconGeneratorFacts PadderRun.
Import PadderGeometry RoundingOrder PadderInset.

Section WithPillow.
Context `{Pillow}.

(** [prepare] reads the world and never changes it. *)
Lemma prepare_pure args w r w' : prepare args w = (r, w') -> w' = w.
Proof.
  unfold prepare. intros Hp.
  rewrite bind_run in Hp. unfold lift at 1 in Hp.
  destruct (margin_of (margin_pct args)) as [m|]; [|now injection Hp].
  rewrite bind_run in Hp. unfold lift at 1 in Hp.
  destruct (inset_of (canvas args) m) as [inset|]; [|now injection Hp].
  rewrite bind_run in Hp. unfold lift at 1 in Hp.
  destruct (getcolor (bg_color args) "RGBA") as [color|]; [|now injection Hp].
  rewrite bind_run in Hp. unfold lift at 1 in Hp.
  destruct (Image_new "RGBA" (canvas args, canvas args) color) as [bg0|];
    [|now injection Hp].
  rewrite bind_run in Hp. unfold Image_open in Hp.
  destruct (files w !! input args) as [[src|]|];
    [| now injection Hp | destruct (bool_decide _); now injection Hp].
  rewrite bind_run in Hp. unfold lift at 1 in Hp.
  destruct (fit inset _ _) as [[new_w new_h]|]; [|now injection Hp].
  rewrite bind_run in Hp. unfold lift at 1 in Hp.
  destruct (Image_resize _ _) as [resized|]; now injection Hp.
Qed.

Lemma Image_new_shape m w h color im :
  Image_new m (w, h) color = Ok im ->
  im = Image m w h (repeat color (Z.to_nat (w * h))).
Proof.
  unfold Image_new.
  destruct ((w <? 0) || (h <? 0)); [discriminate|].
  destruct ((max_side <? w) || (max_side <? h)); [discriminate|].
  now intros [= <-].
Qed.

Lemma alpha_composite_shape self im dest composited :
  Image_alpha_composite self im dest = Ok composited ->
  mode composited = mode self /\ width composited = width self /\
  height composited = height self /\
  0 <= fst dest /\ 0 <= snd dest /\
  data composited =
  build (width self) (height self) (fun x y =>
    if in_box (fst dest) (snd dest) im x y
    then over (getpixel self x y) (getpixel im (x - fst dest) (y - snd dest))
    else getpixel self x y).
Proof.
  unfold Image_alpha_composite. destruct dest as [x0 y0].
  destruct (negb _); [discriminate|].
  destruct (Z.ltb_spec x0 0); [discriminate|].
  destruct (Z.ltb_spec y0 0); [discriminate|].
  cbn [orb fst snd]. intros [= <-]. cbn [mode width height data]. repeat split; lia.
Qed.

(** What a returning [main] went through, and what it wrote. *)
Lemma main_inv args w w' :
  main args w = (Ok tt, w') ->
  exists color src bg im_resized dest composited,
    getcolor (bg_color args) "RGBA" = Ok color /\
    files w !! input args = Some (ImageFile src) /\
    prepare args w = (Ok (bg, im_resized, dest), w) /\
    bg = Image "RGBA" (canvas args) (canvas args)
           (repeat color (Z.to_nat (canvas args * canvas args))) /\
    0 <= canvas args <= max_side /\
    Image_alpha_composite bg im_resized dest = Ok composited /\
    (output args ∉ dirs w) /\
    w' = World (<[output args := ImageFile composited]> (files w)) (dirs w) (stdout w).
Proof.
  unfold main. intros Hm. rewrite bind_run in Hm.
  destruct (prepare args w) as [[[[bg im_resized] dest]|e] w1] eqn:Hp; [|discriminate Hm].
  pose proof (prepare_pure _ _ _ _ Hp) as ->.
  destruct (prepare_inv _ _ _ _ _ _ Hp) as (color & src & Hcolor & Hnew & Hsrc).
  rewrite bind_run in Hm. unfold lift at 1 in Hm.
  destruct (Image_alpha_composite bg im_resized dest) as [composited|] eqn:Hc;
    [|discriminate Hm].
  unfold Image_save in Hm.
  destruct (bool_decide (output args ∈ dirs w)) eqn:Hd; [discriminate Hm|].
  apply bool_decide_eq_false in Hd. injection Hm as <-.
  exists color, src, bg, im_resized, dest, composited.
  pose proof (Image_new_inv _ _ _ _ _ Hnew) as [Hcs _].
  apply Image_new_shape in Hnew. auto 10.
Qed.

End WithPillow.

End PadderMore.

(* ===================================================================== *)
(** * Further properties of fix_icon_padding.py *)
(* ===================================================================== *)

Module PadderExtras.
Import Py Raster Os PIL Padder Extra.
Import PyFacts RasterFacts PILFacts PadderFacts IconGeneratorFacts PadderRun.
Import PadderGeometry RoundingOrder PadderInset PadderMore.

(** X1.  The longer side of the source takes the whole inset: for an
    inset and a source of 1 to 2^31 - 1 pixels a side, the larger of the
    two resampled sides is exactly [inset], and it is the width for a
    source at least as wide as tall, the height otherwise. *)
Theorem longer_side_fills_inset inset w h :
  1 <= inset < 2 ^ 31 -> 1 <= w < 2 ^ 31 -> 1 <= h < 2 ^ 31 ->
  exists new_w new_h, fit inset w h = Ok (new_w, new_h) /\
    Z.max new_w new_h = inset /\
    (h <= w -> new_w = inset) /\ (w <= h -> new_h = inset).
Proof.
  intros Hi Hw Hh.
  destruct (fit_shape inset w h Hi Hw Hh) as (new_w & new_h & Hfit & Hnw & Hnh & Hwide & Htall).
  exists new_w, new_h. split; [assumption|].
  split; [|split; intros Hc; [apply Hwide | apply Htall]; assumption].
  destruct (Z.le_gt_cases h w) as [Hle|Hgt].
  - destruct (Hwide Hle) as [-> _]. lia.
  - destruct Htall as [-> _]; lia.
Qed.

Lemma longer_side_fills_inset_witness :
  exists new_w new_h, fit 768 500 300 = Ok (new_w, new_h) /\
    Z.max new_w new_h = 768 /\
    (300 <= 500 -> new_w = 768) /\ (500 <= 300 -> new_h = 768).
Proof. apply (longer_side_fills_inset 768 500 300); lia. Defined.

(** X2.  The proportions of the source are kept to within one pixel:
    [new_w * h] and [new_h * w] differ by less than the longer side of the
    source, that is, the shorter resampled side is less than one pixel
    away from the exact proportional length. *)
Theorem aspect_ratio_within_one_pixel inset w h :
  1 <= inset < 2 ^ 31 -> 1 <= w < 2 ^ 31 -> 1 <= h < 2 ^ 31 ->
  exists new_w new_h, fit inset w h = Ok (new_w, new_h) /\
    Z.abs (new_w * h - new_h * w) < Z.max w h.
Proof.
  intros Hi Hw Hh.
  destruct (fit_shape inset w h Hi Hw Hh) as (new_w & new_h & Hfit & Hnw & Hnh & Hwide & Htall).
  exists new_w, new_h. split; [assumption|].
  destruct (Z.le_gt_cases h w) as [Hle|Hgt].
  - destruct (Hwide Hle) as [-> Hn]. rewrite Z.max_l by lia. nia.
  - destruct Htall as [-> Hn]; [lia|]. rewrite Z.max_r by lia. nia.
Qed.

Lemma aspect_ratio_within_one_pixel_witness :
  exists new_w new_h, fit 768 500 300 = Ok (new_w, new_h) /\
    Z.abs (new_w * 300 - new_h * 500) < Z.max 500 300.
Proof. apply (aspect_ratio_within_one_pixel 768 500 300); lia. Defined.

(** X3.  Resampling goes one way only: a source whose longer side is at
    least the inset is not enlarged on either axis, and a source whose
    longer side is at most the inset is not reduced on either axis. *)
Theorem resampling_goes_one_way inset w h :
  1 <= inset < 2 ^ 31 -> 1 <= w < 2 ^ 31 -> 1 <= h < 2 ^ 31 ->
  exists new_w new_h, fit inset w h = Ok (new_w, new_h) /\
    (inset <= Z.max w h -> new_w <= w /\ new_h <= h) /\
    (Z.max w h <= inset -> w <= new_w /\ h <= new_h).
Proof.
  intros Hi Hw Hh.
  destruct (fit_shape inset w h Hi Hw Hh) as (new_w & new_h & Hfit & Hnw & Hnh & Hwide & Htall).
  exists new_w, new_h. split; [assumption|].
  destruct (Z.le_gt_cases h w) as [Hle|Hgt].
  - destruct (Hwide Hle) as [-> Hn]. rewrite Z.max_l by lia.
    split; intros Hc; split; nia.
  - destruct Htall as [-> Hn]; [lia|]. rewrite Z.max_r by lia.
    split; intros Hc; split; nia.
Qed.

Lemma resampling_goes_one_way_witness :
  exists new_w new_h, fit 768 500 300 = Ok (new_w, new_h) /\
    (768 <= Z.max 500 300 -> new_w <= 500 /\ new_h <= 300) /\
    (Z.max 500 300 <= 768 -> 500 <= new_w /\ 300 <= new_h).
Proof. apply (resampling_goes_one_way 768 500 300); lia. Defined.

(** X4.  The inset is the exact value
    [canvas_size * (1 - 2 * c / 100)], for the clamped percentage [c],
    rounded to the nearest integer: the four roundings of the float
    computation move the value by less than 2e-6 before [round] is
    applied, for every canvas side from 1 to 2^31 - 1 and every margin. *)
Theorem inset_is_exact_value_rounded canvas_size margin_pct c :
  1 <= canvas_size < 2 ^ 31 -> clamp margin_pct = FFin c ->
  exists m inset,
    margin_of margin_pct = Ok m /\ inset_of canvas_size m = Ok inset /\
    (Qabs (inject_Z inset - inject_Z canvas_size * (1 - 2 * (c / 100)))
     <= (1 # 2) + (1 # 500000))%Q.
Proof.
  intros Hc Hclamp.
  destruct (inset_near canvas_size margin_pct c Hc Hclamp) as (m & inset & Hm & Hi & Hlo & Hhi).
  exists m, inset. split; [assumption|]. split; [assumption|].
  apply Qabs_Qle_condition. split; lra.
Qed.

Lemma inset_is_exact_value_rounded_witness :
  exists m inset,
    margin_of (FFin (25 # 2)) = Ok m /\ inset_of 1024 m = Ok inset /\
    (Qabs (inject_Z inset - inject_Z 1024 * (1 - 2 * ((25 # 2) / 100)))
     <= (1 # 2) + (1 # 500000))%Q.
Proof.
  apply (inset_is_exact_value_rounded 1024 (FFin (25 # 2)) (25 # 2)); [lia | reflexivity].
Defined.

(** X5.  A larger margin never gives a larger inset: for one canvas and
    two finite margins [q1 <= q2] (inside the clamp range or not), the
    inset computed for [q2] is at most the inset computed for [q1]. *)
Theorem larger_margin_never_larger_inset canvas_size q1 q2 :
  1 <= canvas_size < 2 ^ 31 -> (q1 <= q2)%Q ->
  exists m1 m2 inset1 inset2,
    margin_of (FFin q1) = Ok m1 /\ margin_of (FFin q2) = Ok m2 /\
    inset_of canvas_size m1 = Ok inset1 /\ inset_of canvas_size m2 = Ok inset2 /\
    inset2 <= inset1.
Proof.
  intros Hc Hq.
  destruct (clamp_mono q1 q2 Hq) as (c1 & c2 & Hc1 & Hc2 & Hc0 & Hc12 & Hc45).
  unfold margin_of. rewrite Hc1, Hc2. cbn.
  assert (H2k : (2 <= 2 ^ 1000)%Q) by (vm_compute; discriminate).
  destruct (rne_pair (c1 / 100) (c2 / 100)) as (m1 & m2 & Hm1 & Hm2 & Hm0 & Hm12 & Hmh).
  { apply Qle_shift_div_l; lra. }
  { apply Qmult_le_compat_r; [assumption | discriminate]. }
  { apply Qle_shift_div_r; lra. }
  assert (Hc2h : (c2 / 100 <= 45 # 100)%Q) by (apply Qle_shift_div_r; lra).
  rewrite Hm1, Hm2. exists (FFin m1), (FFin m2).
  unfold inset_of, imulf.
  destruct (float_of_int_near canvas_size) as (cf & Hcf & Hcf0 & Hcf1 & Hcf2); [lia|].
  rewrite Hcf. cbn.
  assert (HC : (1 <= inject_Z canvas_size <= 2147483648)%Q).
  { apply (inject_Z_bounds canvas_size 1 (2 ^ 31)). lia. }
  set (C := inject_Z canvas_size) in *.
  destruct (rne_pair (2 * m1) (2 * m2)) as (d1 & d2 & Hd1 & Hd2 & Hd0 & Hd12 & Hdh);
    [qlra | qlra | qlra |].
  rewrite Hd1, Hd2.
  destruct (rne_pair (1 - d2) (1 - d1)) as (t2 & t1 & Ht2 & Ht1 & Ht0 & Ht21 & Hth);
    [qlra | qlra | qlra |].
  rewrite Ht1, Ht2.
  assert (Hp : (cf * t2 <= cf * t1)%Q)
    by (rewrite !(Qmult_comm cf); apply Qmult_le_compat_r; assumption).
  assert (Hp0 : (0 <= cf * t2)%Q) by (apply Qmult_le_0_compat; assumption).
  assert (Hph : (cf * t1 <= cf * 2)%Q)
    by (rewrite !(Qmult_comm cf); apply Qmult_le_compat_r; [qlra | assumption]).
  destruct (rne_pair (cf * t2) (cf * t1)) as (p2 & p1 & Hp2 & Hp1 & _ & Hp21 & _);
    [assumption | assumption
    | assert (2147483648 * 4 <= 2 ^ 1000)%Q by (vm_compute; discriminate); qlra |].
  rewrite Hp1, Hp2. cbn.
  exists (round_half_even p1), (round_half_even p2).
  repeat (split; [reflexivity|]). now apply round_half_even_mono.
Qed.

Lemma larger_margin_never_larger_inset_witness :
  exists m1 m2 inset1 inset2,
    margin_of (FFin (25 # 2)) = Ok m1 /\ margin_of (FFin 30) = Ok m2 /\
    inset_of 1024 m1 = Ok inset1 /\ inset_of 1024 m2 = Ok inset2 /\
    inset2 <= inset1.
Proof.
  apply (larger_margin_never_larger_inset 1024 (25 # 2) 30); [lia | discriminate].
Defined.

(** X6.  With a margin of zero or less the logo touches the canvas edges:
    the inset is the canvas side itself, the longer side of the resampled
    image is the canvas side, and its offset on that axis is 0. *)
Theorem nonpositive_margin_fills_canvas canvas_size q w h :
  1 <= canvas_size < 2 ^ 31 -> (q <= 0)%Q -> 1 <= w < 2 ^ 31 -> 1 <= h < 2 ^ 31 ->
  exists new_w new_h,
    margin_of (FFin q) = Ok (FFin 0) /\
    inset_of canvas_size (FFin 0) = Ok canvas_size /\
    fit canvas_size w h = Ok (new_w, new_h) /\
    Z.max new_w new_h = canvas_size /\
    Z.min (centre canvas_size new_w) (centre canvas_size new_h) = 0.
Proof.
  intros Hc Hq Hw Hh.
  destruct (fit_shape canvas_size w h Hc Hw Hh)
    as (new_w & new_h & Hfit & Hnw & Hnh & Hwide & Htall).
  exists new_w, new_h.
  split; [apply margin_of_zero; now apply (clamp_cases (FFin q))|].
  split; [now apply inset_of_whole|]. split; [assumption|].
  assert (Hx : 0 <= centre canvas_size new_w) by (apply Z.div_pos; lia).
  assert (Hy : 0 <= centre canvas_size new_h) by (apply Z.div_pos; lia).
  assert (Hz : centre canvas_size canvas_size = 0)
    by (unfold centre; now rewrite Z.sub_diag).
  destruct (Z.le_gt_cases h w) as [Hle|Hgt].
  - destruct (Hwide Hle) as [-> _]. rewrite Hz in *. lia.
  - destruct Htall as [-> _]; [lia|]. rewrite Hz in *. lia.
Qed.

Lemma nonpositive_margin_fills_canvas_witness :
  exists new_w new_h,
    margin_of (FFin (-10)) = Ok (FFin 0) /\
    inset_of 1024 (FFin 0) = Ok 1024 /\
    fit 1024 500 300 = Ok (new_w, new_h) /\
    Z.max new_w new_h = 1024 /\
    Z.min (centre 1024 new_w) (centre 1024 new_h) = 0.
Proof.
  apply (nonpositive_margin_fills_canvas 1024 (-10) 500 300); [lia | discriminate | lia | lia].
Defined.

Section WithPillow.
Context `{Pillow}.

(** X7.  Every margin outside the clamp range runs as the bound it is
    clamped to, NaN and the infinities included: a NaN, +inf or any value
    of 45 or more gives the run of [--margin_pct 45], and -inf or any
    value of 0 or less gives the run of [--margin_pct 0] (same result,
    same world). *)
Theorem margin_out_of_range_runs_as_bound args w :
  match margin_pct args with
  | FNan => main args w = main (with_margin args (FFin 45)) w
  | FInf neg => main args w = main (with_margin args (FFin (if neg then 0 else 45))) w
  | FFin q =>
      ((q <= 0)%Q -> main args w = main (with_margin args (FFin 0)) w) /\
      ((45 <= q)%Q -> main args w = main (with_margin args (FFin 45)) w)
  end.
Proof.
  assert (Hrun : forall m, clamp (margin_pct args) = clamp m ->
                           main args w = main (with_margin args m) w).
  { intros m Hm. unfold main, prepare, margin_of, with_margin.
    cbn [input output canvas margin_pct bg_color]. now rewrite Hm. }
  pose proof (clamp_cases (margin_pct args)) as Hcases.
  destruct (margin_pct args) as [|[|]|q].
  - apply Hrun. now rewrite Hcases.
  - apply Hrun. now rewrite Hcases.
  - apply Hrun. now rewrite Hcases.
  - destruct Hcases as (H0 & H45 & _). split; intros Hq; apply Hrun.
    + now rewrite (H0 Hq).
    + now rewrite (H45 Hq).
Qed.


(** X9.  [main] returns only if the canvas side is between 0 and the
    largest side Pillow holds, the background colour parses, the input
    path holds a decodable image and the output path is not a directory. *)
Theorem main_returns_only_if args w w' :
  main args w = (Ok tt, w') ->
  0 <= canvas args <= max_side /\
  (exists color, getcolor (bg_color args) "RGBA" = Ok color) /\
  (exists src, files w !! input args = Some (ImageFile src)) /\
  output args ∉ dirs w.
Proof.
  intros Hm.
  destruct (main_inv _ _ _ Hm)
    as (color & src & bg & imr & dest & out & Hcolor & Hsrc & _ & _ & Hc & _ & Hout & _).
  eauto 10.
Qed.

(** X10.  Every pixel of the written image: inside the destination
    rectangle it is the resampled pixel composited over the background
    colour, and everywhere else it is the background colour. *)
Theorem output_pixels args w w' :
  main args w = (Ok tt, w') ->
  exists color bg im_resized x0 y0 out,
    getcolor (bg_color args) "RGBA" = Ok color /\
    prepare args w = (Ok (bg, im_resized, (x0, y0)), w) /\
    files w' !! output args = Some (ImageFile out) /\
    forall x y, 0 <= x < canvas args -> 0 <= y < canvas args ->
      getpixel out x y =
      if in_box x0 y0 im_resized x y
      then over color (getpixel im_resized (x - x0) (y - y0))
      else color.
Proof.
  intros Hm.
  destruct (main_inv _ _ _ Hm)
    as (color & src & bg & imr & [x0 y0] & out & Hcolor & Hsrc & Hp & Hbg & Hc & Hcomp
        & Hout & ->).
  exists color, bg, imr, x0, y0, out.
  split; [assumption|]. split; [assumption|].
  split; [cbn [files]; apply lookup_insert_eq|].
  intros x y Hx Hy.
  apply alpha_composite_shape in Hcomp as (_ & Hw & Hh & _ & _ & Hdata).
  cbn [fst snd] in Hdata. destruct out as [m0 w0 h0 d0].
  cbn [width height data] in Hw, Hh, Hdata. subst w0 h0 d0.
  subst bg. cbn [width height].
  rewrite getpixel_build by assumption.
  now rewrite getpixel_repeat by assumption.
Qed.

End WithPillow.

Section WithPillowSpec.
Context `{PillowSpec}.


(** X12.  With the default flags ([--canvas 1024], [--margin_pct 12.5]),
    whatever the source image: the canvas is 1024 by 1024, the longer
    side of the resampled image is 768 pixels, and it is pasted 128
    pixels from the canvas edge on that axis. *)
Theorem default_flags_geometry inp out w color src :
  getcolor "#0B0F1A" "RGBA" = Ok color ->
  files w !! inp = Some (ImageFile src) ->
  well_sized src ->
  exists bg im_resized x y,
    prepare (parse_args inp out None None None) w = (Ok (bg, im_resized, (x, y)), w) /\
    width bg = 1024 /\ height bg = 1024 /\
    Z.max (width im_resized) (height im_resized) = 768 /\
    Z.min x y = 128.
Proof.
  intros Hcolor Hsrc Hsized. pose proof max_side_range as Hmax.
  destruct (prepare_run (parse_args inp out None None None) w color src)
    as (m & inset & new_w & new_h & Hm & Hi & Hfit & _ & _ & _ & Hprep);
    try assumption; [cbn; lia|].
  cbn [parse_args canvas margin_pct default] in Hm, Hi, Hfit, Hprep.
  assert (Em : margin_of (FFin (25 # 2)) = Ok (FFin (1 # 8))) by (vm_compute; reflexivity).
  rewrite Em in Hm. injection Hm as <-.
  assert (Ei : inset_of 1024 (FFin (1 # 8)) = Ok 768) by (vm_compute; reflexivity).
  rewrite Ei in Hi. injection Hi as <-.
  destruct Hsized as [Hw Hh].
  destruct (fit_shape 768 (width src) (height src))
    as (nw & nh & Hfit' & Hnw & Hnh & Hwide & Htall); [lia..|].
  rewrite Hfit' in Hfit. injection Hfit as <- <-.
  eexists _, _, _, _. split; [exact Hprep|].
  cbn [width height]. rewrite lanczos_width, lanczos_height.
  split; [reflexivity|]. split; [reflexivity|].
  assert (Hx : 128 <= centre 1024 nw)
    by (unfold centre; apply Z.div_le_lower_bound; lia).
  assert (Hy : 128 <= centre 1024 nh)
    by (unfold centre; apply Z.div_le_lower_bound; lia).
  assert (Hz : centre 1024 768 = 128) by reflexivity.
  destruct (Z.le_gt_cases (height src) (width src)) as [Hle|Hgt].
  - destruct (Hwide Hle) as [-> _]. rewrite Hz in *. lia.
  - destruct Htall as [-> _]; [lia|]. rewrite Hz in *. lia.
Qed.

End WithPillowSpec.

(** Runs on the concrete Pillow of [Demo]. *)
#[local] Existing Instance Demo.pillow.
#[local] Existing Instance DemoFacts.pillow_spec.

Lemma margin_out_of_range_runs_as_bound_witness :
  main (with_margin Demo.padder_args (FFin 100)) Demo.disk
  = main (with_margin (with_margin Demo.padder_args (FFin 100)) (FFin 45)) Demo.disk.
Proof.
  apply (margin_out_of_range_runs_as_bound
           (with_margin Demo.padder_args (FFin 100)) Demo.disk).
  discriminate.
Defined.

Lemma main_returns_only_if_witness :
  exists w',
    main Demo.padder_args Demo.disk = (Ok tt, w') /\
    0 <= 8 <= max_side /\
    (exists color, getcolor "#0B0F1A" "RGBA" = Ok color) /\
    (exists src, files Demo.disk !! "logo.png"%string = Some (ImageFile src)) /\
    "logo_padded.png"%string ∉ dirs Demo.disk.
Proof.
  destruct (main_run Demo.padder_args Demo.disk [11; 15; 26; 255] Demo.logo)
    as (out & Hm & _).
  - cbn. lia.
  - reflexivity.
  - vm_compute. reflexivity.
  - unfold well_sized. cbn. lia.
  - cbn. apply not_elem_of_empty.
  - eexists. split; [exact Hm|].
    exact (main_returns_only_if Demo.padder_args Demo.disk _ Hm).
Defined.

Lemma output_pixels_witness :
  exists w',
    main Demo.padder_args Demo.disk = (Ok tt, w') /\
    exists color bg im_resized x0 y0 out,
      getcolor "#0B0F1A" "RGBA" = Ok color /\
      prepare Demo.padder_args Demo.disk = (Ok (bg, im_resized, (x0, y0)), Demo.disk) /\
      files w' !! "logo_padded.png"%string = Some (ImageFile out) /\
      forall x y, 0 <= x < 8 -> 0 <= y < 8 ->
        getpixel out x y =
        if in_box x0 y0 im_resized x y
        then over color (getpixel im_resized (x - x0) (y - y0))
        else color.
Proof.
  destruct (main_run Demo.padder_args Demo.disk [11; 15; 26; 255] Demo.logo)
    as (out & Hm & _).
  - cbn. lia.
  - reflexivity.
  - vm_compute. reflexivity.
  - unfold well_sized. cbn. lia.
  - cbn. apply not_elem_of_empty.
  - eexists. split; [exact Hm|].
    exact (output_pixels Demo.padder_args Demo.disk _ Hm).
Defined.


Lemma default_flags_geometry_witness :
  exists bg im_resized x y,
    prepare (parse_args "logo.png" "logo_padded.png" None None None) Demo.disk
    = (Ok (bg, im_resized, (x, y)), Demo.disk) /\
    width bg = 1024 /\ height bg = 1024 /\
    Z.max (width im_resized) (height im_resized) = 768 /\
    Z.min x y = 128.
Proof.
  apply (default_flags_geometry "logo.png" "logo_padded.png" Demo.disk
           [11; 15; 26; 255] Demo.logo).
  - reflexivity.
  - vm_compute. reflexivity.
  - unfold well_sized. cbn. lia.
Defined.

End PadderExtras.

(* ===================================================================== *)
(** * More on the runs of the icon generator *)
(* ===================================================================== *)

Module RunFacts.
Import Py Raster Os PIL IconGenerator Extra.
Import RasterFacts PILFacts IconGeneratorFacts.

Lemma evolves_refl F D w : evolves F D w w.
Proof.
  repeat split; auto. exists []. now rewrite app_nil_r.
Qed.

Lemma evolves_trans F D w1 w2 w3 :
  evolves F D w1 w2 -> evolves F D w2 w3 -> evolves F D w1 w3.
Proof.
  intros (Hf1 & Hs1 & Hd1 & Hn1 & l1 & Ho1) (Hf2 & Hs2 & Hd2 & Hn2 & l2 & Ho2).
  repeat split.
  - intros p Hp. now rewrite Hf2, Hf1.
  - auto.
  - auto.
  - intros d Hd. destruct (Hn2 d Hd) as [Hd'|]; auto.
  - exists (l1 ++ l2). now rewrite Ho2, Ho1, app_assoc.
Qed.

Lemma evolves_weaken (F F' D D' : string -> Prop) w w' :
  (forall p, F p -> F' p) -> (forall d, D d -> D' d) ->
  evolves F D w w' -> evolves F' D' w w'.
Proof.
  intros HF HD (Hf & Hs & Hd & Hn & Ho). repeat split; auto.
  intros d Hin. destruct (Hn d Hin); auto.
Qed.

Lemma confined_weaken {A} (F F' D D' : string -> Prop) (m : M A) :
  (forall p, F p -> F' p) -> (forall d, D d -> D' d) ->
  confined F D m -> confined F' D' m.
Proof. intros HF HD Hm w. exact (evolves_weaken F F' D D' _ _ HF HD (Hm w)). Qed.

Lemma confined_ret {A} F D (a : A) : confined F D (mret a).
Proof. intros w. apply evolves_refl. Qed.

Lemma confined_lift {A} F D (r : result A) : confined F D (lift r).
Proof. intros w. apply evolves_refl. Qed.




Lemma confined_print F D s : confined F D (print s).
Proof.
  intros w. unfold print. cbn [snd]. repeat split; cbn [files dirs stdout]; auto.
  eexists. reflexivity.
Qed.

Lemma confined_makedirs (F D : string -> Prop) p : D p -> confined F D (os_makedirs p).
Proof.
  intros HD w. unfold os_makedirs.
  destruct (String.eqb p EmptyString); [apply evolves_refl|].
  destruct (files w !! p); [apply evolves_refl|].
  cbn [snd]. repeat split; cbn [files dirs stdout]; auto.
  - intros d Hd. apply elem_of_union. now right.
  - intros d Hd. apply elem_of_union in Hd as [Hd|Hd]; [|now left].
    apply elem_of_singleton in Hd. subst. now right.
  - exists []. now rewrite app_nil_r.
Qed.

Lemma confined_save `{Pillow} (F D : string -> Prop) im p :
  F p -> confined F D (Image_save im p).
Proof.
  intros HF w. unfold Image_save.
  destruct (bool_decide (p ∈ dirs w)); [apply evolves_refl|].
  cbn [snd]. repeat split; cbn [files dirs stdout]; auto.
  - intros q Hq. apply lookup_insert_ne. intros ->. contradiction.
  - intros q Hq. destruct (decide (p = q)) as [->|Hne].
    + rewrite lookup_insert_eq. eauto.
    + now rewrite lookup_insert_ne.
  - exists []. now rewrite app_nil_r.
Qed.

Lemma confined_bind {A B} F D (m : M A) (k : A -> M B) :
  confined F D m -> (forall a, confined F D (k a)) -> confined F D (m ≫= k).
Proof.
  intros Hm Hk w. rewrite bind_run. specialize (Hm w).
  destruct (m w) as [[a|e] w1]; cbn [snd] in Hm; [|exact Hm].
  exact (evolves_trans F D _ _ _ Hm (Hk a w1)).
Qed.


Lemma confined_foldM {A S} F D (f : S -> A -> M S) (l : list A) :
  (forall s a, a ∈ l -> confined F D (f s a)) ->
  forall s, confined F D (foldM f l s).
Proof.
  induction l as [|a l IH]; intros Hf s; cbn [foldM].
  - apply confined_ret.
  - apply confined_bind.
    + apply Hf. apply elem_of_cons. now left.
    + intros s'. apply IH. intros s0 a0 Ha0. apply Hf. apply elem_of_cons. now right.
Qed.


Section WithPillow.
Context `{Pillow}.

Lemma confined_write_icon (F D : string -> Prop) img category category_dir total entry :
  F (os_path_join category_dir (fst entry)) ->
  confined F D (write_icon img category category_dir total entry).
Proof.
  destruct entry as [filename size]. cbn [fst]. intros HF. unfold write_icon.
  apply confined_bind; [apply confined_lift|]. intros saved.
  apply confined_bind; [now apply confined_save|]. intros _.
  apply confined_bind; [apply confined_print|]. intros _.
  apply confined_ret.
Qed.

Lemma confined_write_category (F D : string -> Prop) img output_dir total entry :
  D (os_path_join output_dir (fst entry)) ->
  (forall fs, fs ∈ snd entry ->
              F (os_path_join (os_path_join output_dir (fst entry)) (fst fs))) ->
  confined F D (write_category img output_dir total entry).
Proof.
  destruct entry as [category sizes]. cbn [fst snd]. intros HD HF. unfold write_category.
  apply confined_bind; [now apply confined_makedirs|]. intros _.
  apply confined_bind; [apply confined_print|]. intros _.
  apply confined_foldM. intros s fs Hfs. apply confined_write_icon. now apply HF.
Qed.


(** ** What a returning loop went through *)

Lemma write_icon_inv img category category_dir total filename size w r w' :
  write_icon img category category_dir total (filename, size) w = (Ok r, w') ->
  (os_path_join category_dir filename ∉ dirs w) /\ r = total + 1 /\
  stdout w' = stdout w ++ [tick (filename, size)].
Proof.
  unfold write_icon. intros Hr.
  rewrite bind_run in Hr. unfold lift at 1 in Hr.
  destruct (icon img category size) as [saved|]; [|discriminate Hr].
  rewrite bind_run in Hr. unfold Image_save at 1 in Hr.
  destruct (bool_decide (os_path_join category_dir filename ∈ dirs w)) eqn:Hd;
    [discriminate Hr|].
  apply bool_decide_eq_false in Hd. split; [assumption|].
  rewrite bind_run in Hr. unfold print at 1 in Hr. injection Hr as <- <-.
  split; reflexivity.
Qed.

Lemma write_icons_inv img category category_dir sizes :
  forall total w r w',
    foldM (write_icon img category category_dir) sizes total w = (Ok r, w') ->
    Forall (fun fs : string * Z => os_path_join category_dir (fst fs) ∉ dirs w) sizes /\
    r = total + Z.of_nat (length sizes) /\
    stdout w' = stdout w ++ map tick sizes.
Proof.
  induction sizes as [|[filename size] sizes IH]; intros total w r w' Hr.
  - cbn in Hr. injection Hr as <- <-.
    split; [constructor|]. split; [cbn; lia | cbn; now rewrite app_nil_r].
  - cbn [foldM] in Hr. rewrite bind_run in Hr.
    pose proof (confined_write_icon (fun _ => True) (fun _ => True)
                  img category category_dir total (filename, size) I w) as Hev.
    destruct (write_icon img category category_dir total (filename, size) w)
      as [[t1|e] w1] eqn:H1; [|discriminate Hr].
    apply write_icon_inv in H1 as (Hd & -> & Ho1).
    apply IH in Hr as (Hrest & -> & Ho). cbn [snd] in Hev.
    destruct Hev as (_ & _ & Hmono & _).
    split; [|split; [cbn [length]; lia|]].
    + constructor; [exact Hd|].
      eapply Forall_impl; [exact Hrest|]. cbn. intros fs Hfs Hin. apply Hfs. auto.
    + rewrite Ho, Ho1, <- app_assoc. reflexivity.
Qed.

Lemma write_category_inv img output_dir total category sizes w r w' :
  write_category img output_dir total (category, sizes) w = (Ok r, w') ->
  os_path_join output_dir category <> EmptyString /\
  files w !! os_path_join output_dir category = None /\
  Forall (fun fs : string * Z =>
            os_path_join (os_path_join output_dir category) (fst fs) ∉ dirs w) sizes /\
  r = total + Z.of_nat (length sizes) /\
  stdout w' = stdout w ++ heading category :: map tick sizes.
Proof.
  unfold write_category. intros Hr.
  rewrite bind_run in Hr. unfold os_makedirs at 1 in Hr.
  destruct (String.eqb_spec (os_path_join output_dir category) EmptyString) as [|Hne];
    [discriminate Hr|].
  destruct (files w !! os_path_join output_dir category) eqn:Hf; [discriminate Hr|].
  rewrite bind_run in Hr. unfold print at 1 in Hr. cbn [files dirs stdout] in Hr.
  apply write_icons_inv in Hr as (Hrest & -> & Ho). cbn [dirs stdout] in Hrest, Ho.
  split; [assumption|]. split; [reflexivity|]. split; [|split; [reflexivity|]].
  - eapply Forall_impl; [exact Hrest|]. cbn. intros fs Hfs Hin. apply Hfs.
    apply elem_of_union. now right.
  - rewrite Ho, <- app_assoc. reflexivity.
Qed.

Lemma write_categories_inv img output_dir table :
  forall total w r w',
    foldM (write_category img output_dir) table total w = (Ok r, w') ->
    Forall (fun e : string * list (string * Z) =>
              files w !! os_path_join output_dir (fst e) = None) table /\
    Forall (fun t : string * (string * Z) => fst t ∉ dirs w) (targets_in output_dir table) /\
    r = total + Z.of_nat (length (targets_in output_dir table)) /\
    stdout w' = stdout w ++ progress table.
Proof.
  induction table as [|[category sizes] table IH]; intros total w r w' Hr.
  - cbn in Hr. injection Hr as <- <-.
    repeat split; [constructor | constructor | cbn; lia | cbn; now rewrite app_nil_r].
  - cbn [foldM] in Hr. rewrite bind_run in Hr.
    pose proof (confined_write_category (fun _ => True) (fun _ => True)
                  img output_dir total (category, sizes) I (fun _ _ => I) w) as Hev.
    destruct (write_category img output_dir total (category, sizes) w)
      as [[t1|e] w1] eqn:H1; [|discriminate Hr].
    apply write_category_inv in H1 as (_ & Hf & Hd & -> & Ho1).
    apply IH in Hr as (Hfs & Hds & -> & Ho). cbn [snd] in Hev.
    destruct Hev as (_ & Hsome & Hmono & _).
    rewrite targets_in_cons. cbn [fst snd]. split; [|split; [|split]].
    + constructor; [exact Hf|].
      eapply Forall_impl; [exact Hfs|]. cbn. intros e He.
      destruct (files w !! os_path_join output_dir (fst e)) eqn:E; [|reflexivity].
      destruct (Hsome (os_path_join output_dir (fst e))) as [x Hx]; [eauto|].
      congruence.
    + apply Forall_app. split.
      * apply Forall_map. eapply Forall_impl; [exact Hd|]. cbn. auto.
      * eapply Forall_impl; [exact Hds|]. cbn. intros t Ht Hin. apply Ht. auto.
    + rewrite length_app, length_map. lia.
    + rewrite Ho, Ho1. unfold progress. cbn [flat_map fst snd].
      rewrite <- !app_assoc. reflexivity.
Qed.

(** A run that returns: the source decoded, the output tree could be
    written, and the lines printed are those of the table. *)
Lemma generate_icons_inv source_path output_dir w r w' :
  generate_icons source_path output_dir w = (Ok r, w') ->
  r = output_dir /\
  writable w output_dir /\
  exists opened,
    files w !! source_path = Some (ImageFile opened) /\
    stdout w' = stdout w ++ transcript opened output_dir.
Proof.
  unfold generate_icons. intros Hr.
  rewrite bind_run in Hr. unfold os_path_exists at 1 in Hr.
  destruct (bool_decide _) eqn:Hex; cbn [negb] in Hr; [|discriminate Hr].
  rewrite bind_run in Hr. change ((mret tt : M unit) w) with (Ok tt, w) in Hr.
  cbv beta iota in Hr.
  rewrite bind_run in Hr. unfold load, try_except in Hr.
  rewrite bind_run in Hr. unfold Image_open at 1 in Hr.
  destruct (files w !! source_path) as [[opened|]|] eqn:Hsrc;
    [| discriminate Hr | destruct (bool_decide (source_path ∈ dirs w)); discriminate Hr].
  rewrite bind_run in Hr. unfold print at 1 in Hr. cbn [files dirs stdout] in Hr.
  match type of Hr with
  | context [mret opened ?w0] =>
      change ((mret opened : M image) w0) with (Ok opened, w0) in Hr
  end.
  cbv beta iota in Hr.
  rewrite bind_run in Hr. unfold os_makedirs at 1 in Hr. cbn [files dirs stdout] in Hr.
  destruct (String.eqb_spec output_dir EmptyString) as [|Hne]; [discriminate Hr|].
  destruct (files w !! output_dir) eqn:Hroot; [discriminate Hr|].
  rewrite bind_run in Hr.
  match type of Hr with
  | context [foldM ?f ?l ?t ?w1] =>
      destruct (foldM f l t w1) as [[total|e] w3] eqn:Hloop; [|discriminate Hr]
  end.
  apply write_categories_inv in Hloop as (Hdirs & Htargets & -> & Ho).
  cbn [files dirs stdout] in Hdirs, Htargets, Ho.
  repeat (rewrite bind_run in Hr; unfold print at 1 in Hr; cbn [files dirs stdout] in Hr).
  injection Hr as <- <-. split; [reflexivity|]. split.
  - split; [assumption|]. split; [assumption|]. split.
    + unfold category_dirs. apply Forall_map. exact Hdirs.
    + eapply Forall_impl; [exact Htargets|]. cbn. intros t Ht Hin. apply Ht.
      apply elem_of_union. now right.
  - exists opened. split; [reflexivity|]. cbn [stdout]. rewrite Ho.
    unfold transcript, summary. rewrite <- !app_assoc. reflexivity.
Qed.

(** ** Exit statuses *)












Lemma foldM_app {A S} (f : S -> A -> M S) (l1 l2 : list A) (s : S) w :
  foldM f (l1 ++ l2) s w =
  match foldM f l1 s w with
  | (Ok s', w') => foldM f l2 s' w'
  | (Raise e, w') => (Raise e, w')
  end.
Proof.
  revert s w. induction l1 as [|a l1 IH]; intros s w; [reflexivity|].
  cbn [app foldM]. rewrite !bind_run.
  destruct (f s a w) as [[s1|e] w1]; [apply IH | reflexivity].
Qed.

(** Saving the same images again changes nothing. *)
Lemma save_all_twice (l : list (string * image)) fs :
  NoDup l.*1 -> save_all l (save_all l fs) = save_all l fs.
Proof.
  intros Hnd. apply map_eq. intros p.
  destruct (decide (p ∈ l.*1)) as [Hin|Hout].
  - apply list_elem_of_fmap in Hin as ([q im] & -> & Hin). cbn [fst].
    now rewrite !(save_all_lookup l _ q im Hnd Hin).
  - now rewrite !save_all_lookup_other.
Qed.

End WithPillow.

End RunFacts.

(* ===================================================================== *)
(** * Further properties of generate_app_icons.py *)
(* ===================================================================== *)

Module IconGeneratorExtras.
Import Py Raster Os PIL IconGenerator Extra.
Import RasterFacts PILFacts IconGeneratorFacts RunFacts.

Section WithPillow.
Context `{Pillow}.


(** X14.  An output directory that cannot be created (an empty name, or a
    path that is an existing file): after the source was loaded the run
    dies with the exception of [os.makedirs], not caught, and no file and
    no directory has been created. *)
Theorem unusable_output_dir_fails_before_output source_path output_dir src w :
  files w !! source_path = Some (ImageFile src) ->
  output_dir = EmptyString \/ is_Some (files w !! output_dir) ->
  exists cls msg w',
    generate_icons source_path output_dir w = (Raise (Exception cls msg), w') /\
    (cls = FileNotFoundError \/ cls = FileExistsError) /\
    files w' = files w /\ dirs w' = dirs w /\
    exit_status (fst (generate_icons source_path output_dir w)) = 1.
Proof.
  intros Hsrc Hout.
  assert (Hrun : exists cls msg w',
            generate_icons source_path output_dir w = (Raise (Exception cls msg), w') /\
            (cls = FileNotFoundError \/ cls = FileExistsError) /\
            files w' = files w /\ dirs w' = dirs w).
  { unfold generate_icons.
    rewrite bind_run. unfold os_path_exists.
    rewrite bool_decide_eq_true_2 by (left; rewrite Hsrc; eauto).
    cbn [negb]. rewrite bind_run.
    change ((mret tt : M unit) w) with (Ok tt, w). cbv beta iota.
    destruct (load_run source_path src w Hsrc) as (line & Hload).
    rewrite bind_run, Hload. rewrite bind_run. unfold os_makedirs at 1.
    cbn [files dirs stdout].
    destruct (String.eqb_spec output_dir EmptyString) as [E|Hne].
    - eexists _, _, _. split; [reflexivity|]. auto.
    - destruct Hout as [E|[x Hx]]; [contradiction|]. rewrite Hx.
      eexists _, _, _. split; [reflexivity|]. auto. }
  destruct Hrun as (cls & msg & w' & Hrun & Hcls & Hf & Hd).
  exists cls, msg, w'. rewrite Hrun. auto.
Qed.


End WithPillow.

Section WithPillowSpec.
Context `{PillowSpec}.


(** X17.  Running the generator a second time changes nothing: when the
    source is not itself one of the 21 paths, a second run on the world
    the first run left returns as well, and leaves the same files and
    the same directories. *)
Theorem second_run_changes_nothing source_path output_dir src w :
  files w !! source_path = Some (ImageFile src) ->
  writable w output_dir ->
  source_path ∉ (targets output_dir).*1 ->
  exists w1 w2,
    generate_icons source_path output_dir w = (Ok output_dir, w1) /\
    generate_icons source_path output_dir w1 = (Ok output_dir, w2) /\
    files w2 = files w1 /\ dirs w2 = dirs w1.
Proof.
  intros Hsrc Hw Hnot.
  destruct (generate_icons_run source_path output_dir src w Hsrc Hw)
    as (w1 & Hrun1 & Hf1 & Hd1 & _).
  destruct Hw as (Hname & Hroot & Hdirs & Htargets).
  assert (Hkeys : (outputs (as_rgba src) output_dir).*1 = (targets output_dir).*1)
    by (unfold outputs; rewrite <- list_fmap_compose; reflexivity).
  assert (Hsrc1 : files w1 !! source_path = Some (ImageFile src)).
  { rewrite Hf1, save_all_lookup_other; [assumption | now rewrite Hkeys]. }
  assert (Hapart : forall t, t ∈ targets output_dir ->
                             fst t ∉ category_dirs output_dir).
  { intros t Ht Hin. unfold category_dirs in Hin.
    apply list_elem_of_fmap in Hin as (e & He & Hin).
    exact (targets_apart output_dir t e Ht Hin He). }
  assert (Hw1 : writable w1 output_dir).
  { split; [assumption|]. split; [|split].
    - rewrite Hf1, save_all_lookup_other; [assumption|].
      rewrite Hkeys. intros Hin. apply list_elem_of_fmap in Hin as (t & Ht & Hin).
      symmetry in Ht. exact (targets_not_root output_dir t Hname Hin Ht).
    - rewrite Forall_forall in Hdirs. apply Forall_forall. intros d Hd.
      rewrite Hf1, save_all_lookup_other; [now apply Hdirs|].
      rewrite Hkeys. intros Hin. apply list_elem_of_fmap in Hin as (t & -> & Hin).
      exact (Hapart t Hin Hd).
    - rewrite Forall_forall in Htargets. apply Forall_forall. intros t Ht Hin.
      apply Hd1 in Hin as [Hin|[Hin|Hin]].
      + exact (Htargets t Ht Hin).
      + exact (targets_not_root output_dir t Hname Ht Hin).
      + exact (Hapart t Ht Hin). }
  destruct (generate_icons_run source_path output_dir src w1 Hsrc1 Hw1)
    as (w2 & Hrun2 & Hf2 & Hd2 & _).
  exists w1, w2. split; [assumption|]. split; [assumption|]. split.
  - rewrite Hf2, Hf1. apply save_all_twice. rewrite Hkeys. apply targets_NoDup.
  - apply set_eq. intros d. rewrite Hd2. pose proof (Hd1 d). tauto.
Qed.

(** X18.  What a returning run has printed: the line for the loaded
    source with its size, then for every category of the table its
    heading followed by one line per file in table order, then the
    summary, whose total is the number of files written, 21. *)
Theorem run_prints_the_table source_path output_dir src w :
  files w !! source_path = Some (ImageFile src) ->
  writable w output_dir ->
  exists w',
    generate_icons source_path output_dir w = (Ok output_dir, w') /\
    stdout w' = stdout w ++ transcript src output_dir /\
    length (transcript src output_dir) = 31%nat /\
    length (targets output_dir) = 21%nat.
Proof.
  intros Hsrc Hw.
  destruct (generate_icons_run source_path output_dir src w Hsrc Hw) as (w' & Hrun & _).
  exists w'. split; [assumption|].
  apply generate_icons_inv in Hrun as (_ & _ & opened & Hopened & Hout).
  rewrite Hsrc in Hopened. injection Hopened as <-.
  split; [assumption|]. split; reflexivity.
Qed.

(** X19.  There is no rollback.  When the directory of a category is an
    existing file and the tree is writable for the categories before it
    in the table, the run dies with [FileExistsError] at that category,
    and every icon of the categories before it has been written and
    stays on disk. *)
Theorem no_rollback_after_failure done e rest source_path output_dir src w :
  IOS_ICON_SIZES = done ++ e :: rest ->
  files w !! source_path = Some (ImageFile src) ->
  output_dir <> EmptyString ->
  files w !! output_dir = None ->
  Forall (fun d : string * list (string * Z) =>
            files w !! os_path_join output_dir (fst d) = None) done ->
  Forall (fun t : string * (string * Z) => fst t ∉ dirs w) (targets_in output_dir done) ->
  is_Some (files w !! os_path_join output_dir (fst e)) ->
  exists msg w',
    generate_icons source_path output_dir w = (Raise (Exception FileExistsError msg), w') /\
    forall t, t ∈ targets_in output_dir done ->
      files w' !! fst t = Some (ImageFile (icon_of (as_rgba src) (fst (snd t)) (snd (snd t)))).
Proof.
  intros Htable Hsrc Hname Hroot Hdirs Htargets Hblock.
  assert (Hsub : forall t, t ∈ targets_in output_dir done -> t ∈ targets output_dir).
  { intros t Ht. unfold targets, targets_in. rewrite Htable, flat_map_app.
    apply elem_of_app. now left. }
  assert (Hin : forall d, d ∈ done -> d ∈ IOS_ICON_SIZES)
    by (intros d Hd; rewrite Htable; apply elem_of_app; now left).
  assert (He : e ∈ IOS_ICON_SIZES).
  { rewrite Htable. apply elem_of_app. right. apply elem_of_cons. now left. }
  unfold generate_icons.
  rewrite bind_run. unfold os_path_exists.
  rewrite bool_decide_eq_true_2 by (left; rewrite Hsrc; eauto).
  cbn [negb]. rewrite bind_run.
  change ((mret tt : M unit) w) with (Ok tt, w). cbv beta iota.
  destruct (load_run source_path src w Hsrc) as (line & Hload).
  rewrite bind_run, Hload.
  rewrite bind_run, os_makedirs_run by assumption.
  cbn [files dirs stdout]. rewrite bind_run.
  match goal with
  | |- context [foldM ?f IOS_ICON_SIZES ?t ?w1] =>
      replace (foldM f IOS_ICON_SIZES t w1) with (foldM f (done ++ e :: rest) t w1)
        by (now rewrite Htable)
  end.
  rewrite foldM_app.
  match goal with
  | |- context [foldM (write_category ?img output_dir) done ?t ?w1] =>
      destruct (write_categories_run img output_dir done t w1)
        as (w2 & Hrun & Hf & _)
  end.
  - pose proof table_sides_ok as Hs. rewrite Htable in Hs.
    apply Forall_app in Hs as [Hs _]. exact Hs.
  - cbn [files]. apply Forall_forall. intros d Hd. split.
    + apply category_dirs_named. auto.
    + rewrite Forall_forall in Hdirs. auto.
  - cbn [dirs]. apply Forall_forall. intros t Ht Hel.
    rewrite Forall_forall in Htargets.
    apply elem_of_union in Hel as [Hel|Hel].
    + apply elem_of_singleton in Hel.
      exact (targets_not_root output_dir t Hname (Hsub t Ht) Hel).
    + exact (Htargets t Ht Hel).
  - intros t d Ht Hd. apply targets_apart; auto.
  - rewrite Hrun. cbn [foldM]. rewrite bind_run.
    destruct e as [category sizes]. unfold write_category at 1.
    rewrite bind_run. unfold os_makedirs at 1.
    assert (Hnamed : os_path_join output_dir category <> EmptyString)
      by (exact (category_dirs_named output_dir (category, sizes) He)).
    apply String.eqb_neq in Hnamed. rewrite Hnamed.
    cbn [files] in Hf.
    assert (Hkeys : (saved_for (as_rgba src) output_dir done).*1
                    = (targets_in output_dir done).*1)
      by (unfold saved_for; rewrite <- list_fmap_compose; reflexivity).
    assert (Hstill : files w2 !! os_path_join output_dir category
                     = files w !! os_path_join output_dir category).
    { rewrite Hf. apply save_all_lookup_other. rewrite Hkeys.
      intros Hel. apply list_elem_of_fmap in Hel as (t & Ht & Hel).
      symmetry in Ht.
      exact (targets_apart output_dir t (category, sizes) (Hsub t Hel) He Ht). }
    rewrite Hstill. destruct Hblock as [x Hx]. cbn [fst] in Hx. rewrite Hx.
    eexists _, _. split; [reflexivity|].
    intros t Ht. rewrite Hf. apply save_all_lookup.
    + rewrite Hkeys. pose proof (targets_NoDup output_dir) as Hnd.
      unfold targets, targets_in in Hnd. rewrite Htable, flat_map_app, fmap_app in Hnd.
      apply NoDup_app in Hnd as [Hnd _]. exact Hnd.
    + unfold saved_for.
      exact (list_elem_of_fmap_2
               (fun t : string * (string * Z) =>
                  (fst t, icon_of (as_rgba src) (fst (snd t)) (snd (snd t)))) _ _ Ht).
Qed.


End WithPillowSpec.

(** Runs on the concrete Pillow of [Demo]. *)
#[local] Existing Instance Demo.pillow.
#[local] Existing Instance DemoFacts.pillow_spec.


Lemma unusable_output_dir_fails_before_output_witness :
  exists cls msg w',
    generate_icons "logo.png" "notes.txt" cluttered = (Raise (Exception cls msg), w') /\
    (cls = FileNotFoundError \/ cls = FileExistsError) /\
    files w' = files cluttered /\ dirs w' = dirs cluttered /\
    exit_status (fst (generate_icons "logo.png" "notes.txt" cluttered)) = 1.
Proof.
  apply (unusable_output_dir_fails_before_output "logo.png" "notes.txt" Demo.logo cluttered).
  - vm_compute. reflexivity.
  - right. exists OtherFile. vm_compute. reflexivity.
Defined.


Lemma second_run_changes_nothing_witness :
  exists w1 w2,
    generate_icons "logo.png" "AppIcons" Demo.disk = (Ok "AppIcons"%string, w1) /\
    generate_icons "logo.png" "AppIcons" w1 = (Ok "AppIcons"%string, w2) /\
    files w2 = files w1 /\ dirs w2 = dirs w1.
Proof.
  apply (second_run_changes_nothing "logo.png" "AppIcons" Demo.logo Demo.disk).
  - vm_compute. reflexivity.
  - exact DemoFacts.disk_writable.
  - apply (bool_decide_unpack _). vm_compute. reflexivity.
Defined.

Lemma run_prints_the_table_witness :
  exists w',
    generate_icons "logo.png" "AppIcons" Demo.disk = (Ok "AppIcons"%string, w') /\
    stdout w' = stdout Demo.disk ++ transcript Demo.logo "AppIcons" /\
    length (transcript Demo.logo "AppIcons") = 31%nat /\
    length (targets "AppIcons") = 21%nat.
Proof.
  apply (run_prints_the_table "logo.png" "AppIcons" Demo.logo Demo.disk).
  - vm_compute. reflexivity.
  - exact DemoFacts.disk_writable.
Defined.

Lemma no_rollback_after_failure_witness :
  exists msg w',
    generate_icons "logo.png" "AppIcons" blocked = (Raise (Exception FileExistsError msg), w') /\
    forall t, t ∈ targets_in "AppIcons" (take 1 IOS_ICON_SIZES) ->
      files w' !! fst t
      = Some (ImageFile (icon_of (as_rgba Demo.logo) (fst (snd t)) (snd (snd t)))).
Proof.
  apply (no_rollback_after_failure
           (take 1 IOS_ICON_SIZES)
           ("ipad"%string,
            [ ("Icon-20@1x.png", 20); ("Icon-20@2x.png", 40);
              ("Icon-29@1x.png", 29); ("Icon-29@2x.png", 58);
              ("Icon-40@1x.png", 40); ("Icon-40@2x.png", 80);
              ("Icon-76@1x.png", 76); ("Icon-76@2x.png", 152);
              ("Icon-83.5@2x.png", 167) ]%string)
           (drop 2 IOS_ICON_SIZES) "logo.png" "AppIcons" Demo.logo blocked).
  - reflexivity.
  - vm_compute. reflexivity.
  - discriminate.
  - vm_compute. reflexivity.
  - apply (bool_decide_unpack _). vm_compute. reflexivity.
  - apply (bool_decide_unpack _). vm_compute. reflexivity.
  - exists OtherFile. vm_compute. reflexivity.
Defined.


End IconGeneratorExtras.
